(** * einpartikkel: eigenpair store and spectral projection engine

    A shallow embedding of
      - [einpartikkel/eigenvalues/eigenvalues_iter.py]
      - [einpartikkel/analysis/analysis.py]
    and the properties of these two modules.

    Numbers.  The Python code computes with numpy doubles.  Every
    definition below is written once, over an arbitrary carrier [F] with
    the arithmetic operations the source uses (class [Arith]); the
    theorems therefore hold for every interpretation of the arithmetic.
    The scalar operations are interpreted in IEEE binary64
    ([float_arith], the kernel's primitive floats), on which concrete runs
    are evaluated.  The value of a numpy reduction ([sum], [dot]) or of
    [abs] on a complex number depends on how numpy, the BLAS and the C
    library round; these are operations of the interpretation as well
    (classes [Cplx] and [Reductions]), and nothing is assumed of them
    beyond the shape of their results.

    Effects.  Python exceptions are a [result]; functions that touch the
    object store, the standard output, the log or the file system thread a
    state through the monad [M]. *)

From Stdlib Require Import ZArith Ascii String.
From Stdlib Require Import Floats.PrimFloat Floats.SpecFloat Floats.FloatOps.
From Stdlib Require Import Numbers.Cyclic.Int63.Uint63.
From stdpp Require Import base gmap strings list sorting pretty.

(* ===================================================================== *)
(** * Exceptions, results and the state monad                            *)
(* ===================================================================== *)

(** The Python exceptions that the modelled code can raise. *)
Inductive exn : Type :=
  | IndexError
  | ValueError
  | AttributeError
  | AssertionError
  | IOError
  | NoSuchNodeError
  | NodeError.

Inductive result (A : Type) : Type :=
  | Ok (a : A)
  | Raise (e : exn).
Arguments Ok {A} a.
Arguments Raise {A} e.

#[export] Instance result_ret : MRet result := fun A a => Ok a.
#[export] Instance result_bind : MBind result :=
  fun A B f r => match r with Ok a => f a | Raise e => Raise e end.
#[export] Instance result_fmap : FMap result :=
  fun A B f r => match r with Ok a => Ok (f a) | Raise e => Raise e end.

(** A computation over a state [S] that may raise.  The state reached
    when an exception is raised is kept: side effects performed before a
    [raise] persist in Python. *)
Definition M (S A : Type) : Type := S -> S * result A.

#[export] Instance M_ret {S} : MRet (M S) := fun A a s => (s, Ok a).
#[export] Instance M_bind {S} : MBind (M S) :=
  fun A B f c s =>
    match c s with
    | (s', Ok a) => f a s'
    | (s', Raise e) => (s', Raise e)
    end.

Definition lift {S A} (r : result A) : M S A := fun s => (s, r).
Definition modify {S} (f : S -> S) : M S unit := fun s => (f s, Ok tt).
Definition gets {S A} (f : S -> A) : M S A := fun s => (s, Ok (f s)).

(** [try: body except: handler] with a bare [except]. *)
Definition try_except {S A} (body : M S A) (handler : M S A) : M S A :=
  fun s => match body s with
           | (s', Ok a) => (s', Ok a)
           | (s', Raise _) => handler s'
           end.

(** [try: body finally: fin]. *)
Definition try_finally {S A} (body : M S A) (fin : M S unit) : M S A :=
  fun s => match body s with
           | (s', r) => match fin s' with
                        | (s'', Ok _) => (s'', r)
                        | (s'', Raise e) => (s'', Raise e)
                        end
           end.

(** A [for] loop with an accumulator. *)
Fixpoint foldM {S A B} (f : B -> A -> M S B) (acc : B) (xs : list A) : M S B :=
  match xs with
  | [] => mret acc
  | x :: xs' => acc' ← f acc x; foldM f acc' xs'
  end.

Fixpoint for_each {S A} (f : A -> M S unit) (xs : list A) : M S unit :=
  match xs with
  | [] => mret tt
  | x :: xs' => _ ← f x; for_each f xs'
  end.

(** The same for pure code that may raise. *)
Fixpoint mapR {A B} (f : A -> result B) (xs : list A) : result (list B) :=
  match xs with
  | [] => Ok []
  | x :: xs' => y ← f x; ys ← mapR f xs'; Ok (y :: ys)
  end.

(** A [for] loop with an accumulator, for pure code that may raise. *)
Fixpoint foldR {A B} (f : B -> A -> result B) (acc : B) (xs : list A) : result B :=
  match xs with
  | [] => Ok acc
  | x :: xs' => acc' ← f acc x; foldR f acc' xs'
  end.

(* ===================================================================== *)
(** * Arithmetic                                                          *)
(* ===================================================================== *)

(** The operations on real numbers used by the source. [ceil_intp] is the
    conversion numpy applies to an array length: it fails on a value that
    is not finite. *)
Class Arith (F : Type) : Type := {
  of_int : Z -> F;
  fadd : F -> F -> F;
  fsub : F -> F -> F;
  fmul : F -> F -> F;
  fdiv : F -> F -> F;
  fltb : F -> F -> bool;
  ceil_intp : F -> option Z
}.

Class Sqrt (F : Type) : Type := { fsqrt : F -> F }.

(** Complex numbers over [F], with the element-wise operations of the
    source: [*], [conj] and [abs].  On doubles numpy takes [abs] with the
    [hypot] of the C library. *)
Class Cplx (F C : Type) : Type := {
  cmul : C -> C -> C;
  cconj : C -> C;
  cabs : C -> F
}.

(** Complex subtraction, used by the in-place removal of bound-state
    projections only. *)
Class CSub (C : Type) : Type := { csub : C -> C -> C }.

(** The numpy reductions of the source: [sum] of a one-dimensional
    array, and [dot] of a matrix, given by its rows, with a vector.  On
    doubles their values depend on the order in which numpy and the BLAS
    behind it add the terms (in blocks, pairwise, with fused operations),
    so they are operations of the interpretation; only the shape of the
    result of [dot] is fixed: a matrix whose rows have the length of the
    vector gives one entry per row. *)
Class Reductions (F C : Type) : Type := {
  np_sum : list F -> F;
  np_dot : list (list C) -> list C -> result (list C);
  np_dot_shape : forall (a : list (list C)) (x : list C),
    Forall (fun row => length row = length x) a ->
    exists d, np_dot a x = Ok d /\ length d = length a
}.

(** ** IEEE binary64 *)

Definition float_of_int (z : Z) : float :=
  match z with
  | Zneg _ => PrimFloat.opp (PrimFloat.of_uint63 (Uint63.of_Z (Z.opp z)))
  | _ => PrimFloat.of_uint63 (Uint63.of_Z z)
  end.

Definition float_ceil (x : float) : option Z :=
  match Prim2SF x with
  | S754_zero _ => Some 0%Z
  | S754_finite s m e =>
      let v := if s then Zneg m else Zpos m in
      Some (match e with
            | Zneg p => Z.opp (Z.div (Z.opp v) (Z.pow 2 (Zpos p)))
            | _ => (v * Z.pow 2 e)%Z
            end)
  | _ => None
  end.

#[export] Instance float_arith : Arith float := {
  of_int := float_of_int;
  fadd := PrimFloat.add;
  fsub := PrimFloat.sub;
  fmul := PrimFloat.mul;
  fdiv := PrimFloat.div;
  fltb := PrimFloat.ltb;
  ceil_intp := float_ceil
}.

#[export] Instance float_sqrt : Sqrt float := { fsqrt := PrimFloat.sqrt }.

(* ===================================================================== *)
(** * Python sequences and the numpy functions used                       *)
(* ===================================================================== *)

(** [xs[i]] with Python's negative indices. *)
Definition py_index {A} (xs : list A) (i : Z) : result A :=
  let n := Z.of_nat (length xs) in
  let j := if (i <? 0)%Z then (n + i)%Z else i in
  if ((0 <=? j)%Z && (j <? n)%Z)%bool then
    match xs !! Z.to_nat j with
    | Some x => Ok x
    | None => Raise IndexError
    end
  else Raise IndexError.

(** [xs[:-1]] and [xs[1:]]. *)
Definition all_but_last {A} (xs : list A) : list A := take (length xs - 1) xs.
Definition from_second {A} (xs : list A) : list A := drop 1 xs.

Section Numpy.
Context {F : Type} {Ar : Arith F}.

Definition zeros (n : nat) : list F := replicate n (of_int 0).

(** [numpy.diff]: [out[i] = a[i+1] - a[i]]. *)
Fixpoint diff (a : list F) : list F :=
  match a with
  | x :: (y :: _) as rest => fsub y x :: diff rest
  | _ => []
  end.

(** Element-wise operation on two one-dimensional arrays with numpy's
    broadcasting: equal lengths, or one operand of length one. *)
Definition broadcast (op : F -> F -> F) (a b : list F) : result (list F) :=
  if decide (length a = length b) then Ok (zip_with op a b)
  else match a, b with
       | [x], _ => Ok (map (op x) b)
       | _, [y] => Ok (map (fun x => op x y) a)
       | _, _ => Raise ValueError
       end.

(** The indices of [where(a < 0)[0]], in increasing order. *)
Fixpoint where_negative_from (i : nat) (a : list F) : list nat :=
  match a with
  | [] => []
  | x :: a' =>
      if fltb x (of_int 0) then i :: where_negative_from (S i) a'
      else where_negative_from (S i) a'
  end.
Definition where_negative (a : list F) : list nat := where_negative_from 0 a.

(** [a[idx]] for an index array [idx]. *)
Definition take_indices (a : list F) (idx : list nat) : result (list F) :=
  mapR (fun i => py_index a (Z.of_nat i)) idx.

(** [r_[start:stop:step]], that is [numpy.arange(start, stop, step)]:
    the length is [ceil((stop - start) / step)] (empty when that is not
    positive), the first two elements are [start] and [start + step],
    and element [i >= 2] is [start + i * delta] where
    [delta = (start + step) - start]. *)
Definition arange_item (start step : F) (i : nat) : F :=
  match i with
  | 0 => start
  | 1 => fadd start step
  | _ => fadd start (fmul (of_int (Z.of_nat i)) (fsub (fadd start step) start))
  end.

Definition r_ (start stop step : F) : result (list F) :=
  match ceil_intp (fdiv (fsub stop start) step) with
  | None => Raise ValueError
  | Some len => Ok (map (arange_item start step) (seq 0 (Z.to_nat len)))
  end.

(** [numpy.interp] at one point, for increasing [xp]: the segment
    [xp[j] <= x < xp[j+1]] is located and the value is
    [slope * (x - xp[j]) + fp[j]]; at the last sample point the value is
    the last [fp]. *)
Fixpoint interp_segment (x : F) (xp fp : list F) : result F :=
  match xp, fp with
  | a :: xp', fa :: fp' =>
      match xp', fp' with
      | b :: _, fb :: _ =>
          if fltb x b then
            let slope := fdiv (fsub fb fa) (fsub b a) in
            Ok (fadd (fmul slope (fsub x a)) fa)
          else interp_segment x xp' fp'
      | [], [] => Ok fa
      | _, _ => Raise ValueError
      end
  | _, _ => Raise ValueError
  end.

Definition interp1 (xp fp : list F) (left right : F) (x : F) : result F :=
  x0 ← py_index xp 0;
  xn ← py_index xp (-1);
  if fltb x x0 then Ok left
  else if fltb xn x then Ok right
  else interp_segment x xp fp.

(** [scipy.interp(x, xp, fp, left, right)] (numpy's [interp]). *)
Definition interp (x xp fp : list F) (left right : F) : result (list F) :=
  if decide (length xp = length fp) then
    match xp with
    | [] => Raise ValueError
    | _ => mapR (interp1 xp fp left right) x
    end
  else Raise ValueError.

End Numpy.

(* ===================================================================== *)
(** * Strings                                                            *)
(* ===================================================================== *)

(** [s.replace(" ", "_")]. *)
Fixpoint replace_spaces (s : string) : string :=
  match s with
  | EmptyString => EmptyString
  | String c s' =>
      String (if Ascii.eqb c " "%char then "_"%char else c) (replace_spaces s')
  end.

Fixpoint has_slash (s : string) : bool :=
  match s with
  | EmptyString => false
  | String c s' => Ascii.eqb c "/"%char || has_slash s'
  end.

(** The group part of a dataset path: everything before the last ["/"]. *)
Fixpoint dirname (s : string) : string :=
  match s with
  | EmptyString => EmptyString
  | String c s' => if has_slash s' then String c (dirname s') else EmptyString
  end.

(** [sort(unique(xs))] on a list of integers. *)
Definition sort_unique (xs : list Z) : list Z := merge_sort Z.le (remove_dups xs).

(* ===================================================================== *)
(** * eigenvalues_iter.py                                                 *)
(* ===================================================================== *)

Module Eigenvalues.

Inductive LogLevel : Type := Info | Warning | Error.

(** An argument of [NameGeneratorBoundstates]: [LoadEigenpairs] is
    called with integers, [SaveEigenpairsSolverShiftInvert] passes the
    sorted arrays of the distinct quantum numbers. *)
Inductive PyVal : Type :=
  | PyInt (z : Z)
  | PyIntArray (a : list Z).

Record LmIndex : Type := { lm_l : Z; lm_m : Z }.

Section Model.
Context {F C : Type} {Ar : Arith F}.

(** The [Eigenvalues] section of the configuration, and the
    serialized configuration object. *)
Record Config : Type := {
  folder_name : string;
  shift : F;
  cfgObj : string
}.

(** What the pIRAM solver object answers after [Solve()].
    [GetEigenvalues] are the eigenvalues of the shift-inverted
    operator, [GetEigenvector i] is what [SetEigenvector(psi, i)]
    stores in [psi]; [AngularRange] is the list of [LmIndex] of the
    angular representation of the solver's wavefunction. *)
Record PiramSolver : Type := {
  BaseProblem_Config : Config;
  AngularRange : list LmIndex;
  GetEigenvalues : list F;
  GetConvergenceEstimates : list F;
  GetErrorEstimates : list F;
  GetEigenvector : list (list (list C));
  GetOperatorCount : Z;
  GetRestartCount : Z;
  GetOrthogonalizationCount : Z
}.

Record GMRESShiftInvertSolver : Type := {
  GetErrorEstimateList : list F
}.

(** ** The persistent store *)

Inductive Node : Type :=
  | Group
  | ArrayNode (a : list F)
  | WavefunctionNode (d : list (list C)).

Inductive Attr : Type :=
  | AttrString (s : string)
  | AttrInt (z : Z).

(** An HDF5 file: its nodes by path, and the attributes of its
    [/Eig] group. *)
Record H5File : Type := {
  nodes : gmap string Node;
  attrs : gmap string Attr
}.

(** The file system, the log, and the data of [solver.BaseProblem.psi]. *)
Record World : Type := {
  fs : gmap string H5File;
  log : list (LogLevel * string);
  psi : list (list C)
}.

Definition set_fs (f : gmap string H5File -> gmap string H5File) (w : World) : World :=
  {| fs := f (fs w); log := log w; psi := psi w |}.
Definition add_log (lv : LogLevel) (msg : string) (w : World) : World :=
  {| fs := fs w; log := log w ++ [(lv, msg)]; psi := psi w |}.
Definition set_psi (d : list (list C)) (w : World) : World :=
  {| fs := fs w; log := log w; psi := d |}.

Definition empty_file : H5File := {| nodes := ∅; attrs := ∅ |}.
Definition set_node (path : string) (n : Node) (f : H5File) : H5File :=
  {| nodes := <[path := n]> (nodes f); attrs := attrs f |}.
Definition del_node (path : string) (f : H5File) : H5File :=
  {| nodes := delete path (nodes f); attrs := attrs f |}.
Definition set_attr (name : string) (a : Attr) (f : H5File) : H5File :=
  {| nodes := nodes f; attrs := <[name := a]> (attrs f) |}.

(** [logger.info], [logger.warning], [logger.error]. *)
Definition logger (lv : LogLevel) (msg : string) : M World unit :=
  modify (add_log lv msg).

(** [os.path.exists]. *)
Definition os_path_exists (filename : string) : M World bool :=
  gets (fun w => bool_decide (is_Some (fs w !! filename))).

(** [os.remove]. *)
Definition os_remove (filename : string) : M World unit :=
  fun w => match fs w !! filename with
           | Some _ => (set_fs (delete filename) w, Ok tt)
           | None => (w, Raise IOError)
           end.

(** [prop.SaveWavefunctionHDF(filename, datasetPath)]: the file and
    the group of the dataset are created when missing, and the data
    of [psi] is stored at [datasetPath]. *)
Definition SaveWavefunctionHDF (filename datasetPath : string) : M World unit :=
  fun w =>
    let f := default empty_file (fs w !! filename) in
    let f' := set_node datasetPath (WavefunctionNode (psi w))
                (set_node (dirname datasetPath) Group f) in
    (set_fs <[filename := f']> w, Ok tt).

(** [solver.SetEigenvector(psi, i)]. *)
Definition SetEigenvector (solver : PiramSolver) (i : nat) : M World unit :=
  fun w => match GetEigenvector solver !! i with
           | Some v => (set_psi v w, Ok tt)
           | None => (w, Raise IndexError)
           end.

(** [pyprop.serialization.RemoveExistingDataset]: nothing happens when
    the file or the dataset does not exist. *)
Definition RemoveExistingDataset (filename datasetPath : string) : M World unit :=
  modify (set_fs (fun files =>
    match files !! filename with
    | Some f => <[filename := del_node datasetPath f]> files
    | None => files
    end)).

(** [tables.openFile(filename, mode)] on a file that must exist: the
    handle is the file name. *)
Definition openFile (filename : string) : M World string :=
  fun w => match fs w !! filename with
           | Some _ => (w, Ok filename)
           | None => (w, Raise IOError)
           end.

(** [h5file.getNode(path)]. *)
Definition getNode (h5file path : string) : M World Node :=
  fun w => match fs w !! h5file with
           | Some f => match nodes f !! path with
                       | Some n => (w, Ok n)
                       | None => (w, Raise NoSuchNodeError)
                       end
           | None => (w, Raise IOError)
           end.

(** [h5file.createArray(group, name, a)]: refused when the node
    exists. *)
Definition createArray (h5file group name : string) (a : list F) : M World unit :=
  fun w => match fs w !! h5file with
           | Some f =>
               let path := group +:+ "/" +:+ name in
               match nodes f !! path with
               | Some _ => (w, Raise NodeError)
               | None => (set_fs <[h5file := set_node path (ArrayNode a) f]> w, Ok tt)
               end
           | None => (w, Raise IOError)
           end.

(** [myGroup._v_attrs.name = value]. *)
Definition setAttr (h5file name : string) (a : Attr) : M World unit :=
  fun w => match fs w !! h5file with
           | Some f => (set_fs <[h5file := set_attr name a f]> w, Ok tt)
           | None => (w, Raise IOError)
           end.

(** [pyprop.serialization.GetArrayFromHDF5(filename, group, name)]. *)
Definition GetArrayFromHDF5 (filename group name : string) : M World (list F) :=
  h5file ← openFile filename;
  n ← getNode h5file (group +:+ "/" +:+ name);
  match n with
  | ArrayNode a => mret a
  | _ => lift (Raise ValueError)
  end.

(** ** Names *)

Definition GetEigenvectorDatasetName (idx : nat) : string :=
  "Eigenvector_" +:+ pretty idx.

Definition GetEigenvectorGroupName : string := "/Eig".

Definition GetEigenvectorDatasetPath (eigenvectorIndex : nat) : string :=
  GetEigenvectorGroupName +:+ "/" +:+ GetEigenvectorDatasetName eigenvectorIndex.

(** Supplied by the surrounding framework: [GetRadialPostfix] (module
    [namegenerator]), Python's [str] on a quantum-number argument, and
    [os.path.normpath]. *)
Variable GetRadialPostfix : Config -> list string.
Variable py_str : PyVal -> string.
Variable normpath : string -> string.

Definition NameGeneratorBoundstates (conf : Config) (l m : PyVal) : string :=
  let folderName := folder_name conf in
  let radialPostfix := String.concat "_" (GetRadialPostfix conf) in
  let l := replace_spaces (py_str l) in
  let m := replace_spaces (py_str m) in
  let filename := folderName +:+ "/" in
  let filename := filename +:+ (radialPostfix +:+ ("_l" +:+ l +:+ "_m" +:+ m) +:+ ".h5") in
  normpath filename.

(** ** FindEigenvaluesInverseIterationsPiram *)

(** Setting up the problem and the two solvers and running
    [solver.Solve()] is the framework's work. *)
Variable Solve : Config -> PiramSolver * GMRESShiftInvertSolver.

Definition FindEigenvaluesInverseIterationsPiram (conf : Config)
  : result (PiramSolver * GMRESShiftInvertSolver * list F) :=
  let '(solver, shiftInvertSolver) := Solve conf in
  (* Get the converged eigenvalues *)
  let ev := GetEigenvalues solver in
  let estimates := GetConvergenceEstimates solver in
  let idx := where_negative estimates in
  eigenvalues ← take_indices ev idx;
  (* convert from shift inverted eigenvalues to "actual" eigenvalues *)
  let shift := shift conf in
  let eigenvalues := map (fun x => fadd (fdiv (of_int 1) x) shift) eigenvalues in
  Ok (solver, shiftInvertSolver, eigenvalues).

(** ** SaveEigenpairsSolverShiftInvert *)

(** [pyprop.ProcId], the rank of this process. *)
Variable ProcId : nat.

Definition SaveEigenpairsSolverShiftInvert
    (solver : PiramSolver) (shiftInvertSolver : GMRESShiftInvertSolver)
  : M World unit :=
  let conf := BaseProblem_Config solver in
  let shift := shift conf in
  (* Get angular momentum and z-projection *)
  let angRange := AngularRange solver in
  let l := sort_unique (map lm_l angRange) in
  let m := sort_unique (map lm_m angRange) in
  (* generate filename *)
  let filename := NameGeneratorBoundstates conf (PyIntArray l) (PyIntArray m) in
  (* Get eigenvalue error estimates *)
  let errorEstimatesPIRAM := GetErrorEstimates solver in
  let convergenceEstimatesEig := GetConvergenceEstimates solver in
  let errorEstimatesGMRES := GetErrorEstimateList shiftInvertSolver in
  (* Get eigenvalues *)
  let E := map (fun x => fadd (fdiv (of_int 1) x) shift) (GetEigenvalues solver) in
  (* remove file if it exists *)
  _ ← try_except
        (ex ← os_path_exists filename;
         if (ex : bool) return M World unit then
           if decide (ProcId = 0) then os_remove filename else mret tt
         else mret tt)
        (logger Error ("Could not remove " +:+ filename));
  (* Store eigenvalues and eigenvectors *)
  _ ← logger Info "Now storing eigenvectors...";
  _ ← for_each (fun i =>
         _ ← SetEigenvector solver i;
         SaveWavefunctionHDF filename (GetEigenvectorDatasetPath i))
       (seq 0 (length E));
  if decide (ProcId = 0) return M World unit then
    let eigGroupName := GetEigenvectorGroupName in
    _ ← RemoveExistingDataset filename ("/" +:+ eigGroupName +:+ "/Eigenvalues");
    _ ← RemoveExistingDataset filename ("/" +:+ eigGroupName +:+ "/ErrorEstimateListGMRES");
    _ ← RemoveExistingDataset filename ("/" +:+ eigGroupName +:+ "/ErrorEstimateListPIRAM");
    _ ← RemoveExistingDataset filename ("/" +:+ eigGroupName +:+ "/ConvergenceEstimateEig");
    h5file ← openFile filename;
    _ ← try_finally
          (try_except
             (_ ← getNode h5file eigGroupName;
              _ ← createArray h5file eigGroupName "Eigenvalues" E;
              _ ← createArray h5file eigGroupName "ErrorEstimateListGMRES" errorEstimatesGMRES;
              _ ← createArray h5file eigGroupName "ErrorEstimateListPIRAM" errorEstimatesPIRAM;
              _ ← createArray h5file eigGroupName "ConvergenceEstimateEig" convergenceEstimatesEig;
              (* Store config *)
              _ ← setAttr h5file "configObject" (AttrString (cfgObj conf));
              (* PIRAM stats *)
              _ ← setAttr h5file "opCount" (AttrInt (GetOperatorCount solver));
              _ ← setAttr h5file "restartCount" (AttrInt (GetRestartCount solver));
              setAttr h5file "orthCount" (AttrInt (GetOrthogonalizationCount solver)))
             (logger Warning "Warning: could not store eigenvalues and error estimates!"))
          (mret tt);
    (* pypar.barrier() *)
    mret tt
  else mret tt.

(** ** LoadEigenpairs *)

Definition LoadEigenpairs (conf : Config) (l m : PyVal)
  : M World (list F * list (list C)) :=
  (* generate filename *)
  let filename := NameGeneratorBoundstates conf l m in
  (* check if file exists, if not, return empty lists *)
  ex ← os_path_exists filename;
  if negb ex return M World (list F * list (list C)) then
    _ ← logger Warning ("Eigenstates file does not exist, skipping: " +:+ filename);
    mret (([] : list F), ([] : list (list C)))
  else
    (* Load eigenvalues and eigenvectors *)
    _ ← logger Info "Now loading eigenvalues...";
    let eigPath := GetEigenvectorGroupName in
    E ← GetArrayFromHDF5 filename eigPath "Eigenvalues";
    _ ← logger Info "Now loading eigenvectors...";
    h5file ← openFile filename;
    V ← foldM (fun V i =>
           myGroup ← getNode h5file (GetEigenvectorDatasetPath i);
           row ← match myGroup with
                 | WavefunctionNode d => lift (py_index d 0)
                 | _ => lift (Raise IndexError)
                 end;
           mret (V ++ [row]))
         [] (seq 0 (length E));
    mret (E, V).

End Model.

End Eigenvalues.

(* ===================================================================== *)
(** * analysis.py                                                         *)
(* ===================================================================== *)

Module Analysis.

Section Model.
Context {F C : Type} {Ar : Arith F} {Sq : Sqrt F} {Cx : Cplx F C} {Np : Reductions F C}.

(** A wavefunction object: its data, one row per angular block, and
    the overlap operator of its representation
    ([GetRepresentation().MultiplyOverlap]). *)
Record Wavefunction : Type := {
  GetData : list (list C);
  Representation_MultiplyOverlap : list (list C) -> list (list C)
}.

(** One item of [IterateStates] / [IterateBoundStates]:
    [(angIdx, curE, curV, l, m)].  [curV] is given by the rows of
    [curV.transpose()], one eigenvector per entry of [curE]. *)
Record Block : Type := {
  angIdx : nat;
  curE : list F;
  curV : list (list C);
  blk_l : Z;
  blk_m : Z
}.

(** The eigenstate catalog ([eigenstates.Eigenstates] or
    [coulombwaves.CoulombWaves]): the two iterations, and the
    asymptotic charge of a Coulomb-wave catalog. *)
Record Catalog : Type := {
  IterateStates : F -> list Block;
  IterateBoundStates : F -> list Block;
  catalog_Z : Z
}.

(** The object store, and what was written to the standard output
    and handed to [self.Logger]. *)
Record State : Type := {
  heap : gmap nat Wavefunction;
  stdout : list F;
  logged : list string
}.

Definition set_heap (f : gmap nat Wavefunction -> gmap nat Wavefunction) (s : State) : State :=
  {| heap := f (heap s); stdout := stdout s; logged := logged s |}.
Definition print (x : F) : M State unit :=
  modify (fun s => {| heap := heap s; stdout := stdout s ++ [x]; logged := logged s |}).

Context {Conf : Type}.

(** An [EigenstateAnalysis] instance.  [Eigenstate] is set by
    [Setup]; [Logger] is an attribute that neither [__init__] nor
    [Setup] sets: it is present only when the caller assigned it. *)
Record EigenstateAnalysis : Type := {
  Config : Conf;
  BoundThreshold : F;
  self_m : Z;
  Eigenstate : option Catalog;
  Logger : bool
}.

Definition EigenstateAnalysis_init (conf : Conf) : EigenstateAnalysis :=
  {| Config := conf; BoundThreshold := of_int 0; self_m := 0;
     Eigenstate := None; Logger := false |}.

(** [self.Logger(msg)]. *)
Definition call_Logger (self : EigenstateAnalysis) (msg : string) : M State unit :=
  if Logger self then
    modify (fun s => {| heap := heap s; stdout := stdout s; logged := logged s ++ [msg] |})
  else lift (Raise AttributeError).

Definition get_Eigenstate (self : EigenstateAnalysis) : M State Catalog :=
  match Eigenstate self with
  | Some c => mret c
  | None => lift (Raise AttributeError)
  end.

(** ** MultiplyOverlap *)

(** [inPsi.Copy()]: a new object with a copy of the data and the same
    representation. *)
Definition Copy (inPsi : nat) : M State nat :=
  fun s => match heap s !! inPsi with
           | Some w =>
               let out := fresh (dom (heap s)) in
               (set_heap <[out := {| GetData := GetData w;
                                     Representation_MultiplyOverlap :=
                                       Representation_MultiplyOverlap w |}]> s,
                Ok out)
           | None => (s, Raise AttributeError)
           end.

(** [psi.GetRepresentation().MultiplyOverlap(psi)]: in place. *)
Definition GetRepresentation_MultiplyOverlap (psi : nat) : M State unit :=
  fun s => match heap s !! psi with
           | Some w =>
               (set_heap <[psi := {| GetData := Representation_MultiplyOverlap w (GetData w);
                                     Representation_MultiplyOverlap :=
                                       Representation_MultiplyOverlap w |}]> s,
                Ok tt)
           | None => (s, Raise AttributeError)
           end.

Definition MultiplyOverlap (inPsi : nat) : M State nat :=
  (* Get a copy of psi *)
  outPsi ← Copy inPsi;
  (* Multiply overlap *)
  _ ← GetRepresentation_MultiplyOverlap outPsi;
  mret outPsi.

Definition read_data (psi : nat) : M State (list (list C)) :=
  fun s => match heap s !! psi with
           | Some w => (s, Ok (GetData w))
           | None => (s, Raise AttributeError)
           end.

(** ** Projections *)

(** [dot(conj(curV.transpose()), psiSlice)]. *)
Definition dot_conj (curV : list (list C)) (psiSlice : list C) : result (list C) :=
  np_dot (map (map cconj) curV) psiSlice.

(** [abs(z)**2], element-wise. *)
Definition abs_squared (d : list C) : list F :=
  map (fun z => let a := cabs z in fmul a a) d.

(** ** CalculateEnergyDistribution *)

(** Lines "Calculate density of states". *)
Definition density_energy (curE : list F) : result (list F) :=
  let interiorSpacing :=
    map (fun s => fdiv s (of_int 2))
        (zip_with fadd (diff (all_but_last curE)) (diff (from_second curE))) in
  e1 ← py_index curE 1;
  e0 ← py_index curE 0;
  let leftSpacing := fdiv (fsub e1 e0) (of_int 2) in
  en1 ← py_index curE (-1);
  en2 ← py_index curE (-2);
  let rightSpacing := fdiv (fsub en1 en2) (of_int 2) in
  let spacing := [leftSpacing] ++ interiorSpacing ++ [rightSpacing] in
  let density := map (fun s => fdiv (of_int 1) s) spacing in
  Ok density.

(** What one angular block adds to [energyDistr]:
    [scipy.interp(E, curE, proj.ravel() * density, left=0, right=0)]. *)
Definition energy_block (E curE proj : list F) : result (list F) :=
  density ← density_energy curE;
  fp ← broadcast fmul proj density;
  interp E curE fp (of_int 0) (of_int 0).

(** The body of the loop over [IterateStates]; the accumulator is
    [(energyDistr, totalIon)]. *)
Definition energy_loop_body (data : list (list C)) (E : list F)
    (acc : list F * F) (blk : Block) : result (list F * F) :=
  let '(energyDistr, totalIon) := acc in
  (* Get projection on eigenstates *)
  psiSlice ← py_index data (Z.of_nat (angIdx blk));
  d ← dot_conj (curV blk) psiSlice;
  let proj := abs_squared d in
  (* Add to total ionisation *)
  let totalIon := fadd totalIon (np_sum proj) in
  (* Calculate density of states; interpolate to get equispaced dP/dE *)
  contribution ← energy_block E (curE blk) proj;
  Ok (zip_with fadd energyDistr contribution, totalIon).

Fixpoint energy_loop (data : list (list C)) (E : list F)
    (acc : list F * F) (blocks : list Block) : result (list F * F) :=
  match blocks with
  | [] => Ok acc
  | blk :: rest => acc' ← energy_loop_body data E acc blk; energy_loop data E acc' rest
  end.

(** The local variables of [CalculateEnergyDistribution] when its
    [return] statement is reached. *)
Record EnergyLocals : Type := {
  local_E : list F;
  local_energyDistr : list F;
  local_totalIon : F;
  local_totalIon2 : F;
  local_interpolateError : F
}.

Definition CalculateEnergyDistribution_locals
    (self : EigenstateAnalysis) (psi : nat) (minE maxE dE : F) : M State EnergyLocals :=
  _ ← call_Logger self "Now calculating dP/dE...";
  (* Multiply overlap on wavefunction *)
  overlapPsi ← MultiplyOverlap psi;
  (* Create energy grid *)
  E ← lift (r_ minE maxE dE);
  (* Initialise energy distribution array *)
  let energyDistr := zeros (length E) in
  (* Initialise total ionisation *)
  let totalIon := of_int 0 in
  (* Loops over {l,m}, and corresponding eigenvalues/eigenvectors *)
  eig ← get_Eigenstate self;
  data ← read_data overlapPsi;
  '(energyDistr, totalIon) ←
    lift (energy_loop data E (energyDistr, totalIon)
            (IterateStates eig (BoundThreshold self)));
  (* Controlling interpolation error *)
  let totalIon2 := fmul (np_sum energyDistr) dE in
  _ ← print totalIon;
  _ ← print totalIon2;
  let interpolateError := fsub totalIon totalIon2 in
  mret {| local_E := E; local_energyDistr := energyDistr;
          local_totalIon := totalIon; local_totalIon2 := totalIon2;
          local_interpolateError := interpolateError |}.

(** [return E, energyDistr]. *)
Definition CalculateEnergyDistribution
    (self : EigenstateAnalysis) (psi : nat) (minE maxE dE : F)
  : M State (list F * list F) :=
  locals ← CalculateEnergyDistribution_locals self psi minE maxE dE;
  mret (local_E locals, local_energyDistr locals).

(** The shapes under which the loop body does not raise on a block:
    the angular index is a row of the data, every eigenvector has the
    length of that row, there are at least two energies, and the
    projections broadcast against the density. *)
Definition block_ok (data : list (list C)) (blk : Block) : bool :=
  match data !! angIdx blk with
  | Some psiSlice =>
      forallb (fun v => Nat.eqb (length v) (length psiSlice)) (curV blk)
      && (2 <=? length (curE blk))
      && ((length (curV blk) =? length (curE blk)) || (length (curV blk) =? 1))
  | None => false
  end.

(** ** CalculateAngularDistribution: the density of states *)

Definition density_angular (curE : list F) : result (list F) :=
  let interiorSpacing := from_second (diff curE) in
  e1 ← py_index curE 1;
  e0 ← py_index curE 0;
  let leftSpacing := fsub e1 e0 in
  en1 ← py_index curE (-1);
  en2 ← py_index curE (-2);
  let rightSpacing := fsub en1 en2 in
  let spacing := [leftSpacing] ++ interiorSpacing ++ [rightSpacing] in
  let density := map (fun s => fdiv (of_int 1) (fsqrt s)) spacing in
  Ok density.

(** ** CoulombwaveAnalysis *)

Record CoulombwaveAnalysis : Type := {
  base : EigenstateAnalysis;
  self_Z : Z;
  FileList : list string
}.

Definition CoulombwaveAnalysis_init (conf : Conf) (Z : Z) (fileList : list string)
  : CoulombwaveAnalysis :=
  {| base := EigenstateAnalysis_init conf; self_Z := Z; FileList := fileList |}.

Definition set_Eigenstate (c : Catalog) (self : CoulombwaveAnalysis) : CoulombwaveAnalysis :=
  {| base := {| Config := Config (base self);
                BoundThreshold := BoundThreshold (base self);
                self_m := self_m (base self);
                Eigenstate := Some c;
                Logger := Logger (base self) |};
     self_Z := self_Z self; FileList := FileList self |}.

(** [coulombwaves.CoulombWaves.FromMultipleFiles] (module
    [coulombwaves]): the catalog loaded from the files, or the
    exception it raises. *)
Variable FromMultipleFiles : list string -> result Catalog.

Definition py_assert {S} (b : bool) : M S unit :=
  lift (if b then Ok tt else Raise AssertionError).

(** [CoulombwaveAnalysis.Setup]; the state is [self]. *)
Definition Setup : M CoulombwaveAnalysis unit :=
  (* Setup Coulomb waves *)
  fileList ← gets FileList;
  eigenstate ← lift (FromMultipleFiles fileList);
  _ ← modify (set_Eigenstate eigenstate);
  (* Check that the Coulomb waves are compatible *)
  z ← gets self_Z;
  py_assert (Z.eqb (catalog_Z eigenstate) z).

(** ** CalculateBoundDistribution, CalculateBoundProbability *)

(** The body of the loop over [IterateBoundStates]; the accumulator is
    [(boundDistr, boundE, boundV, boundTotal)]. *)
Definition bound_loop_body (data : list (list C))
    (acc : list (list C) * list (list F) * list (list (list C)) * F) (blk : Block)
  : result (list (list C) * list (list F) * list (list (list C)) * F) :=
  let '(boundDistr, boundE, boundV, boundTotal) := acc in
  (* Get projection on eigenstates *)
  psiSlice ← py_index data (Z.of_nat (angIdx blk));
  proj ← dot_conj (curV blk) psiSlice;
  let boundDistr := boundDistr ++ [proj] in
  let boundE := boundE ++ [curE blk] in
  let boundV := boundV ++ [curV blk] in
  let boundTotal := fadd boundTotal (np_sum (abs_squared proj)) in
  Ok (boundDistr, boundE, boundV, boundTotal).

Definition CalculateBoundDistribution (self : EigenstateAnalysis) (psi : nat)
  : M State (list (list F) * list (list (list C)) * list (list C) * F) :=
  (* Multiply overlap on wavefunction *)
  overlapPsi ← MultiplyOverlap psi;
  eig ← get_Eigenstate self;
  data ← read_data overlapPsi;
  '(boundDistr, boundE, boundV, boundTotal) ←
    lift (foldR (bound_loop_body data) ([], [], [], of_int 0)
            (IterateBoundStates eig (BoundThreshold self)));
  mret (boundE, boundV, boundDistr, boundTotal).

Definition CalculateBoundProbability (self : EigenstateAnalysis) (psi : nat)
  : M State F :=
  '(_, _, _, boundTotal) ← CalculateBoundDistribution self psi;
  mret boundTotal.

(** ** RemoveProjectionOnBoundStates *)

Context {Cs : CSub C}.

(** [psi.GetData()[angIdx, :] -= p * v[0,:]]: in place, on the object
    [psi].  Each item [v] of [curV.transpose()] is a one-row block, and
    [v[0,:]] is the eigenvector that [Block] records (the [ravel] of the
    projections in [CalculateEnergyDistribution] reads the same shape);
    the product broadcasts against the row when it has one element. *)
Definition subtract_from_row (psi angIdx : nat) (p : C) (v : list C) : M State unit :=
  fun s =>
    match heap s !! psi with
    | None => (s, Raise AttributeError)
    | Some w =>
        match GetData w !! angIdx with
        | None => (s, Raise IndexError)
        | Some row =>
            let pv := map (cmul p) v in
            let store (row' : list C) :=
              (set_heap <[psi := {| GetData := <[angIdx := row']> (GetData w);
                                    Representation_MultiplyOverlap :=
                                      Representation_MultiplyOverlap w |}]> s,
               Ok tt) in
            if decide (length pv = length row) then store (zip_with csub row pv)
            else match pv with
                 | [y] => store (map (fun x => csub x y) row)
                 | _ => (s, Raise ValueError)
                 end
        end
    end.

(** The body of the loop over [IterateBoundStates]. *)
Definition remove_loop_body (psi overlapPsi : nat) (blk : Block) : M State unit :=
  (* Get projection on eigenstates *)
  data ← read_data overlapPsi;
  psiSlice ← lift (py_index data (Z.of_nat (angIdx blk)));
  proj ← lift (dot_conj (curV blk) psiSlice);
  for_each (fun pv : C * list C => subtract_from_row psi (angIdx blk) (fst pv) (snd pv))
           (zip proj (curV blk)).

Definition RemoveProjectionOnBoundStates (self : EigenstateAnalysis) (psi : nat)
  : M State unit :=
  (* Multiply overlap on wavefunction *)
  overlapPsi ← MultiplyOverlap psi;
  eig ← get_Eigenstate self;
  for_each (remove_loop_body psi overlapPsi)
           (IterateBoundStates eig (BoundThreshold self)).

(** ** EigenstateAnalysis.Setup *)

(** [eigenstates.Eigenstates(conf)] (module [eigenstates]): the catalog
    built from the configuration, or the exception it raises.  The
    [pyprop.Problem] object that [Setup] also builds is not used by the
    methods below. *)
Variable Eigenstates : Conf -> result Catalog.

Definition EigenstateAnalysis_Setup : M EigenstateAnalysis unit :=
  (* Setup eigenstates/values *)
  conf ← gets Config;
  eigenstate ← lift (Eigenstates conf);
  modify (fun self => {| Config := Config self;
                         BoundThreshold := BoundThreshold self;
                         self_m := self_m self;
                         Eigenstate := Some eigenstate;
                         Logger := Logger self |}).

End Model.

End Analysis.

(* ===================================================================== *)
(** * Concrete data (IEEE binary64)                                       *)
(* ===================================================================== *)

Module Examples.

Import Eigenvalues.

(** An interpretation of the complex operations and of the reductions
    on pairs of doubles, for the concrete runs of this module: [abs] by
    the square root of the sum of the squares, [sum] and [dot] adding
    their terms in order.  numpy's own [abs], [sum] and [dot] may round
    differently; on the data of this module every product, sum and
    square root is exact (the components are small integers, and one of
    the two components of each amplitude is zero), so that the values
    below are the ones that any of them returns.  No theorem depends on
    this interpretation: they are stated for every [Cplx] and
    [Reductions]. *)
#[global] Instance pair_cplx : Cplx float (float * float) := {
  cmul x y :=
    (PrimFloat.sub (PrimFloat.mul (fst x) (fst y)) (PrimFloat.mul (snd x) (snd y)),
     PrimFloat.add (PrimFloat.mul (fst x) (snd y)) (PrimFloat.mul (snd x) (fst y)));
  cconj x := (fst x, PrimFloat.opp (snd x));
  cabs x :=
    PrimFloat.sqrt (PrimFloat.add (PrimFloat.mul (fst x) (fst x))
                                  (PrimFloat.mul (snd x) (snd x)))
}.

#[global] Instance pair_csub : CSub (float * float) := {
  csub x y := (PrimFloat.sub (fst x) (fst y), PrimFloat.sub (snd x) (snd y))
}.

Definition sum_in_order (a : list float) : float := fold_left PrimFloat.add a 0%float.

Definition dot_in_order (a : list (list (float * float))) (x : list (float * float))
  : result (list (float * float)) :=
  mapR (fun row =>
          if decide (length row = length x) then
            Ok (fold_left
                  (fun s t => (PrimFloat.add (fst s) (fst t), PrimFloat.add (snd s) (snd t)))
                  (zip_with cmul row x) (0%float, 0%float))
          else Raise ValueError)
       a.

#[global] Instance in_order : Reductions float (float * float).
Proof.
  refine {| np_sum := sum_in_order; np_dot := dot_in_order |}.
  intros a x Hall. unfold dot_in_order.
  induction Hall as [|row a Hrow Hall [d [Hd Hlen]]].
  - exists []. split; reflexivity.
  - cbn [mapR]. rewrite decide_True by exact Hrow. cbn [mbind result_bind].
    rewrite Hd. cbn [mbind result_bind]. eexists. split; [reflexivity|].
    cbn [length]. now rewrite Hlen.
Defined.

Definition conf : Config (F:=float) :=
  {| folder_name := "eigenpairs"; shift := (-0.5)%float; cfgObj := "" |}.

(** Two shift-inverted eigenvalues, the second one not converged. *)
Definition solver : PiramSolver (F:=float) (C:=float * float) :=
  {| BaseProblem_Config := conf;
     AngularRange := [{| lm_l := 0; lm_m := 0 |}];
     GetEigenvalues := [2; 4]%float;
     GetConvergenceEstimates := [-1; 1]%float;
     GetErrorEstimates := [0; 0]%float;
     GetEigenvector := [[[(1, 0)]]; [[(0, 1)]]]%float;
     GetOperatorCount := 10;
     GetRestartCount := 1;
     GetOrthogonalizationCount := 3 |}.

Definition gmres : GMRESShiftInvertSolver (F:=float) :=
  {| GetErrorEstimateList := [0]%float |}.

Definition Solve (c : Config (F:=float)) := (solver, gmres).

Definition GetRadialPostfix (c : Config (F:=float)) : list string := ["grid"].

Definition py_str (v : PyVal) : string :=
  match v with
  | PyInt z => pretty z
  | PyIntArray a => "[" +:+ String.concat " " (map pretty a) +:+ "]"
  end.

Definition normpath (s : string) : string := s.

Definition world : World (F:=float) (C:=float * float) :=
  {| fs := ∅; log := []; psi := [] |}.

(** One angular block with three energies, and two wavefunctions. *)
Definition blk : Analysis.Block (F:=float) (C:=float * float) :=
  {| Analysis.angIdx := 0;
     Analysis.curE := [1; 2; 3]%float;
     Analysis.curV := [[(1, 0)]; [(0, 0)]; [(0, 0)]]%float;
     Analysis.blk_l := 0;
     Analysis.blk_m := 0 |}.

Definition catalog (charge : Z) : Analysis.Catalog (F:=float) (C:=float * float) :=
  {| Analysis.IterateStates := fun _ => [blk];
     Analysis.IterateBoundStates := fun _ => [];
     Analysis.catalog_Z := charge |}.

Definition psiA : Analysis.Wavefunction (C:=float * float) :=
  {| Analysis.GetData := [[(2, 0)]]%float;
     Analysis.Representation_MultiplyOverlap := fun d => d |}.

Definition psiB : Analysis.Wavefunction (C:=float * float) :=
  {| Analysis.GetData := [[(0, 0)]]%float;
     Analysis.Representation_MultiplyOverlap := fun d => d |}.

Definition state : Analysis.State (F:=float) (C:=float * float) :=
  {| Analysis.heap := {[ 0 := psiA; 1 := psiB ]};
     Analysis.stdout := [];
     Analysis.logged := [] |}.

(** An analysis object after [Setup], with a [Logger] assigned. *)
Definition self : Analysis.EigenstateAnalysis (F:=float) (C:=float * float) (Conf:=unit) :=
  {| Analysis.Config := tt;
     Analysis.BoundThreshold := 0%float;
     Analysis.self_m := 0;
     Analysis.Eigenstate := Some (catalog 1);
     Analysis.Logger := true |}.

Definition FromMultipleFiles (fileList : list string)
  : result (Analysis.Catalog (F:=float) (C:=float * float)) :=
  Ok (catalog 2).

(** A solver that reports a negative convergence estimate at an index
    for which it holds no eigenvalue. *)
Definition solverShort : PiramSolver (F:=float) (C:=float * float) :=
  {| BaseProblem_Config := conf;
     AngularRange := [{| lm_l := 0; lm_m := 0 |}];
     GetEigenvalues := [2]%float;
     GetConvergenceEstimates := [1; -1]%float;
     GetErrorEstimates := [0; 0]%float;
     GetEigenvector := [[[(1, 0)]]]%float;
     GetOperatorCount := 10;
     GetRestartCount := 1;
     GetOrthogonalizationCount := 3 |}.

Definition SolveShort (c : Config (F:=float)) := (solverShort, gmres).

(** A bound block, and an analysis object whose catalog has it. *)
Definition boundBlk : Analysis.Block (F:=float) (C:=float * float) :=
  {| Analysis.angIdx := 0;
     Analysis.curE := [-0.5]%float;
     Analysis.curV := [[(1, 0)]]%float;
     Analysis.blk_l := 0;
     Analysis.blk_m := 0 |}.

Definition catalogBound : Analysis.Catalog (F:=float) (C:=float * float) :=
  {| Analysis.IterateStates := fun _ => [blk];
     Analysis.IterateBoundStates := fun _ => [boundBlk];
     Analysis.catalog_Z := 1 |}.

Definition selfBound : Analysis.EigenstateAnalysis (F:=float) (C:=float * float) (Conf:=unit) :=
  {| Analysis.Config := tt;
     Analysis.BoundThreshold := 0%float;
     Analysis.self_m := 0;
     Analysis.Eigenstate := Some catalogBound;
     Analysis.Logger := true |}.

(** A block with a single energy, after a well-shaped one. *)
Definition blkOne : Analysis.Block (F:=float) (C:=float * float) :=
  {| Analysis.angIdx := 0;
     Analysis.curE := [1]%float;
     Analysis.curV := [[(1, 0)]]%float;
     Analysis.blk_l := 1;
     Analysis.blk_m := 0 |}.

Definition catalogOne : Analysis.Catalog (F:=float) (C:=float * float) :=
  {| Analysis.IterateStates := fun _ => [blk; blkOne];
     Analysis.IterateBoundStates := fun _ => [];
     Analysis.catalog_Z := 1 |}.

Definition selfOne : Analysis.EigenstateAnalysis (F:=float) (C:=float * float) (Conf:=unit) :=
  {| Analysis.Config := tt;
     Analysis.BoundThreshold := 0%float;
     Analysis.self_m := 0;
     Analysis.Eigenstate := Some catalogOne;
     Analysis.Logger := true |}.

End Examples.

(* ===================================================================== *)
(** * Properties of the sequence helpers                                  *)
(* ===================================================================== *)

Section SequenceFacts.
Context {A : Type}.
Implicit Types xs : list A.

Lemma py_index_nat xs (i : nat) :
  py_index xs (Z.of_nat i)
  = match xs !! i with Some x => Ok x | None => Raise IndexError end.
Proof.
  unfold py_index.
  assert (Hneg : (Z.of_nat i <? 0)%Z = false) by (apply Z.ltb_ge; lia).
  rewrite Hneg, Nat2Z.id.
  destruct (xs !! i) as [x|] eqn:Hl.
  - apply lookup_lt_Some in Hl.
    assert (Hin : ((0 <=? Z.of_nat i)%Z && (Z.of_nat i <? Z.of_nat (length xs))%Z)%bool = true).
    { apply andb_true_intro; split; [apply Z.leb_le | apply Z.ltb_lt]; lia. }
    now rewrite Hin.
  - now destruct (_ && _)%bool.
Qed.

Lemma py_index_neg xs (k : nat) :
  0 < k -> k <= length xs ->
  py_index xs (- Z.of_nat k)
  = match xs !! (length xs - k) with Some x => Ok x | None => Raise IndexError end.
Proof.
  intros Hk Hle. unfold py_index.
  assert (Hneg : (- Z.of_nat k <? 0)%Z = true) by (apply Z.ltb_lt; lia).
  rewrite Hneg.
  replace (Z.of_nat (length xs) + - Z.of_nat k)%Z with (Z.of_nat (length xs - k)) by lia.
  rewrite Nat2Z.id.
  assert (Hin : ((0 <=? Z.of_nat (length xs - k))%Z
                 && (Z.of_nat (length xs - k) <? Z.of_nat (length xs))%Z)%bool = true).
  { apply andb_true_intro; split; [apply Z.leb_le | apply Z.ltb_lt]; lia. }
  now rewrite Hin.
Qed.

Lemma py_index_neg_short xs (k : nat) :
  length xs < k -> py_index xs (- Z.of_nat k) = Raise IndexError.
Proof.
  intros Hlt. unfold py_index.
  assert (Hneg : (- Z.of_nat k <? 0)%Z = true) by (apply Z.ltb_lt; lia).
  rewrite Hneg.
  assert (Hout : (0 <=? Z.of_nat (length xs) + - Z.of_nat k)%Z = false)
    by (apply Z.leb_gt; lia).
  now rewrite Hout.
Qed.

Lemma lookup_all_but_last xs i :
  i + 1 < length xs -> all_but_last xs !! i = xs !! i.
Proof. intros Hi. unfold all_but_last. apply lookup_take_lt. lia. Qed.

Lemma length_all_but_last xs : length (all_but_last xs) = length xs - 1.
Proof. unfold all_but_last. rewrite length_take. lia. Qed.

Lemma lookup_from_second xs i : from_second xs !! i = xs !! S i.
Proof. unfold from_second. now rewrite lookup_drop. Qed.

Lemma length_from_second xs : length (from_second xs) = length xs - 1.
Proof. unfold from_second. now rewrite length_drop. Qed.

Lemma mapR_total {B} (f : A -> result B) (g : A -> B) xs :
  (forall x, x ∈ xs -> f x = Ok (g x)) -> mapR f xs = Ok (map g xs).
Proof.
  induction xs as [|x xs IH]; intros Hf; simpl; [reflexivity|].
  rewrite (Hf x) by apply list_elem_of_here. simpl.
  rewrite IH; [reflexivity|]. intros y Hy. apply Hf. now apply list_elem_of_further.
Qed.

Lemma mapR_length {B} (f : A -> result B) xs ys :
  mapR f xs = Ok ys -> length ys = length xs.
Proof.
  revert ys. induction xs as [|x xs IH]; intros ys; simpl.
  - now intros [= <-].
  - destruct (f x) as [y|]; simpl; [|discriminate].
    destruct (mapR f xs) as [ys'|]; simpl; [|discriminate].
    intros [= <-]. simpl. now rewrite (IH ys').
Qed.

Lemma mapR_lookup {B} (f : A -> result B) xs ys i x :
  mapR f xs = Ok ys -> xs !! i = Some x ->
  exists y, ys !! i = Some y /\ f x = Ok y.
Proof.
  revert ys i. induction xs as [|x0 xs IH]; intros ys i; simpl; [now intros _ ?|].
  destruct (f x0) as [y0|] eqn:Hy0; simpl; [|discriminate].
  destruct (mapR f xs) as [ys'|]; simpl; [|discriminate].
  intros [= <-]. destruct i as [|i]; simpl.
  - intros [= <-]. now exists y0.
  - now apply IH.
Qed.

End SequenceFacts.

(* ===================================================================== *)
(** * Properties of the numpy functions                                   *)
(* ===================================================================== *)

Section NumpyFacts.
Context {F : Type} {Ar : Arith F}.
Implicit Types a xp fp : list F.

Lemma length_diff a : length (diff a) = length a - 1.
Proof.
  induction a as [|x [|y rest] IH]; simpl in *; try reflexivity.
  rewrite IH. lia.
Qed.

Lemma lookup_diff a i x y :
  a !! i = Some x -> a !! S i = Some y -> diff a !! i = Some (fsub y x).
Proof.
  revert i. induction a as [|x0 [|y0 rest] IH]; intros i.
  - discriminate.
  - destruct i; intros ? ?; discriminate.
  - destruct i as [|i].
    + simpl. now intros [= ->] [= ->].
    + intros Hx Hy. change (diff (y0 :: rest) !! i = Some (fsub y x)).
      now apply IH.
Qed.

Lemma length_zeros n : length (zeros n) = n.
Proof. apply length_replicate. Qed.

Lemma lookup_zeros n i : i < n -> zeros n !! i = Some (of_int 0).
Proof. intros Hi. unfold zeros. now apply lookup_replicate_2. Qed.

(** Broadcasting succeeds on equal lengths and when the left operand has
    one element; the result has the length of the right operand. *)
Lemma broadcast_ok op a b :
  length a = length b \/ length a = 1 ->
  exists c, broadcast op a b = Ok c /\ length c = length b.
Proof.
  intros Hlen. unfold broadcast. destruct (decide (length a = length b)) as [Heq|Hne].
  - eexists; split; [reflexivity|]. rewrite length_zip_with. lia.
  - destruct Hlen as [?|H1]; [contradiction|].
    destruct a as [|x [|? ?]]; try discriminate.
    eexists; split; [reflexivity|]. apply length_map.
Qed.

Lemma interp_segment_ok x xp fp :
  length xp = length fp -> xp <> [] -> exists y, interp_segment x xp fp = Ok y.
Proof.
  revert fp. induction xp as [|a xp' IH]; intros fp Hlen Hne; [contradiction|].
  destruct fp as [|fa fp']; [discriminate|].
  destruct xp' as [|b xp'']; destruct fp' as [|fb fp'']; try discriminate.
  - simpl. eexists; reflexivity.
  - simpl. destruct (fltb x b); [eexists; reflexivity|].
    apply (IH (fb :: fp'')); [simpl in *; lia | discriminate].
Qed.

Lemma interp1_ok xp fp left right x :
  length xp = length fp -> xp <> [] -> exists y, interp1 xp fp left right x = Ok y.
Proof.
  intros Hlen Hne. unfold interp1.
  destruct xp as [|x0 xp']; [contradiction|].
  change 0%Z with (Z.of_nat 0). rewrite py_index_nat. cbn [lookup list_lookup mbind result_bind].
  change (-1)%Z with (- Z.of_nat 1)%Z.
  rewrite py_index_neg by (simpl; lia).
  destruct (lookup_lt_is_Some_2 (x0 :: xp') (length (x0 :: xp') - 1)) as [xn ->];
    [simpl; lia|].
  cbn [mbind result_bind]. destruct (fltb x x0); [now eexists|].
  destruct (fltb xn x); [now eexists|].
  now apply interp_segment_ok.
Qed.

(** Outside the sample range [interp1] answers [left] or [right]. *)
Lemma interp1_below xp fp left right x x0 :
  xp !! 0 = Some x0 -> fltb x x0 = true -> interp1 xp fp left right x = Ok left.
Proof.
  intros H0 Hlt. unfold interp1.
  change 0%Z with (Z.of_nat 0). rewrite py_index_nat, H0. cbn [mbind result_bind].
  destruct xp as [|x1 xp']; [discriminate|].
  change (-1)%Z with (- Z.of_nat 1)%Z.
  rewrite py_index_neg by (simpl; lia).
  destruct (lookup_lt_is_Some_2 (x1 :: xp') (length (x1 :: xp') - 1)) as [xn ->];
    [simpl; lia|].
  cbn [mbind result_bind]. now rewrite Hlt.
Qed.

Lemma interp1_above xp fp left right x xn :
  xp !! (length xp - 1) = Some xn -> fltb xn x = true ->
  left = right -> interp1 xp fp left right x = Ok right.
Proof.
  intros Hn Hlt ->. unfold interp1.
  destruct xp as [|x0 xp']; [discriminate|].
  change 0%Z with (Z.of_nat 0). rewrite py_index_nat. cbn [lookup list_lookup mbind result_bind].
  change (-1)%Z with (- Z.of_nat 1)%Z.
  rewrite py_index_neg by (simpl; lia).
  rewrite Hn. cbn [mbind result_bind]. rewrite Hlt. now destruct (fltb x x0).
Qed.

Lemma interp_ok x xp fp left right :
  length xp = length fp -> xp <> [] ->
  exists ys, interp x xp fp left right = Ok ys /\ length ys = length x.
Proof.
  intros Hlen Hne. unfold interp. rewrite decide_True by assumption.
  destruct xp as [|x0 xp'] eqn:Hxp; [contradiction|]. rewrite <- Hxp in *.
  assert (Hall : forall x1, exists y, interp1 xp fp left right x1 = Ok y)
    by (intros; now apply interp1_ok).
  clear Hxp. induction x as [|x1 xs IH]; simpl.
  - now eexists.
  - destruct (Hall x1) as [y ->]. destruct IH as (ys & -> & Hl). simpl.
    eexists; split; [reflexivity|]. simpl. now rewrite Hl.
Qed.

Lemma interp_lookup x xp fp left right ys i xi :
  interp x xp fp left right = Ok ys -> x !! i = Some xi ->
  exists y, ys !! i = Some y /\ interp1 xp fp left right xi = Ok y.
Proof.
  unfold interp. destruct (decide _); [|discriminate].
  destruct xp; [discriminate|]. apply mapR_lookup.
Qed.

End NumpyFacts.

(* ===================================================================== *)
(** * The density of states                                               *)
(* ===================================================================== *)

Section DensityFacts.
Context {F : Type} {Ar : Arith F} {Sq : Sqrt F}.
Implicit Types curE : list F.

Import Analysis.

(** The four indexed reads of the density computations. *)
Lemma edge_reads curE :
  2 <= length curE ->
  exists e0 e1 en2 en1,
    curE !! 0 = Some e0 /\ curE !! 1 = Some e1 /\
    curE !! (length curE - 2) = Some en2 /\ curE !! (length curE - 1) = Some en1 /\
    py_index curE 0 = Ok e0 /\ py_index curE 1 = Ok e1 /\
    py_index curE (-2) = Ok en2 /\ py_index curE (-1) = Ok en1.
Proof.
  intros Hlen.
  destruct (lookup_lt_is_Some_2 curE 0) as [e0 H0]; [lia|].
  destruct (lookup_lt_is_Some_2 curE 1) as [e1 H1]; [lia|].
  destruct (lookup_lt_is_Some_2 curE (length curE - 2)) as [en2 H2]; [lia|].
  destruct (lookup_lt_is_Some_2 curE (length curE - 1)) as [en1 H3]; [lia|].
  exists e0, e1, en2, en1. repeat split; try assumption.
  - change 0%Z with (Z.of_nat 0). now rewrite py_index_nat, H0.
  - change 1%Z with (Z.of_nat 1). now rewrite py_index_nat, H1.
  - change (-2)%Z with (- Z.of_nat 2)%Z. rewrite py_index_neg by lia. now rewrite H2.
  - change (-1)%Z with (- Z.of_nat 1)%Z. rewrite py_index_neg by lia. now rewrite H3.
Qed.

Lemma second_read_short curE : length curE < 2 -> py_index curE 1 = Raise IndexError.
Proof.
  intros Hlen. change 1%Z with (Z.of_nat 1). rewrite py_index_nat.
  now rewrite lookup_ge_None_2 by lia.
Qed.

Lemma density_energy_short curE :
  length curE < 2 -> density_energy curE = Raise IndexError.
Proof. intros Hlen. unfold density_energy. now rewrite second_read_short. Qed.

Lemma density_angular_short curE :
  length curE < 2 -> density_angular curE = Raise IndexError.
Proof. intros Hlen. unfold density_angular. now rewrite second_read_short. Qed.

(** The spacing lists in closed form. *)
Local Abbreviation energy_interior curE :=
  (map (fun s => fdiv s (of_int 2))
       (zip_with fadd (diff (all_but_last curE)) (diff (from_second curE)))).

Lemma density_energy_long curE e0 e1 en2 en1 :
  py_index curE 0 = Ok e0 -> py_index curE 1 = Ok e1 ->
  py_index curE (-2) = Ok en2 -> py_index curE (-1) = Ok en1 ->
  density_energy curE
  = Ok (map (fun s => fdiv (of_int 1) s)
            ([fdiv (fsub e1 e0) (of_int 2)] ++ energy_interior curE
             ++ [fdiv (fsub en1 en2) (of_int 2)])).
Proof. intros H0 H1 H2 H3. unfold density_energy. now rewrite H1, H0, H3, H2. Qed.

Lemma density_angular_long curE e0 e1 en2 en1 :
  py_index curE 0 = Ok e0 -> py_index curE 1 = Ok e1 ->
  py_index curE (-2) = Ok en2 -> py_index curE (-1) = Ok en1 ->
  density_angular curE
  = Ok (map (fun s => fdiv (of_int 1) (fsqrt s))
            ([fsub e1 e0] ++ from_second (diff curE) ++ [fsub en1 en2])).
Proof. intros H0 H1 H2 H3. unfold density_angular. now rewrite H1, H0, H3, H2. Qed.

Lemma length_energy_interior curE : length (energy_interior curE) = length curE - 2.
Proof.
  rewrite length_map, length_zip_with, !length_diff,
    length_all_but_last, length_from_second. lia.
Qed.

Lemma lookup_energy_interior curE i a b c :
  curE !! i = Some a -> curE !! S i = Some b -> curE !! S (S i) = Some c ->
  energy_interior curE !! i
  = Some (fdiv (fadd (fsub b a) (fsub c b)) (of_int 2)).
Proof.
  intros Ha Hb Hc. pose proof (lookup_lt_Some _ _ _ Hc) as Hlt.
  rewrite list_lookup_fmap, lookup_zip_with.
  rewrite (lookup_diff (all_but_last curE) i a b),
    (lookup_diff (from_second curE) i b c); [reflexivity| | | |].
  - now rewrite lookup_from_second.
  - now rewrite lookup_from_second.
  - rewrite lookup_all_but_last; [assumption | lia].
  - rewrite lookup_all_but_last; [assumption | lia].
Qed.

Lemma lookup_angular_interior curE i b c :
  curE !! S i = Some b -> curE !! S (S i) = Some c ->
  from_second (diff curE) !! i = Some (fsub c b).
Proof. intros Hb Hc. rewrite lookup_from_second. now apply lookup_diff. Qed.

(** Positions in [[left] ++ interior ++ [right]]. *)
Lemma lookup_framed {A} (x y : A) (mid : list A) :
  ([x] ++ mid ++ [y]) !! 0 = Some x
  /\ (forall i, i < length mid -> ([x] ++ mid ++ [y]) !! S i = mid !! i)
  /\ ([x] ++ mid ++ [y]) !! S (length mid) = Some y.
Proof.
  repeat split.
  - intros i Hi. simpl. now apply lookup_app_l.
  - simpl. rewrite lookup_app_r by lia. now rewrite Nat.sub_diag.
Qed.

(** The density of states of [CalculateEnergyDistribution] in closed
    form: the reciprocal of half the first spacing, of the average of
    the two neighbouring spacings, and of half the last spacing. *)
Lemma density_energy_formula curE :
  2 <= length curE ->
  exists density,
    density_energy curE = Ok density /\
    length density = length curE /\
    (forall e0 e1, curE !! 0 = Some e0 -> curE !! 1 = Some e1 ->
       density !! 0 = Some (fdiv (of_int 1) (fdiv (fsub e1 e0) (of_int 2)))) /\
    (forall i a b c,
       curE !! i = Some a -> curE !! S i = Some b -> curE !! S (S i) = Some c ->
       density !! S i
       = Some (fdiv (of_int 1) (fdiv (fadd (fsub b a) (fsub c b)) (of_int 2)))) /\
    (forall a b,
       curE !! (length curE - 2) = Some a -> curE !! (length curE - 1) = Some b ->
       density !! (length curE - 1)
       = Some (fdiv (of_int 1) (fdiv (fsub b a) (of_int 2)))).
Proof.
  intros Hlen.
  destruct (edge_reads curE Hlen)
    as (e0 & e1 & en2 & en1 & L0 & L1 & L2 & L3 & P0 & P1 & P2 & P3).
  pose proof (density_energy_long curE e0 e1 en2 en1 P0 P1 P2 P3) as Hd.
  eexists. split; [exact Hd|].
  match goal with |- context [[?x] ++ ?mid ++ [?y]] =>
    destruct (lookup_framed x y mid) as (Hfirst & Hmid & Hlast);
    assert (Hmidlen : length mid = length curE - 2)
      by apply length_energy_interior
  end.
  split; [|split; [|split]].
  - rewrite length_map, !length_app, Hmidlen. simpl. lia.
  - intros a b Ha Hb. rewrite L0 in Ha. rewrite L1 in Hb.
    injection Ha as <-. injection Hb as <-.
    now rewrite list_lookup_fmap, Hfirst.
  - intros i a b c Ha Hb Hc. pose proof (lookup_lt_Some _ _ _ Hc).
    rewrite list_lookup_fmap, Hmid by lia.
    now rewrite (lookup_energy_interior curE i a b c).
  - intros a b Ha Hb. rewrite L2 in Ha. rewrite L3 in Hb.
    injection Ha as <-. injection Hb as <-.
    replace (length curE - 1) with (S (length curE - 2)) by lia.
    rewrite <- Hmidlen. now rewrite list_lookup_fmap, Hlast.
Qed.

End DensityFacts.

Section DensityClaims.
Context {F : Type} {Ar : Arith F} {Sq : Sqrt F}.
Implicit Types curE : list F.

Import Analysis.

(** C3, as the code has it.  In [CalculateAngularDistribution] the
    weight is the reciprocal of the square root of a spacing, and the
    spacing is the full first spacing at the first point, the full last
    spacing at the last point, and at an interior point the forward
    difference to the next energy. *)
Theorem angular_density_of_states curE :
  2 <= length curE ->
  exists density,
    density_angular curE = Ok density /\
    length density = length curE /\
    (forall e0 e1, curE !! 0 = Some e0 -> curE !! 1 = Some e1 ->
       density !! 0 = Some (fdiv (of_int 1) (fsqrt (fsub e1 e0)))) /\
    (forall i b c,
       curE !! S i = Some b -> curE !! S (S i) = Some c ->
       density !! S i = Some (fdiv (of_int 1) (fsqrt (fsub c b)))) /\
    (forall a b,
       curE !! (length curE - 2) = Some a -> curE !! (length curE - 1) = Some b ->
       density !! (length curE - 1) = Some (fdiv (of_int 1) (fsqrt (fsub b a)))).
Proof.
  intros Hlen.
  destruct (edge_reads curE Hlen)
    as (e0 & e1 & en2 & en1 & L0 & L1 & L2 & L3 & P0 & P1 & P2 & P3).
  pose proof (density_angular_long curE e0 e1 en2 en1 P0 P1 P2 P3) as Hd.
  eexists. split; [exact Hd|].
  destruct (lookup_framed (fsub e1 e0) (fsub en1 en2) (from_second (diff curE)))
    as (Hfirst & Hmid & Hlast).
  assert (Hmidlen : length (from_second (diff curE)) = length curE - 2)
    by (rewrite length_from_second, length_diff; lia).
  split; [|split; [|split]].
  - rewrite length_map, !length_app, Hmidlen. simpl. lia.
  - intros a b Ha Hb. rewrite L0 in Ha. rewrite L1 in Hb.
    injection Ha as <-. injection Hb as <-.
    now rewrite list_lookup_fmap, Hfirst.
  - intros i b c Hb Hc. pose proof (lookup_lt_Some _ _ _ Hc).
    rewrite list_lookup_fmap, Hmid by lia.
    now rewrite (lookup_angular_interior curE i b c).
  - intros a b Ha Hb. rewrite L2 in Ha. rewrite L3 in Hb.
    injection Ha as <-. injection Hb as <-.
    replace (length curE - 1) with (S (length curE - 2)) by lia.
    rewrite <- Hmidlen. now rewrite list_lookup_fmap, Hlast.
Qed.

(** C10.  Both density computations read the entries at indices [1],
    [0], [-1] and [-2] of the block's energy list.  With at least two
    energies every read is in bounds and both computations return; with
    fewer than two, both raise [IndexError], and so does the block's
    contribution to the energy distribution. *)
Theorem density_index_bounds :
  (forall curE, 2 <= length curE ->
     (exists e1 e0 en1 en2,
        py_index curE 1 = Ok e1 /\ py_index curE 0 = Ok e0 /\
        py_index curE (-1) = Ok en1 /\ py_index curE (-2) = Ok en2) /\
     (exists density, density_energy curE = Ok density) /\
     (exists density, density_angular curE = Ok density)) /\
  (forall curE, length curE < 2 ->
     density_energy curE = Raise IndexError /\
     density_angular curE = Raise IndexError /\
     (forall E proj, energy_block E curE proj = Raise IndexError)).
Proof.
  split.
  - intros curE Hlen.
    destruct (edge_reads curE Hlen)
      as (e0 & e1 & en2 & en1 & _ & _ & _ & _ & P0 & P1 & P2 & P3).
    split; [now exists e1, e0, en1, en2|]. split.
    + eexists. now apply (density_energy_long curE e0 e1 en2 en1).
    + eexists. now apply (density_angular_long curE e0 e1 en2 en1).
  - intros curE Hlen. split; [now apply density_energy_short|].
    split; [now apply density_angular_short|].
    intros E proj. unfold energy_block. now rewrite density_energy_short.
Qed.

End DensityClaims.

Lemma angular_density_of_states_witness :
  exists density,
    Analysis.density_angular [0; 4; 8]%float = Ok density /\ length density = 3.
Proof.
  destruct (angular_density_of_states [0; 4; 8]%float) as (d & Hd & Hl & _).
  - simpl. lia.
  - exists d. split; [exact Hd | exact Hl].
Defined.

Lemma density_index_bounds_witness :
  (exists density, Analysis.density_energy [0; 4]%float = Ok density)
  /\ Analysis.density_angular [4]%float = Raise IndexError.
Proof.
  destruct (@density_index_bounds float _ _) as [Hlong Hshort]. split.
  - destruct (Hlong [0; 4]%float) as (_ & Hd & _); [simpl; lia | exact Hd].
  - destruct (Hshort [4]%float) as (_ & Ha & _); [simpl; lia | exact Ha].
Defined.

(** C3, as stated, fails: on the energies [0, 4, 8] the energy
    distribution weights by [0.5, 0.25, 0.5] and the angular distribution
    by [0.5, 0.5, 0.5]; the squares of the latter, [0.25, 0.25, 0.25], are
    not the former either. *)
Lemma angular_density_differs :
  Analysis.density_energy [0; 4; 8]%float = Ok [0.5; 0.25; 0.5]%float
  /\ Analysis.density_angular [0; 4; 8]%float = Ok [0.5; 0.5; 0.5]%float
  /\ Analysis.density_angular [0; 4; 8]%float <> Analysis.density_energy [0; 4; 8]%float
  /\ ~ (forall curE : list float,
          Analysis.density_angular curE = Analysis.density_energy curE)
  /\ ~ (forall curE : list float,
          (fun d => map (fun w => PrimFloat.mul w w) d) <$> Analysis.density_angular curE
          = Analysis.density_energy curE).
Proof.
  assert (He : Analysis.density_energy [0; 4; 8]%float = Ok [0.5; 0.25; 0.5]%float)
    by (vm_compute; reflexivity).
  assert (Ha : Analysis.density_angular [0; 4; 8]%float = Ok [0.5; 0.5; 0.5]%float)
    by (vm_compute; reflexivity).
  assert (Hne : Analysis.density_angular [0; 4; 8]%float
                <> Analysis.density_energy [0; 4; 8]%float).
  { rewrite He, Ha. intros Heq.
    apply (f_equal (fun r => match r with
                             | Ok [_; w; _] => PrimFloat.eqb w 0.5
                             | _ => false
                             end)) in Heq.
    vm_compute in Heq. discriminate. }
  repeat split; try assumption.
  - intros Hall. exact (Hne (Hall _)).
  - intros Hall. specialize (Hall [0; 4; 8]%float). rewrite He, Ha in Hall.
    apply (f_equal (fun r => match r with
                             | Ok [w; _; _] => PrimFloat.eqb w 0.5
                             | _ => false
                             end)) in Hall.
    vm_compute in Hall. discriminate.
Qed.

(* ===================================================================== *)
(** * The eigenvalue solver front end                                     *)
(* ===================================================================== *)

Section ConvergedEigenvalues.
Context {F : Type} {Ar : Arith F}.
Implicit Types ev est : list F.

Local Abbreviation negative := (fun p : F * F => fltb (snd p) (of_int 0) = true).

(** [ev[where(est < 0)[0]]] selects, in order, the entries of [ev]
    whose estimate is negative. *)
Lemma take_where_negative pre ev est :
  length est <= length ev ->
  take_indices (pre ++ ev) (where_negative_from (length pre) est)
  = Ok (map fst (filter negative (zip ev est))).
Proof.
  revert pre ev. induction est as [|e est IH]; intros pre ev Hlen.
  - now destruct ev.
  - destruct ev as [|x ev]; [simpl in Hlen; lia|].
    assert (Hrest : length est <= length ev) by (simpl in Hlen; lia).
    specialize (IH (pre ++ [x]) ev Hrest).
    rewrite <- app_assoc, length_app, Nat.add_1_r in IH. simpl in IH.
    change (zip (x :: ev) (e :: est)) with ((x, e) :: zip ev est).
    simpl where_negative_from. destruct (fltb e (of_int 0)) eqn:He.
    + rewrite filter_cons_True by exact He.
      unfold take_indices in *. simpl mapR.
      rewrite py_index_nat, list_lookup_middle by reflexivity.
      cbn [mbind result_bind]. now rewrite IH.
    + rewrite filter_cons_False by (simpl; congruence). exact IH.
Qed.

Lemma where_negative_take ev est :
  length est <= length ev ->
  take_indices ev (where_negative est)
  = Ok (map fst (filter negative (zip ev est))).
Proof. intros Hlen. exact (take_where_negative [] ev est Hlen). Qed.

Lemma length_filter_negative ev est :
  length est <= length ev ->
  length (filter negative (zip ev est))
  = length (filter (fun e => fltb e (of_int 0) = true) est).
Proof.
  revert ev. induction est as [|e est IH]; intros ev Hlen.
  - now destruct ev.
  - destruct ev as [|x ev]; [simpl in Hlen; lia|].
    change (zip (x :: ev) (e :: est)) with ((x, e) :: zip ev est).
    rewrite !filter_cons. simpl. destruct (decide (fltb e (of_int 0) = true)); simpl;
      rewrite IH by (simpl in Hlen; lia); reflexivity.
Qed.

Lemma lookup_zip_pair ev est i (p : F * F) :
  zip ev est !! i = Some p <-> ev !! i = Some (fst p) /\ est !! i = Some (snd p).
Proof.
  rewrite lookup_zip_with_Some. split.
  - intros (x & y & -> & Hx & Hy). now split.
  - intros [Hx Hy]. exists (fst p), (snd p). now destruct p.
Qed.

End ConvergedEigenvalues.

Section FindEigenvalues.
Context {F C : Type} {Ar : Arith F}.

Import Eigenvalues.

Variable Solve :
  Config (F:=F) -> PiramSolver (F:=F) (C:=C) * GMRESShiftInvertSolver (F:=F).

(** C1.  [FindEigenvaluesInverseIterationsPiram] returns, in the
    solver's order, the eigenvalues whose convergence estimate is
    negative, each converted by [1/x + shift]: every returned value comes
    from an index with a negative estimate, every such index is
    returned, and there are as many returned values as negative
    estimates. *)
Theorem find_returns_converged_eigenvalues conf solver shiftInvertSolver :
  Solve conf = (solver, shiftInvertSolver) ->
  length (GetConvergenceEstimates solver) <= length (GetEigenvalues solver) ->
  let ev := GetEigenvalues solver in
  let est := GetConvergenceEstimates solver in
  let convert := fun x => fadd (fdiv (of_int 1) x) (shift conf) in
  exists eigenvalues,
    FindEigenvaluesInverseIterationsPiram Solve conf
    = Ok (solver, shiftInvertSolver, eigenvalues) /\
    eigenvalues
    = map convert
        (map fst (filter (fun p => fltb (snd p) (of_int 0) = true) (zip ev est))) /\
    length eigenvalues = length (filter (fun e => fltb e (of_int 0) = true) est) /\
    (forall k y, eigenvalues !! k = Some y ->
       exists i x e, ev !! i = Some x /\ est !! i = Some e /\
                     fltb e (of_int 0) = true /\ y = convert x) /\
    (forall i x e, ev !! i = Some x -> est !! i = Some e ->
       fltb e (of_int 0) = true ->
       exists k, eigenvalues !! k = Some (convert x)).
Proof.
  intros HS Hlen ev est convert. eexists. split; [|split; [reflexivity|]].
  - unfold FindEigenvaluesInverseIterationsPiram. rewrite HS.
    rewrite where_negative_take by exact Hlen. reflexivity.
  - split; [|split].
    + rewrite !length_map. now apply length_filter_negative.
    + intros k y Hk.
      apply list_lookup_fmap_Some in Hk as (x & -> & Hk).
      apply list_lookup_fmap_Some in Hk as (p & -> & Hk).
      apply list_elem_of_lookup_2, list_elem_of_filter in Hk as [Hneg Hin].
      apply list_elem_of_lookup_1 in Hin as [i Hi].
      apply lookup_zip_pair in Hi as [Hx He].
      now exists i, (fst p), (snd p).
    + intros i x e Hx He Hneg.
      assert (Hin : (x, e) ∈ filter (fun p : F * F => fltb (snd p) (of_int 0) = true)
                                    (zip ev est)).
      { apply list_elem_of_filter. split; [exact Hneg|].
        apply (list_elem_of_lookup_2 _ i). now apply lookup_zip_pair. }
      apply list_elem_of_lookup_1 in Hin as [k Hk]. exists k.
      rewrite !list_lookup_fmap, Hk. reflexivity.
Qed.

End FindEigenvalues.

Lemma find_returns_converged_eigenvalues_witness :
  exists eigenvalues,
    Eigenvalues.FindEigenvaluesInverseIterationsPiram Examples.Solve Examples.conf
    = Ok (Examples.solver, Examples.gmres, eigenvalues) /\
    eigenvalues = [0%float].
Proof.
  destruct (find_returns_converged_eigenvalues Examples.Solve Examples.conf
              Examples.solver Examples.gmres)
    as (eigenvalues & Hrun & Heq & _); [reflexivity | simpl; lia |].
  exists eigenvalues. split; [exact Hrun|]. rewrite Heq. vm_compute. reflexivity.
Defined.

(* ===================================================================== *)
(** * The eigenpair store                                                 *)
(* ===================================================================== *)

Import Eigenvalues.

Lemma has_slash_digit d s : has_slash (String (pretty_N_char d) s) = has_slash s.
Proof. unfold pretty_N_char. repeat case_match; reflexivity. Qed.

Lemma has_slash_pretty_N_go x s :
  has_slash s = false -> has_slash (pretty_N_go x s) = false.
Proof.
  revert s. induction (N.lt_wf_0 x) as [x _ IH]. intros s Hs.
  destruct (decide (x = 0)%N) as [->|Hx].
  - now rewrite pretty_N_go_0.
  - rewrite pretty_N_go_step by lia. apply IH.
    + apply N.div_lt; lia.
    + now rewrite has_slash_digit.
Qed.

Lemma has_slash_pretty_nat (i : nat) : has_slash (pretty i) = false.
Proof.
  unfold pretty, pretty_nat, pretty, pretty_N. case_decide; [reflexivity|].
  now apply has_slash_pretty_N_go.
Qed.

Lemma dirname_dataset_path i : dirname (GetEigenvectorDatasetPath i) = GetEigenvectorGroupName.
Proof.
  unfold GetEigenvectorDatasetPath, GetEigenvectorGroupName, GetEigenvectorDatasetName.
  cbv beta iota delta [String.append]; cbn -[pretty]. rewrite has_slash_pretty_nat. reflexivity.
Qed.

Lemma dataset_path_inj i j : GetEigenvectorDatasetPath i = GetEigenvectorDatasetPath j -> i = j.
Proof.
  unfold GetEigenvectorDatasetPath, GetEigenvectorGroupName, GetEigenvectorDatasetName.
  cbv beta iota delta [String.append]; cbn -[pretty]. intros Heq. injection Heq as Heq. now apply (inj pretty).
Qed.

Lemma bind_run {S A B} (c : M S A) (k : A -> M S B) s s' a :
  c s = (s', Ok a) -> (c ≫= k) s = k a s'.
Proof. intros Hc. unfold mbind, M_bind. now rewrite Hc. Qed.

Ltac path_simpl :=
  unfold GetEigenvectorDatasetPath, GetEigenvectorGroupName, GetEigenvectorDatasetName in *;
  cbv beta iota delta [String.append] in *; cbn -[pretty] in *.

Section Store.
Context {F C : Type} {Ar : Arith F}.
Variable solver : PiramSolver (F:=F) (C:=C).
Variable filename : string.

Local Abbreviation store_body :=
  (fun i : nat => _ ← SetEigenvector solver i;
                  SaveWavefunctionHDF filename (GetEigenvectorDatasetPath i)).

Lemma store_eigenvectors_run n : forall k (w : World),
  k + n <= length (GetEigenvector solver) ->
  exists w',
    for_each store_body (seq k n) w = (w', Ok tt) /\
    log w' = log w /\
    (0 < n -> is_Some (fs w' !! filename) /\
              nodes (default empty_file (fs w' !! filename)) !! GetEigenvectorGroupName
              = Some Group) /\
    (forall i v, k <= i < k + n -> GetEigenvector solver !! i = Some v ->
       nodes (default empty_file (fs w' !! filename)) !! GetEigenvectorDatasetPath i
       = Some (WavefunctionNode v)) /\
    (forall p, (forall i, k <= i < k + n -> p <> GetEigenvectorDatasetPath i) ->
       p <> GetEigenvectorGroupName ->
       nodes (default empty_file (fs w' !! filename)) !! p
       = nodes (default empty_file (fs w !! filename)) !! p) /\
    attrs (default empty_file (fs w' !! filename))
    = attrs (default empty_file (fs w !! filename)).
Proof.
  induction n as [|n IH]; intros k w Hlen.
  - exists w. repeat split; try reflexivity; try lia.
  - destruct (lookup_lt_is_Some_2 (GetEigenvector solver) k) as [vk Hvk]; [lia|].
    set (f0 := default empty_file (fs w !! filename)).
    set (f1 := set_node (GetEigenvectorDatasetPath k) (WavefunctionNode vk)
                 (set_node GetEigenvectorGroupName Group f0)).
    set (w1 := set_fs <[filename := f1]> (set_psi vk w)).
    assert (Hstep : store_body k w = (w1, Ok tt)).
    { unfold mbind, M_bind, SetEigenvector, SaveWavefunctionHDF. rewrite Hvk.
      rewrite dirname_dataset_path. reflexivity. }
    destruct (IH (S k) w1) as (w' & Hrun & Hlog & Hgrp & Hvec & Hother & Hattr); [lia|].
    assert (Hf1 : default empty_file (fs w1 !! filename) = f1).
    { unfold w1. cbn [fs set_fs set_psi]. now rewrite lookup_insert_eq. }
    rewrite Hf1 in *.
    exists w'. split; [|split; [|split; [|split; [|split]]]].
    + change (seq k (S n)) with (k :: seq (S k) n). simpl for_each.
      now rewrite (bind_run _ _ _ _ _ Hstep).
    + rewrite Hlog. reflexivity.
    + intros _. destruct n as [|n].
      * injection Hrun as <-. rewrite Hf1. split.
        -- unfold w1. cbn [fs set_fs set_psi]. rewrite lookup_insert_eq. now eexists.
        -- unfold f1. cbn [nodes set_node].
           rewrite lookup_insert_ne by (path_simpl; discriminate).
           now rewrite lookup_insert_eq.
      * apply Hgrp. lia.
    + intros i v Hi Hv. destruct (decide (i = k)) as [->|Hne].
      * rewrite Hother.
        -- unfold f1. cbn [nodes set_node]. rewrite lookup_insert_eq. congruence.
        -- intros j Hj Heq. apply dataset_path_inj in Heq. lia.
        -- path_simpl; discriminate.
      * apply Hvec; [lia | exact Hv].
    + intros p Hp Hg. rewrite Hother.
      * unfold f1. cbn [nodes set_node].
        rewrite !lookup_insert_ne; [reflexivity | congruence |].
        intros Heq. apply (Hp k); [lia | now symmetry].
      * intros i Hi. apply Hp. lia.
      * exact Hg.
    + rewrite Hattr. reflexivity.
Qed.
End Store.

Ltac goal_path_simpl :=
  unfold GetEigenvectorDatasetPath, GetEigenvectorGroupName, GetEigenvectorDatasetName;
  cbv beta iota delta [String.append]; cbn -[pretty].

Section Ops.
Context {F C : Type} {Ar : Arith F}.
Implicit Types w : World (F:=F) (C:=C).

Lemma fs_insert_eq w fn f : fs (set_fs <[fn := f]> w) !! fn = Some f.
Proof. cbn [fs set_fs]. apply lookup_insert_eq. Qed.

Lemma RemoveExistingDataset_run fn p w f :
  fs w !! fn = Some f ->
  RemoveExistingDataset fn p w = (set_fs <[fn := del_node p f]> w, Ok tt).
Proof.
  intros Hf. unfold RemoveExistingDataset, modify, set_fs. now rewrite Hf.
Qed.

Lemma openFile_run fn w f : fs w !! fn = Some f -> openFile fn w = (w, Ok fn).
Proof. intros Hf. unfold openFile. now rewrite Hf. Qed.

Lemma getNode_run fn p w f n :
  fs w !! fn = Some f -> nodes f !! p = Some n -> getNode fn p w = (w, Ok n).
Proof. intros Hf Hn. unfold getNode. now rewrite Hf, Hn. Qed.

Lemma createArray_run fn g name a w f :
  fs w !! fn = Some f -> nodes f !! (g +:+ "/" +:+ name) = None ->
  createArray fn g name a w
  = (set_fs <[fn := set_node (g +:+ "/" +:+ name) (ArrayNode a) f]> w, Ok tt).
Proof. intros Hf Hn. unfold createArray. now rewrite Hf, Hn. Qed.

Lemma setAttr_run fn name a w f :
  fs w !! fn = Some f ->
  setAttr fn name a w = (set_fs <[fn := set_attr name a f]> w, Ok tt).
Proof. intros Hf. unfold setAttr. now rewrite Hf. Qed.

Lemma set_fs_insert_twice w fn f f' :
  set_fs <[fn := f']> (set_fs <[fn := f]> w) = set_fs <[fn := f']> w.
Proof. unfold set_fs. cbn [fs log psi]. now rewrite insert_insert_eq. Qed.

Lemma RemoveExistingDataset_on fn p w f :
  RemoveExistingDataset fn p (set_fs <[fn := f]> w)
  = (set_fs <[fn := del_node p f]> w, Ok tt).
Proof.
  rewrite (RemoveExistingDataset_run fn p _ f) by apply fs_insert_eq.
  now rewrite set_fs_insert_twice.
Qed.

Lemma openFile_on fn w f :
  openFile fn (set_fs <[fn := f]> w) = (set_fs <[fn := f]> w, Ok fn).
Proof. apply (openFile_run fn _ f), fs_insert_eq. Qed.

Lemma getNode_on fn p w f n :
  nodes f !! p = Some n ->
  getNode fn p (set_fs <[fn := f]> w) = (set_fs <[fn := f]> w, Ok n).
Proof. intros Hn. apply (getNode_run fn p _ f n); [apply fs_insert_eq | exact Hn]. Qed.

Lemma createArray_on fn g name a w f :
  nodes f !! (g +:+ "/" +:+ name) = None ->
  createArray fn g name a (set_fs <[fn := f]> w)
  = (set_fs <[fn := set_node (g +:+ "/" +:+ name) (ArrayNode a) f]> w, Ok tt).
Proof.
  intros Hn. rewrite (createArray_run fn g name a _ f) by (apply fs_insert_eq || exact Hn).
  now rewrite set_fs_insert_twice.
Qed.

Lemma setAttr_on fn name a w f :
  setAttr fn name a (set_fs <[fn := f]> w)
  = (set_fs <[fn := set_attr name a f]> w, Ok tt).
Proof.
  rewrite (setAttr_run fn name a _ f) by apply fs_insert_eq.
  now rewrite set_fs_insert_twice.
Qed.

Lemma try_except_run {S A} (body handler : M S A) s s' a :
  body s = (s', Ok a) -> try_except body handler s = (s', Ok a).
Proof. intros Hb. unfold try_except. now rewrite Hb. Qed.

Lemma try_finally_run {S A} (body : M S A) s s' a :
  body s = (s', Ok a) -> try_finally body (mret tt) s = (s', Ok a).
Proof. intros Hb. unfold try_finally. now rewrite Hb. Qed.

(** Removing the file: afterwards it does not exist. *)
Lemma remove_file_run fn w :
  exists w1,
    try_except
      (ex ← os_path_exists fn;
       if (ex : bool) return M World unit then
         if decide (0 = 0) then os_remove fn else mret tt
       else mret tt)
      (logger Error ("Could not remove " +:+ fn)) w = (w1, Ok tt)
    /\ fs w1 !! fn = None.
Proof.
  destruct (fs w !! fn) as [f|] eqn:Hf.
  - exists (set_fs (delete fn) w). split.
    + apply try_except_run. unfold mbind, M_bind, os_path_exists, gets.
      rewrite bool_decide_true by (rewrite Hf; now eexists).
      rewrite decide_True by reflexivity.
      unfold os_remove. now rewrite Hf.
    + cbn [fs set_fs]. apply lookup_delete_eq.
  - exists w. split; [|exact Hf].
    apply try_except_run. unfold mbind, M_bind, os_path_exists, gets.
    rewrite bool_decide_false; [reflexivity|].
    rewrite Hf. intros [? ?]; discriminate.
Qed.
End Ops.

Section Save.
Context {F C : Type} {Ar : Arith F}.
Variable GetRadialPostfix : Config (F:=F) -> list string.
Variable py_str : PyVal -> string.
Variable normpath : string -> string.

Lemma save_persists_all (solver : PiramSolver (F:=F) (C:=C)) gmres (w : World) :
  GetEigenvalues solver <> [] ->
  length (GetEigenvalues solver) <= length (GetEigenvector solver) ->
  let conf := BaseProblem_Config solver in
  let filename :=
    NameGeneratorBoundstates GetRadialPostfix py_str normpath conf
      (PyIntArray (sort_unique (map lm_l (AngularRange solver))))
      (PyIntArray (sort_unique (map lm_m (AngularRange solver)))) in
  exists w' f,
    SaveEigenpairsSolverShiftInvert GetRadialPostfix py_str normpath 0 solver gmres w
    = (w', Ok tt) /\
    fs w' !! filename = Some f /\
    nodes f !! "/Eig/Eigenvalues"
    = Some (ArrayNode (map (fun x => fadd (fdiv (of_int 1) x) (shift conf))
                           (GetEigenvalues solver))) /\
    nodes f !! "/Eig/ConvergenceEstimateEig"
    = Some (ArrayNode (GetConvergenceEstimates solver)) /\
    (forall i v, i < length (GetEigenvalues solver) ->
       GetEigenvector solver !! i = Some v ->
       nodes f !! GetEigenvectorDatasetPath i = Some (WavefunctionNode v)).
Proof.
  intros Hne Hlen conf filename.
  unfold SaveEigenpairsSolverShiftInvert. fold conf. fold filename.
  destruct (remove_file_run filename w) as (w1 & Hrm & Hnone).
  rewrite (bind_run _ _ _ _ _ Hrm).
  assert (Hlog : logger Info "Now storing eigenvectors..." w1
                 = (add_log Info "Now storing eigenvectors..." w1, Ok tt)) by reflexivity.
  rewrite (bind_run _ _ _ _ _ Hlog).
  set (w2 := add_log Info "Now storing eigenvectors..." w1).
  rewrite length_map.
  destruct (store_eigenvectors_run solver filename (length (GetEigenvalues solver)) 0 w2)
    as (w3 & Hloop & _ & Hgrp & Hvec & Hother & Hattr); [simpl; lia|].
  rewrite (bind_run _ _ _ _ _ Hloop).
  assert (Hpos : 0 < length (GetEigenvalues solver))
    by (destruct (GetEigenvalues solver); [contradiction | simpl; lia]).
  destruct (Hgrp Hpos) as [[f3 Hf3] Hg3].
  rewrite Hf3 in *. cbn [default] in *.
  assert (Hw2 : fs w2 !! filename = None) by exact Hnone.
  rewrite Hw2 in *. cbn [default] in *.
  rewrite decide_True by reflexivity.
  unfold default, from_option, id in *.
  (* the four datasets are absent from the freshly written file *)
  assert (Habsent : forall name,
            name ∈ ["Eigenvalues"; "ErrorEstimateListGMRES";
                    "ErrorEstimateListPIRAM"; "ConvergenceEstimateEig"] ->
            nodes f3 !! (GetEigenvectorGroupName +:+ "/" +:+ name) = None).
  { intros name Hname. rewrite Hother; [apply lookup_empty| |];
      repeat (apply elem_of_cons in Hname as [->|Hname]);
      try (apply elem_of_nil in Hname; contradiction);
      try (intros i _); goal_path_simpl; discriminate. }
  set (d1 := "/" +:+ GetEigenvectorGroupName +:+ "/Eigenvalues").
  set (d2 := "/" +:+ GetEigenvectorGroupName +:+ "/ErrorEstimateListGMRES").
  set (d3 := "/" +:+ GetEigenvectorGroupName +:+ "/ErrorEstimateListPIRAM").
  set (d4 := "/" +:+ GetEigenvectorGroupName +:+ "/ConvergenceEstimateEig").
  set (fd := del_node d4 (del_node d3 (del_node d2 (del_node d1 f3)))).
  assert (Hfd : forall p, p <> d1 -> p <> d2 -> p <> d3 -> p <> d4 ->
            nodes fd !! p = nodes f3 !! p).
  { intros p ? ? ? ?. unfold fd. cbn [nodes del_node].
    now rewrite !lookup_delete_ne by congruence. }
  rewrite (bind_run _ _ _ _ _ (RemoveExistingDataset_run filename d1 w3 f3 Hf3)).
  rewrite (bind_run _ _ _ _ _ (RemoveExistingDataset_on filename d2 w3 _)).
  rewrite (bind_run _ _ _ _ _ (RemoveExistingDataset_on filename d3 w3 _)).
  rewrite (bind_run _ _ _ _ _ (RemoveExistingDataset_on filename d4 w3 _)).
  fold fd.
  rewrite (bind_run _ _ _ _ _ (openFile_on filename w3 fd)).
  assert (Hgd : nodes fd !! GetEigenvectorGroupName = Some Group).
  { rewrite Hfd; [exact Hg3 | | | |]; unfold d1, d2, d3, d4; goal_path_simpl; discriminate. }
  set (E := map (fun x : F => fadd (fdiv (of_int 1) x) (shift conf)) (GetEigenvalues solver)).
  set (g := GetEigenvectorGroupName).
  set (f1 := set_node (g +:+ "/" +:+ "Eigenvalues") (ArrayNode E) fd).
  set (f2 := set_node (g +:+ "/" +:+ "ErrorEstimateListGMRES")
               (ArrayNode (GetErrorEstimateList gmres)) f1).
  set (f3' := set_node (g +:+ "/" +:+ "ErrorEstimateListPIRAM")
               (ArrayNode (GetErrorEstimates solver)) f2).
  set (f4 := set_node (g +:+ "/" +:+ "ConvergenceEstimateEig")
               (ArrayNode (GetConvergenceEstimates solver)) f3').
  set (f5 := set_attr "orthCount" (AttrInt (GetOrthogonalizationCount solver))
               (set_attr "restartCount" (AttrInt (GetRestartCount solver))
                  (set_attr "opCount" (AttrInt (GetOperatorCount solver))
                     (set_attr "configObject" (AttrString (cfgObj conf)) f4)))).
  assert (Hin : forall name,
            name ∈ ["Eigenvalues"; "ErrorEstimateListGMRES";
                    "ErrorEstimateListPIRAM"; "ConvergenceEstimateEig"] ->
            nodes fd !! (g +:+ "/" +:+ name) = None).
  { intros name Hname. rewrite Hfd; [now apply Habsent | | | |];
      repeat (apply elem_of_cons in Hname as [->|Hname]);
      try (apply elem_of_nil in Hname; contradiction);
      unfold d1, d2, d3, d4, g; goal_path_simpl; discriminate. }
  assert (A1 : nodes fd !! (g +:+ "/" +:+ "Eigenvalues") = None)
    by (apply Hin; repeat constructor).
  assert (A2 : nodes f1 !! (g +:+ "/" +:+ "ErrorEstimateListGMRES") = None).
  { unfold f1. cbn [nodes set_node].
    rewrite lookup_insert_ne by (unfold g; goal_path_simpl; discriminate).
    apply Hin; repeat constructor. }
  assert (A3 : nodes f2 !! (g +:+ "/" +:+ "ErrorEstimateListPIRAM") = None).
  { unfold f2, f1. cbn [nodes set_node].
    rewrite !lookup_insert_ne by (unfold g; goal_path_simpl; discriminate).
    apply Hin; repeat constructor. }
  assert (A4 : nodes f3' !! (g +:+ "/" +:+ "ConvergenceEstimateEig") = None).
  { unfold f3', f2, f1. cbn [nodes set_node].
    rewrite !lookup_insert_ne by (unfold g; goal_path_simpl; discriminate).
    apply Hin; repeat constructor. }
  exists (set_fs <[filename := f5]> w3), f5.
  split; [|split; [apply fs_insert_eq|]].
  - match goal with |- (?c ≫= _) ?st = _ =>
      assert (Hfin : c st = (set_fs <[filename := f5]> w3, Ok tt))
    end; [|now rewrite (bind_run _ _ _ _ _ Hfin)].
    apply try_finally_run, try_except_run.
    rewrite (bind_run _ _ _ _ _ (getNode_on filename g w3 fd Group Hgd)).
    rewrite (bind_run _ _ _ _ _ (createArray_on filename g _ _ w3 fd A1)).
    rewrite (bind_run _ _ _ _ _ (createArray_on filename g _ _ w3 f1 A2)).
    rewrite (bind_run _ _ _ _ _ (createArray_on filename g _ _ w3 f2 A3)).
    rewrite (bind_run _ _ _ _ _ (createArray_on filename g _ _ w3 f3' A4)).
    rewrite (bind_run _ _ _ _ _ (setAttr_on filename _ _ w3 _)).
    rewrite (bind_run _ _ _ _ _ (setAttr_on filename _ _ w3 _)).
    rewrite (bind_run _ _ _ _ _ (setAttr_on filename _ _ w3 _)).
    apply setAttr_on.
  - unfold f5, f4, f3', f2, f1, g. cbn [nodes set_node set_attr].
    split; [|split].
    + rewrite !lookup_insert_ne by (goal_path_simpl; discriminate).
      now rewrite lookup_insert_eq.
    + now rewrite lookup_insert_eq.
    + intros i v Hi Hv.
      rewrite !lookup_insert_ne by (goal_path_simpl; discriminate).
      rewrite Hfd by (unfold d1, d2, d3, d4; goal_path_simpl; discriminate).
      apply Hvec; [lia | exact Hv].
Qed.
End Save.

Section LoadFacts.
Context {F C : Type} {Ar : Arith F}.
Variable GetRadialPostfix : Config (F:=F) -> list string.
Variable py_str : PyVal -> string.
Variable normpath : string -> string.

(** C5.  When the generated eigenpair file does not exist,
    [LoadEigenpairs] appends one warning to the log and returns two
    empty sequences; it does not raise, and the file system is left as
    it was. *)
Theorem load_missing_file_returns_empty conf l m (w : World (F:=F) (C:=C)) :
  fs w !! NameGeneratorBoundstates GetRadialPostfix py_str normpath conf l m = None ->
  LoadEigenpairs GetRadialPostfix py_str normpath conf l m w
  = (add_log Warning
       ("Eigenstates file does not exist, skipping: "
        +:+ NameGeneratorBoundstates GetRadialPostfix py_str normpath conf l m) w,
     Ok ([], [])).
Proof.
  intros Hmissing. unfold LoadEigenpairs.
  assert (Hex : os_path_exists
                  (NameGeneratorBoundstates GetRadialPostfix py_str normpath conf l m) w
                = (w, Ok false)).
  { unfold os_path_exists, gets. rewrite bool_decide_false; [reflexivity|].
    rewrite Hmissing. intros [? ?]; discriminate. }
  rewrite (bind_run _ _ _ _ _ Hex). reflexivity.
Qed.

End LoadFacts.

Lemma load_missing_file_returns_empty_witness :
  LoadEigenpairs Examples.GetRadialPostfix Examples.py_str Examples.normpath
    Examples.conf (PyInt 0) (PyInt 0) Examples.world
  = (add_log Warning "Eigenstates file does not exist, skipping: eigenpairs/grid_l0_m0.h5"
       Examples.world,
     Ok ([], [])).
Proof.
  apply (load_missing_file_returns_empty
           Examples.GetRadialPostfix Examples.py_str Examples.normpath
           Examples.conf (PyInt 0) (PyInt 0) Examples.world).
  reflexivity.
Defined.

(** C9.  On the coordinating process, for a solver that holds at least one
    eigenvalue and an eigenvector for each, the persisted [Eigenvalues]
    array is [1/x + shift] of every eigenvalue of the solver, whatever
    the sign of its convergence estimate, and every eigenvector is
    persisted; and there is a solver state whose persisted file holds an
    eigenvalue, with its eigenvector, that
    [FindEigenvaluesInverseIterationsPiram] does not report. *)
Theorem save_persists_unconverged :
  (forall (F C : Type) (Ar : Arith F)
          (GetRadialPostfix : Config (F:=F) -> list string)
          (py_str : PyVal -> string) (normpath : string -> string)
          (solver : PiramSolver (F:=F) (C:=C)) gmres (w : World),
     GetEigenvalues solver <> [] ->
     length (GetEigenvalues solver) <= length (GetEigenvector solver) ->
     let conf := BaseProblem_Config solver in
     let filename :=
       NameGeneratorBoundstates GetRadialPostfix py_str normpath conf
         (PyIntArray (sort_unique (map lm_l (AngularRange solver))))
         (PyIntArray (sort_unique (map lm_m (AngularRange solver)))) in
     exists w' f,
       SaveEigenpairsSolverShiftInvert GetRadialPostfix py_str normpath 0 solver gmres w
       = (w', Ok tt) /\
       fs w' !! filename = Some f /\
       nodes f !! "/Eig/Eigenvalues"
       = Some (ArrayNode (map (fun x => fadd (fdiv (of_int 1) x) (shift conf))
                              (GetEigenvalues solver))) /\
       (forall i x, GetEigenvalues solver !! i = Some x ->
          exists v, GetEigenvector solver !! i = Some v /\
                    nodes f !! GetEigenvectorDatasetPath i = Some (WavefunctionNode v)))
  /\
  (exists w' f found persisted i x e v,
     FindEigenvaluesInverseIterationsPiram Examples.Solve Examples.conf
     = Ok (Examples.solver, Examples.gmres, found) /\
     SaveEigenpairsSolverShiftInvert Examples.GetRadialPostfix Examples.py_str
       Examples.normpath 0 Examples.solver Examples.gmres Examples.world
     = (w', Ok tt) /\
     fs w' !! "eigenpairs/grid_l[0]_m[0].h5" = Some f /\
     nodes f !! "/Eig/Eigenvalues" = Some (ArrayNode persisted) /\
     persisted !! i = Some x /\
     GetConvergenceEstimates Examples.solver !! i = Some e /\
     fltb e (of_int 0) = false /\
     (x ∉ found) /\
     nodes f !! GetEigenvectorDatasetPath i = Some (WavefunctionNode v)).
Proof.
  split.
  - intros F C Ar GetRadialPostfix py_str normpath solver gmres w Hne Hlen conf filename.
    destruct (save_persists_all GetRadialPostfix py_str normpath solver gmres w Hne Hlen)
      as (w' & f & Hrun & Hf & Hev & _ & Hvec).
    exists w', f. repeat split; try assumption.
    intros i x Hx. pose proof (lookup_lt_Some _ _ _ Hx) as Hi.
    destruct (lookup_lt_is_Some_2 (GetEigenvector solver) i) as [v Hv]; [lia|].
    exists v. split; [exact Hv|]. now apply Hvec.
  - destruct (save_persists_all Examples.GetRadialPostfix Examples.py_str
                Examples.normpath Examples.solver Examples.gmres Examples.world)
      as (w' & f & Hrun & Hf & Hev & _ & Hvec); [discriminate | simpl; lia |].
    exists w', f, [0%float], [0; -0.25]%float, 1, (-0.25)%float, 1%float,
      [[(0, 1)]]%float.
    repeat split.
    + exact Hrun.
    + exact Hf.
    + exact Hev.
    + intros Hin. apply elem_of_cons in Hin as [Heq|Hin].
      * apply (f_equal (fun y => PrimFloat.eqb y 0)) in Heq.
        vm_compute in Heq. discriminate.
      * apply elem_of_nil in Hin. exact Hin.
    + apply Hvec; [simpl; lia | reflexivity].
Qed.

Lemma save_persists_unconverged_witness :
  exists w' f,
    SaveEigenpairsSolverShiftInvert Examples.GetRadialPostfix Examples.py_str
      Examples.normpath 0 Examples.solver Examples.gmres Examples.world
    = (w', Ok tt) /\
    fs w' !! "eigenpairs/grid_l[0]_m[0].h5" = Some f /\
    nodes f !! "/Eig/Eigenvalues" = Some (ArrayNode [0; -0.25]%float).
Proof.
  destruct save_persists_unconverged as [Hall _].
  destruct (Hall float (float * float)%type _ Examples.GetRadialPostfix Examples.py_str
              Examples.normpath Examples.solver Examples.gmres Examples.world)
    as (w' & f & Hrun & Hf & Hev & _); [discriminate | simpl; lia |].
  exists w', f. split; [exact Hrun|]. split; [exact Hf | exact Hev].
Defined.

(* ===================================================================== *)
(** * The analysis objects                                                *)
(* ===================================================================== *)

Section OverlapFacts.
Context {F C : Type}.

Import Analysis.

(** C7.  [MultiplyOverlap] returns a wavefunction object that did not
    exist before the call and whose data is the overlap operator applied
    to the data of [psi]; [psi] and every other object are unchanged, and
    nothing is printed or logged. *)
Theorem multiply_overlap_returns_new (psi : nat) (w : Wavefunction (C:=C))
    (st : State (F:=F) (C:=C)) :
  heap st !! psi = Some w ->
  exists st' out,
    MultiplyOverlap psi st = (st', Ok out) /\
    heap st !! out = None /\
    out <> psi /\
    heap st' !! out
    = Some {| GetData := Representation_MultiplyOverlap w (GetData w);
              Representation_MultiplyOverlap := Representation_MultiplyOverlap w |} /\
    heap st' !! psi = Some w /\
    (forall other, other <> out -> heap st' !! other = heap st !! other) /\
    stdout st' = stdout st /\
    logged st' = logged st.
Proof.
  intros Hpsi.
  set (out := fresh (dom (heap st))).
  assert (Hfresh : heap st !! out = None)
    by (apply not_elem_of_dom, is_fresh).
  assert (Hne : out <> psi) by congruence.
  set (copy := {| GetData := GetData w;
                  Representation_MultiplyOverlap := Representation_MultiplyOverlap w |}).
  set (st1 := set_heap <[out := copy]> st).
  assert (Hcopy : Copy psi st = (st1, Ok out))
    by (unfold Copy; now rewrite Hpsi).
  set (res := {| GetData := Representation_MultiplyOverlap w (GetData w);
                 Representation_MultiplyOverlap := Representation_MultiplyOverlap w |}).
  assert (Hmul : GetRepresentation_MultiplyOverlap out st1
                 = (set_heap <[out := res]> st1, Ok tt)).
  { unfold GetRepresentation_MultiplyOverlap, st1. cbn [heap set_heap].
    now rewrite lookup_insert_eq. }
  exists (set_heap <[out := res]> st1), out.
  split; [|split; [exact Hfresh | split; [exact Hne|]]].
  - unfold MultiplyOverlap.
    rewrite (bind_run _ _ _ _ _ Hcopy), (bind_run _ _ _ _ _ Hmul). reflexivity.
  - unfold st1. cbn [heap set_heap stdout logged]. repeat split.
    + apply lookup_insert_eq.
    + rewrite !lookup_insert_ne by exact Hne. exact Hpsi.
    + intros other Hother. now rewrite !lookup_insert_ne by congruence.
Qed.

End OverlapFacts.

Lemma multiply_overlap_returns_new_witness :
  exists st' out,
    Analysis.MultiplyOverlap 0 Examples.state = (st', Ok out) /\
    out <> 0 /\
    Analysis.heap st' !! 0 = Some Examples.psiA.
Proof.
  destruct (multiply_overlap_returns_new 0 Examples.psiA Examples.state)
    as (st' & out & Hrun & _ & Hne & _ & Hpsi & _); [reflexivity|].
  exists st', out. split; [exact Hrun|]. split; [exact Hne | exact Hpsi].
Defined.

Section SetupFacts.
Context {F C Conf : Type}.

Import Analysis.

Variable FromMultipleFiles : list string -> result (Catalog (F:=F) (C:=C)).

(** C6.  When the catalog loaded from the file list has an asymptotic
    charge different from the one the [CoulombwaveAnalysis] was
    constructed with, [Setup] raises [AssertionError]. *)
Theorem setup_rejects_mismatched_charge
    (self : CoulombwaveAnalysis (F:=F) (C:=C) (Conf:=Conf)) catalog :
  FromMultipleFiles (FileList self) = Ok catalog ->
  catalog_Z catalog <> self_Z self ->
  Setup FromMultipleFiles self = (set_Eigenstate catalog self, Raise AssertionError).
Proof.
  intros Hload Hz. unfold Setup, mbind, M_bind, gets, lift, modify, py_assert.
  rewrite Hload. cbn [self_Z set_Eigenstate].
  now rewrite (proj2 (Z.eqb_neq _ _) Hz).
Qed.

End SetupFacts.

Lemma setup_rejects_mismatched_charge_witness :
  snd (Analysis.Setup Examples.FromMultipleFiles
         (Analysis.CoulombwaveAnalysis_init tt 1 ["window1.h5"; "window2.h5"]))
  = Raise AssertionError.
Proof.
  rewrite (setup_rejects_mismatched_charge Examples.FromMultipleFiles
             (Analysis.CoulombwaveAnalysis_init tt 1 ["window1.h5"; "window2.h5"])
             (Examples.catalog 2)).
  - reflexivity.
  - reflexivity.
  - simpl. lia.
Defined.

(* ===================================================================== *)
(** * The energy distribution                                             *)
(* ===================================================================== *)

Section EnergyFacts.
Context {F C : Type} {Ar : Arith F} {Cx : Cplx F C} {Np : Reductions F C}.

Import Analysis.

Lemma density_energy_length (curE : list F) :
  2 <= length curE ->
  exists density, density_energy curE = Ok density /\ length density = length curE.
Proof.
  intros Hlen.
  destruct (edge_reads curE Hlen)
    as (e0 & e1 & en2 & en1 & _ & _ & _ & _ & P0 & P1 & P2 & P3).
  eexists. split; [exact (density_energy_long curE e0 e1 en2 en1 P0 P1 P2 P3)|].
  rewrite length_map, !length_app, length_energy_interior. simpl. lia.
Qed.

Lemma dot_conj_ok (curV : list (list C)) (psiSlice : list C) :
  forallb (fun v => Nat.eqb (length v) (length psiSlice)) curV = true ->
  exists d, dot_conj curV psiSlice = Ok d /\ length d = length curV.
Proof.
  intros Hall. unfold dot_conj.
  destruct (np_dot_shape (map (map cconj) curV) psiSlice) as (d & Hd & Hlen).
  - apply Forall_fmap, Forall_forall. intros v Hv. cbn. rewrite length_map.
    apply Nat.eqb_eq. rewrite forallb_forall in Hall. apply Hall.
    now apply list_elem_of_In.
  - exists d. split; [exact Hd|]. now rewrite Hlen, length_map.
Qed.

Lemma energy_block_ok (E curE proj : list F) :
  2 <= length curE ->
  length proj = length curE \/ length proj = 1 ->
  exists contribution,
    energy_block E curE proj = Ok contribution /\ length contribution = length E.
Proof.
  intros Hlen Hproj. unfold energy_block.
  destruct (density_energy_length curE Hlen) as (density & -> & Hd).
  destruct (broadcast_ok fmul proj density) as (fp & Hfp & Hfplen);
    [rewrite Hd; exact Hproj|].
  cbn [mbind result_bind]. rewrite Hfp. cbn [mbind result_bind].
  apply interp_ok; [congruence|]. destruct curE; [simpl in Hlen; lia | discriminate].
Qed.

Lemma energy_block_outside (E curE proj contribution : list F) i x :
  energy_block E curE proj = Ok contribution ->
  E !! i = Some x ->
  (forall e, e ∈ curE -> fltb x e = true) \/ (forall e, e ∈ curE -> fltb e x = true) ->
  contribution !! i = Some (of_int 0).
Proof.
  unfold energy_block. intros Hblock Hx Hout.
  destruct (density_energy curE) as [density|]; [|discriminate].
  cbn [mbind result_bind] in Hblock.
  destruct (broadcast fmul proj density) as [fp|]; [|discriminate].
  cbn [mbind result_bind] in Hblock.
  destruct (interp_lookup _ _ _ _ _ _ _ _ Hblock Hx) as (y & Hy & Hinterp).
  rewrite Hy. f_equal.
  assert (Hne : curE <> []).
  { intros ->. unfold interp in Hblock. destruct (decide _); discriminate. }
  destruct Hout as [Hbelow|Habove].
  - destruct curE as [|x0 rest]; [contradiction|].
    rewrite (interp1_below _ _ _ _ _ x0) in Hinterp; [congruence | reflexivity |].
    apply Hbelow, list_elem_of_here.
  - destruct (lookup_lt_is_Some_2 curE (length curE - 1)) as [xn Hxn].
    { destruct curE; [contradiction | simpl; lia]. }
    rewrite (interp1_above _ _ _ _ _ xn) in Hinterp; [congruence | exact Hxn | | reflexivity].
    apply Habove. now apply list_elem_of_lookup_2 with (length curE - 1).
Qed.

Lemma energy_loop_body_ok data E (distr : list F) (t : F) blk :
  block_ok data blk = true ->
  exists psiSlice d contribution,
    data !! angIdx blk = Some psiSlice /\
    dot_conj (curV blk) psiSlice = Ok d /\
    energy_block E (curE blk) (abs_squared d) = Ok contribution /\
    length contribution = length E /\
    energy_loop_body data E (distr, t) blk
    = Ok (zip_with fadd distr contribution, fadd t (np_sum (abs_squared d))).
Proof.
  unfold block_ok. intros Hok.
  destruct (data !! angIdx blk) as [psiSlice|] eqn:Hrow; [|discriminate].
  apply andb_prop in Hok as [Hok Hbroad]. apply andb_prop in Hok as [Hvec Hlen].
  apply Nat.leb_le in Hlen.
  destruct (dot_conj_ok _ _ Hvec) as (d & Hd & Hdlen).
  destruct (energy_block_ok E (curE blk) (abs_squared d) Hlen) as (c & Hc & Hclen).
  { unfold abs_squared. rewrite length_map, Hdlen.
    apply orb_prop in Hbroad as [Hb|Hb]; apply Nat.eqb_eq in Hb; auto. }
  exists psiSlice, d, c. repeat split; try assumption.
  unfold energy_loop_body. rewrite py_index_nat, Hrow. cbn [mbind result_bind].
  rewrite Hd. cbn [mbind result_bind]. rewrite Hc. reflexivity.
Qed.

Lemma energy_block_inv (E curE proj contribution : list F) :
  energy_block E curE proj = Ok contribution ->
  exists density fp,
    density_energy curE = Ok density /\
    broadcast fmul proj density = Ok fp /\
    interp E curE fp (of_int 0) (of_int 0) = Ok contribution.
Proof.
  unfold energy_block. intros Hblock.
  destruct (density_energy curE) as [density|] eqn:Hdensity; [|discriminate].
  cbn [mbind result_bind] in Hblock.
  destruct (broadcast fmul proj density) as [fp|] eqn:Hfp; [|discriminate].
  cbn [mbind result_bind] in Hblock.
  exists density, fp. split; [reflexivity|]. split; [exact Hfp | exact Hblock].
Qed.

(** The accumulated distribution and total as sums over the blocks. *)
Lemma energy_loop_sum (data : list (list C)) (E : list F) blocks : forall distr t,
  forallb (block_ok data) blocks = true ->
  exists pcs : list (list F * list F),
    energy_loop data E (distr, t) blocks
    = Ok (fold_left (fun acc pc => zip_with fadd acc (snd pc)) pcs distr,
          fold_left (fun acc pc => fadd acc (np_sum (fst pc))) pcs t) /\
    Forall2 (fun blk pc =>
               exists psiSlice d,
                 data !! angIdx blk = Some psiSlice /\
                 dot_conj (curV blk) psiSlice = Ok d /\
                 fst pc = abs_squared d /\
                 energy_block E (curE blk) (fst pc) = Ok (snd pc) /\
                 length (snd pc) = length E)
            blocks pcs.
Proof.
  induction blocks as [|blk rest IH]; intros distr t Hall.
  - exists []. split; [reflexivity | constructor].
  - cbn [forallb] in Hall. apply andb_prop in Hall as [Hblk Hrest].
    destruct (energy_loop_body_ok data E distr t blk Hblk)
      as (psiSlice & d & c & Hrow & Hd & Hc & Hclen & Hbody).
    destruct (IH (zip_with fadd distr c) (fadd t (np_sum (abs_squared d))) Hrest)
      as (pcs & Hloop & Hall2).
    exists ((abs_squared d, c) :: pcs). split.
    + cbn [energy_loop]. rewrite Hbody. cbn [mbind result_bind]. exact Hloop.
    + constructor; [|exact Hall2]. exists psiSlice, d. now repeat split.
Qed.

Lemma energy_loop_ok data E blocks : forall (distr : list F) (t : F),
  forallb (block_ok data) blocks = true ->
  length distr = length E ->
  exists distr' t',
    energy_loop data E (distr, t) blocks = Ok (distr', t') /\ length distr' = length E.
Proof.
  induction blocks as [|blk rest IH]; intros distr t Hall Hlen.
  - now exists distr, t.
  - simpl in Hall. apply andb_prop in Hall as [Hblk Hrest].
    destruct (energy_loop_body_ok data E distr t blk Hblk)
      as (psiSlice & d & c & _ & _ & _ & Hclen & Hbody).
    cbn [energy_loop]. rewrite Hbody. cbn [mbind result_bind].
    apply IH; [exact Hrest|]. rewrite length_zip_with. lia.
Qed.

Lemma energy_loop_body_inv data E (distr : list F) (t : F) blk distr' t' :
  energy_loop_body data E (distr, t) blk = Ok (distr', t') ->
  exists proj contribution,
    energy_block E (curE blk) proj = Ok contribution /\
    distr' = zip_with fadd distr contribution.
Proof.
  unfold energy_loop_body. intros Hbody.
  destruct (py_index data _) as [psiSlice|]; [|discriminate].
  cbn [mbind result_bind] in Hbody.
  destruct (dot_conj _ _) as [d|]; [|discriminate].
  cbn [mbind result_bind] in Hbody.
  destruct (energy_block E (curE blk) (abs_squared d)) as [c|] eqn:Hc; [|discriminate].
  cbn [mbind result_bind] in Hbody. injection Hbody as <- <-.
  now exists (abs_squared d), c.
Qed.

Lemma energy_loop_zero data E blocks i x :
  fadd (of_int 0) (of_int 0) = of_int 0 ->
  E !! i = Some x ->
  forall (distr : list F) (t : F) distr' t',
    energy_loop data E (distr, t) blocks = Ok (distr', t') ->
    distr !! i = Some (of_int 0) ->
    (forall blk, blk ∈ blocks ->
       (forall e, e ∈ curE blk -> fltb x e = true)
       \/ (forall e, e ∈ curE blk -> fltb e x = true)) ->
    distr' !! i = Some (of_int 0).
Proof.
  intros Hzero Hx. induction blocks as [|blk rest IH]; intros distr t distr' t' Hloop Hi Hout.
  - injection Hloop as <- <-. exact Hi.
  - cbn [energy_loop] in Hloop.
    destruct (energy_loop_body data E (distr, t) blk) as [[distr1 t1]|] eqn:Hbody;
      [|discriminate].
    cbn [mbind result_bind] in Hloop.
    destruct (energy_loop_body_inv _ _ _ _ _ _ _ Hbody) as (proj & c & Hc & ->).
    apply (IH _ _ _ _ Hloop).
    + rewrite lookup_zip_with, Hi. cbn [mbind option_bind].
      rewrite (energy_block_outside _ _ _ _ _ _ Hc Hx) by (apply Hout, list_elem_of_here).
      cbn [mbind option_bind]. now rewrite Hzero.
    + intros b Hb. apply Hout. now apply list_elem_of_further.
Qed.

End EnergyFacts.

Section RunFacts.
Context {F C Conf : Type} {Ar : Arith F} {Cx : Cplx F C} {Np : Reductions F C}.

Import Analysis.

Lemma MultiplyOverlap_run (psi : nat) (w : Wavefunction (C:=C)) (st : State (F:=F) (C:=C)) :
  heap st !! psi = Some w ->
  let out := fresh (dom (heap st)) in
  MultiplyOverlap psi st
  = (set_heap
       (fun h => <[out := {| GetData := Representation_MultiplyOverlap w (GetData w);
                             Representation_MultiplyOverlap :=
                               Representation_MultiplyOverlap w |}]>
                   (<[out := {| GetData := GetData w;
                                Representation_MultiplyOverlap :=
                                  Representation_MultiplyOverlap w |}]> h)) st,
     Ok out).
Proof.
  intros Hpsi out. unfold MultiplyOverlap.
  assert (Hcopy : Copy psi st
                  = (set_heap <[out := {| GetData := GetData w;
                                          Representation_MultiplyOverlap :=
                                            Representation_MultiplyOverlap w |}]> st,
                     Ok out))
    by (unfold Copy; now rewrite Hpsi).
  rewrite (bind_run _ _ _ _ _ Hcopy).
  unfold mbind, M_bind, GetRepresentation_MultiplyOverlap. cbn [heap set_heap].
  rewrite lookup_insert_eq. reflexivity.
Qed.

Lemma energy_distribution_run (self : EigenstateAnalysis (F:=F) (C:=C) (Conf:=Conf))
    psi w cat (minE maxE dE : F) E (st : State) :
  Logger self = true ->
  Eigenstate self = Some cat ->
  heap st !! psi = Some w ->
  r_ minE maxE dE = Ok E ->
  forallb (block_ok (Representation_MultiplyOverlap w (GetData w)))
          (IterateStates cat (BoundThreshold self)) = true ->
  exists st' energyDistr totalIon,
    energy_loop (Representation_MultiplyOverlap w (GetData w)) E
      (zeros (length E), of_int 0) (IterateStates cat (BoundThreshold self))
    = Ok (energyDistr, totalIon) /\
    length energyDistr = length E /\
    CalculateEnergyDistribution_locals self psi minE maxE dE st
    = (st', Ok {| local_E := E;
                  local_energyDistr := energyDistr;
                  local_totalIon := totalIon;
                  local_totalIon2 := fmul (np_sum energyDistr) dE;
                  local_interpolateError :=
                    fsub totalIon (fmul (np_sum energyDistr) dE) |}) /\
    stdout st' = stdout st ++ [totalIon; fmul (np_sum energyDistr) dE] /\
    logged st' = logged st ++ ["Now calculating dP/dE..."] /\
    heap st' !! psi = Some w.
Proof.
  intros HLogger Heig Hpsi Hgrid Hblocks.
  destruct (energy_loop_ok (Representation_MultiplyOverlap w (GetData w)) E
              (IterateStates cat (BoundThreshold self)) (zeros (length E)) (of_int 0)
              Hblocks (length_zeros _))
    as (energyDistr & totalIon & Hloop & Hlen).
  set (data := Representation_MultiplyOverlap w (GetData w)) in *.
  set (s1 := {| heap := heap st; stdout := stdout st;
                logged := logged st ++ ["Now calculating dP/dE..."] |}).
  assert (H1 : call_Logger self "Now calculating dP/dE..." st = (s1, Ok tt))
    by (unfold call_Logger; now rewrite HLogger).
  pose proof (MultiplyOverlap_run psi w s1 Hpsi) as H2. cbn zeta in H2.
  set (out := fresh (dom (heap s1))) in *.
  match type of H2 with _ = (?s, _) => set (s2 := s) in * end.
  assert (H3 : lift (r_ minE maxE dE) s2 = (s2, Ok E))
    by (unfold lift; now rewrite Hgrid).
  assert (H4 : get_Eigenstate self s2 = (s2, Ok cat))
    by (unfold get_Eigenstate; now rewrite Heig).
  assert (H5 : read_data out s2 = (s2, Ok data)).
  { unfold read_data, s2. cbn [heap set_heap]. now rewrite lookup_insert_eq. }
  assert (H6 : lift (energy_loop data E (zeros (length E), of_int 0)
                       (IterateStates cat (BoundThreshold self))) s2
               = (s2, Ok (energyDistr, totalIon)))
    by (unfold lift; now rewrite Hloop).
  eexists _, energyDistr, totalIon.
  split; [exact Hloop|]. split; [exact Hlen|].
  split; [|split; [|split]].
  - unfold CalculateEnergyDistribution_locals.
    rewrite (bind_run _ _ _ _ _ H1), (bind_run _ _ _ _ _ H2), (bind_run _ _ _ _ _ H3),
      (bind_run _ _ _ _ _ H4), (bind_run _ _ _ _ _ H5), (bind_run _ _ _ _ _ H6).
    reflexivity.
  - cbn [stdout]. unfold s2, s1. cbn [stdout set_heap]. now rewrite <- app_assoc.
  - reflexivity.
  - cbn [heap]. unfold s2, s1. cbn [heap set_heap].
    assert (Hne : out <> psi).
    { intros Heq. pose proof (is_fresh (dom (heap st))) as Hfresh.
      unfold out, s1 in Heq. cbn [heap] in Heq.
      rewrite Heq in Hfresh. apply Hfresh, elem_of_dom. exists w. exact Hpsi. }
    now rewrite !lookup_insert_ne by exact Hne.
Qed.

End RunFacts.

Section EnergyClaims.
Context {F C Conf : Type} {Ar : Arith F} {Cx : Cplx F C} {Np : Reductions F C}.

Import Analysis.


(** C4.  In [CalculateEnergyDistribution], on a configured object and
    well-shaped blocks (at least two energies in each), the squared
    projections [abs(dot(conj(curV.transpose()), psiSlice))**2] of every
    block are multiplied by the block's density of states and
    interpolated onto the grid, and the returned distribution
    accumulates these contributions; the density of states is the
    reciprocal of the local spacing: half the first spacing at the first
    point, half the last spacing at the last point, and at an interior
    point the average of the spacings to its two neighbours. *)
Theorem energy_distribution_weights_by_density
    (self : EigenstateAnalysis (F:=F) (C:=C) (Conf:=Conf))
    psi w cat (minE maxE dE : F) E (st : State) :
  Logger self = true ->
  Eigenstate self = Some cat ->
  heap st !! psi = Some w ->
  r_ minE maxE dE = Ok E ->
  let data := Representation_MultiplyOverlap w (GetData w) in
  let blocks := IterateStates cat (BoundThreshold self) in
  forallb (block_ok data) blocks = true ->
  exists st' (terms : list (list F * list F)),
    CalculateEnergyDistribution self psi minE maxE dE st
    = (st', Ok (E, fold_left (fun acc term => zip_with fadd acc (snd term))
                             terms (zeros (length E)))) /\
    Forall2 (fun blk '(proj, contribution) =>
               let curE := curE blk in
               exists psiSlice d density fp,
                 data !! angIdx blk = Some psiSlice /\
                 dot_conj (curV blk) psiSlice = Ok d /\
                 proj = abs_squared d /\
                 length density = length curE /\
                 (forall e0 e1, curE !! 0 = Some e0 -> curE !! 1 = Some e1 ->
                    density !! 0
                    = Some (fdiv (of_int 1) (fdiv (fsub e1 e0) (of_int 2)))) /\
                 (forall i a b c,
                    curE !! i = Some a -> curE !! S i = Some b ->
                    curE !! S (S i) = Some c ->
                    density !! S i
                    = Some (fdiv (of_int 1)
                              (fdiv (fadd (fsub b a) (fsub c b)) (of_int 2)))) /\
                 (forall a b,
                    curE !! (length curE - 2) = Some a ->
                    curE !! (length curE - 1) = Some b ->
                    density !! (length curE - 1)
                    = Some (fdiv (of_int 1) (fdiv (fsub b a) (of_int 2)))) /\
                 broadcast fmul proj density = Ok fp /\
                 interp E curE fp (of_int 0) (of_int 0) = Ok contribution)
            blocks terms.
Proof.
  intros HLogger Heig Hpsi Hgrid data blocks Hblocks.
  destruct (energy_loop_sum data E blocks (zeros (length E)) (of_int 0) Hblocks)
    as (pcs & Hsum & Hall).
  destruct (energy_distribution_run self psi w cat minE maxE dE E st
              HLogger Heig Hpsi Hgrid Hblocks)
    as (st' & energyDistr & totalIon & Hloop & _ & Hrun & _).
  fold data blocks in Hloop. rewrite Hsum in Hloop. injection Hloop as <- <-.
  exists st', pcs. split.
  { unfold CalculateEnergyDistribution. now rewrite (bind_run _ _ _ _ _ Hrun). }
  eapply Forall2_impl; [exact Hall|].
  intros blk [proj contribution] (psiSlice & d & Hrow & Hd & Hproj & Hblock & _).
  cbn [fst snd] in Hproj, Hblock. cbn zeta.
  destruct (energy_block_inv _ _ _ _ Hblock) as (density & fp & Hdensity & Hfp & Hinterp).
  assert (Hlen : 2 <= length (curE blk)).
  { destruct (le_lt_dec 2 (length (curE blk))) as [Hle|Hlt]; [exact Hle|].
    rewrite (density_energy_short _ Hlt) in Hdensity. discriminate. }
  destruct (density_energy_formula (curE blk) Hlen)
    as (density' & Hdensity' & Hdlen & Hfirst & Hmid & Hlast).
  rewrite Hdensity in Hdensity'. injection Hdensity' as <-.
  exists psiSlice, d, density, fp. now repeat split.
Qed.

(** C8, as the code has it.  On a configured object and well-shaped
    blocks, when the length [ceil((maxE - minE) / dE)] computed in the
    arithmetic of the code is [n], the grid returned by
    [CalculateEnergyDistribution] has [n] points (none when [n] is not
    positive): the first is [minE], the second is [minE + dE], and the
    point of index [i >= 2] is [minE + i * ((minE + dE) - minE)], all
    computed in that arithmetic; the distribution has the length of the
    grid; the contribution of each block is zero at every grid energy
    below all of, or above all of, the block's energies; and, zero plus
    zero being zero, so is the returned distribution where this holds
    for every block. *)
Theorem energy_grid_and_support
    (self : EigenstateAnalysis (F:=F) (C:=C) (Conf:=Conf))
    psi w cat (minE maxE dE : F) (n : Z) (st : State) :
  ceil_intp (fdiv (fsub maxE minE) dE) = Some n ->
  fadd (of_int 0) (of_int 0) = of_int 0 ->
  Logger self = true ->
  Eigenstate self = Some cat ->
  heap st !! psi = Some w ->
  forallb (block_ok (Representation_MultiplyOverlap w (GetData w)))
          (IterateStates cat (BoundThreshold self)) = true ->
  let data := Representation_MultiplyOverlap w (GetData w) in
  let blocks := IterateStates cat (BoundThreshold self) in
  let outside (x : F) (blk : Block) :=
    (forall e, e ∈ curE blk -> fltb x e = true)
    \/ (forall e, e ∈ curE blk -> fltb e x = true) in
  exists st' E energyDistr,
    CalculateEnergyDistribution self psi minE maxE dE st = (st', Ok (E, energyDistr)) /\
    length E = Z.to_nat n /\
    (forall x, E !! 0 = Some x -> x = minE) /\
    (forall x, E !! 1 = Some x -> x = fadd minE dE) /\
    (forall i x, 2 <= i -> E !! i = Some x ->
       x = fadd minE (fmul (of_int (Z.of_nat i)) (fsub (fadd minE dE) minE))) /\
    length energyDistr = length E /\
    (forall blk, blk ∈ blocks ->
       exists psiSlice d contribution,
         data !! angIdx blk = Some psiSlice /\
         dot_conj (curV blk) psiSlice = Ok d /\
         energy_block E (curE blk) (abs_squared d) = Ok contribution /\
         length contribution = length E /\
         forall i x, E !! i = Some x -> outside x blk ->
                     contribution !! i = Some (of_int 0)) /\
    (forall i x, E !! i = Some x -> (forall blk, blk ∈ blocks -> outside x blk) ->
       energyDistr !! i = Some (of_int 0)).
Proof.
  intros Hcount Hzero HLogger Heig Hpsi Hblocks data blocks outside.
  set (E := map (arange_item minE dE) (seq 0 (Z.to_nat n))).
  assert (Hgrid : r_ minE maxE dE = Ok E) by (unfold r_; now rewrite Hcount).
  assert (HlenE : length E = Z.to_nat n)
    by (unfold E; now rewrite length_map, length_seq).
  assert (Hitem : forall i x, E !! i = Some x -> x = arange_item minE dE i).
  { intros i x Hx. unfold E in Hx. rewrite list_lookup_fmap in Hx.
    destruct (seq 0 (Z.to_nat n) !! i) as [j|] eqn:Hj; [|discriminate].
    apply lookup_seq in Hj as [-> _]. now injection Hx as <-. }
  destruct (energy_distribution_run self psi w cat minE maxE dE E st
              HLogger Heig Hpsi Hgrid Hblocks)
    as (st' & energyDistr & totalIon & Hloop & Hlen & Hrun & _).
  exists st', E, energyDistr.
  split; [|split; [exact HlenE|split; [|split; [|split; [|split; [exact Hlen|split]]]]]].
  - unfold CalculateEnergyDistribution. now rewrite (bind_run _ _ _ _ _ Hrun).
  - intros x Hx. exact (Hitem 0 x Hx).
  - intros x Hx. exact (Hitem 1 x Hx).
  - intros i x Hi Hx. rewrite (Hitem i x Hx).
    destruct i as [|[|i]]; [lia | lia | reflexivity].
  - intros blk Hblk.
    assert (Hok : block_ok data blk = true).
    { unfold blocks in Hblk. rewrite forallb_forall in Hblocks.
      apply Hblocks. now apply list_elem_of_In. }
    destruct (energy_loop_body_ok data E [] (of_int 0) blk Hok)
      as (psiSlice & d & c & Hrow & Hd & Hc & Hclen & _).
    exists psiSlice, d, c. repeat split; try assumption.
    intros i x Hx Hx_out.
    exact (energy_block_outside _ _ _ _ _ _ Hc Hx Hx_out).
  - intros i x Hx Hall.
    apply (energy_loop_zero data E blocks i x Hzero Hx _ _ _ _ Hloop).
    + apply lookup_zeros. now apply lookup_lt_Some in Hx.
    + intros blk Hblk. apply Hall, Hblk.
Qed.

End EnergyClaims.


Lemma energy_distribution_weights_by_density_witness :
  exists st' (terms : list (list float * list float)),
    Analysis.CalculateEnergyDistribution Examples.self 0 10%float 12%float 1%float
      Examples.state
    = (st', Ok ([10; 11]%float,
                fold_left (fun acc term => zip_with fadd acc (snd term)) terms (zeros 2))) /\
    length terms = 1.
Proof.
  destruct (energy_distribution_weights_by_density Examples.self 0 Examples.psiA
              (Examples.catalog 1) 10%float 12%float 1%float [10; 11]%float
              Examples.state)
    as (st' & terms & Hrun & Hall);
    [reflexivity | reflexivity | reflexivity | reflexivity | reflexivity |].
  exists st', terms. split; [exact Hrun|].
  apply Forall2_length in Hall. symmetry. exact Hall.
Defined.

Lemma energy_grid_and_support_witness :
  exists st' E energyDistr,
    Analysis.CalculateEnergyDistribution Examples.self 0 10%float 12%float 1%float
      Examples.state
    = (st', Ok (E, energyDistr)) /\
    length E = 2 /\ length energyDistr = 2.
Proof.
  destruct (energy_grid_and_support Examples.self 0 Examples.psiA
              (Examples.catalog 1) 10%float 12%float 1%float 2 Examples.state)
    as (st' & E & energyDistr & Hrun & HlenE & _ & _ & _ & Hlen & _);
    [reflexivity | reflexivity | reflexivity | reflexivity | reflexivity | reflexivity |].
  exists st', E, energyDistr. split; [exact Hrun|]. split; [exact HlenE|].
  rewrite Hlen. exact HlenE.
Defined.

(** C8, as stated, fails in the arithmetic of the code.  For
    [minE = 1], [maxE = 13/10] and [dE = 1/10] as doubles (so
    [minE < maxE] and [dE > 0]) the grid returned has four points; the
    difference of its first two points is not [dE], and its last point
    lies above [maxE]. *)
Lemma energy_grid_not_spaced_by_dE :
  let minE := 1%float in
  let maxE := PrimFloat.div 13 10 in
  let dE := PrimFloat.div 1 10 in
  fltb minE maxE = true /\
  fltb (of_int 0) dE = true /\
  exists st' e0 e1 e2 e3 energyDistr,
    Analysis.CalculateEnergyDistribution Examples.self 0 minE maxE dE Examples.state
    = (st', Ok ([e0; e1; e2; e3], energyDistr)) /\
    fsub e1 e0 <> dE /\
    fltb dE (fsub e1 e0) = true /\
    fltb maxE e3 = true.
Proof.
  cbv zeta. split; [vm_compute; reflexivity|]. split; [vm_compute; reflexivity|].
  destruct (Analysis.CalculateEnergyDistribution Examples.self 0 1%float
              (PrimFloat.div 13 10) (PrimFloat.div 1 10) Examples.state)
    as [st' r] eqn:Hrun.
  vm_compute in Hrun. injection Hrun as <- <-.
  eexists _, _, _, _, _, _. split; [reflexivity|].
  split; [|split; vm_compute; reflexivity].
  intros Heq. apply (f_equal (fun y => PrimFloat.eqb y (PrimFloat.div 1 10))) in Heq.
  vm_compute in Heq. discriminate.
Qed.

(* ===================================================================== *)
(** * Invariants of monadic code                                        *)
(* ===================================================================== *)

Section Invariants.
Context {S : Type} (I : S -> Prop).

Lemma bind_preserves {A B} (c : M S A) (k : A -> M S B) :
  (forall s s' r, I s -> c s = (s', r) -> I s') ->
  (forall a s s' r, I s -> k a s = (s', r) -> I s') ->
  forall s s' r, I s -> (c ≫= k) s = (s', r) -> I s'.
Proof.
  intros Hc Hk s s' r Hs. unfold mbind, M_bind.
  destruct (c s) as [s1 [a|e]] eqn:Hcs.
  - intros Hks. exact (Hk a s1 s' r (Hc _ _ _ Hs Hcs) Hks).
  - intros [= <- <-]. exact (Hc _ _ _ Hs Hcs).
Qed.

(** The continuation only has to keep the invariant on the values the
    first computation can return. *)
Lemma bind_preserves_on {A B} (Q : A -> Prop) (c : M S A) (k : A -> M S B) :
  (forall s s' r, I s -> c s = (s', r) -> I s') ->
  (forall s s' a, c s = (s', Ok a) -> Q a) ->
  (forall a, Q a -> forall s s' r, I s -> k a s = (s', r) -> I s') ->
  forall s s' r, I s -> (c ≫= k) s = (s', r) -> I s'.
Proof.
  intros Hc HQ Hk s s' r Hs. unfold mbind, M_bind.
  destruct (c s) as [s1 [a|e]] eqn:Hcs.
  - intros Hks. exact (Hk a (HQ _ _ _ Hcs) s1 s' r (Hc _ _ _ Hs Hcs) Hks).
  - intros [= <- <-]. exact (Hc _ _ _ Hs Hcs).
Qed.

Lemma for_each_preserves {A} (f : A -> M S unit) (xs : list A) :
  (forall x, x ∈ xs -> forall s s' r, I s -> f x s = (s', r) -> I s') ->
  forall s s' r, I s -> for_each f xs s = (s', r) -> I s'.
Proof.
  induction xs as [|x xs IH]; intros Hf s s' r Hs.
  - intros [= <- <-]. exact Hs.
  - cbn [for_each]. apply bind_preserves; [|intros _|exact Hs].
    + apply Hf, list_elem_of_here.
    + apply IH. intros y Hy. apply Hf. now apply list_elem_of_further.
Qed.

Lemma foldM_preserves {A B} (f : B -> A -> M S B) (xs : list A) :
  (forall b x, x ∈ xs -> forall s s' r, I s -> f b x s = (s', r) -> I s') ->
  forall b s s' r, I s -> foldM f b xs s = (s', r) -> I s'.
Proof.
  induction xs as [|x xs IH]; intros Hf b s s' r Hs.
  - intros [= <- <-]. exact Hs.
  - cbn [foldM]. apply bind_preserves; [|intros b'|exact Hs].
    + apply Hf, list_elem_of_here.
    + apply IH. intros b0 y Hy. apply Hf. now apply list_elem_of_further.
Qed.

Lemma lift_preserves {A} (x : result A) s s' r : I s -> lift x s = (s', r) -> I s'.
Proof. intros Hs [= <- <-]. exact Hs. Qed.

Lemma mret_preserves {A} (a : A) s s' (r : result A) :
  I s -> (mret a : M S A) s = (s', r) -> I s'.
Proof. intros Hs [= <- <-]. exact Hs. Qed.

Lemma gets_preserves {A} (f : S -> A) s s' r : I s -> gets f s = (s', r) -> I s'.
Proof. intros Hs [= <- <-]. exact Hs. Qed.

Lemma try_except_preserves {A} (body handler : M S A) :
  (forall s s' r, I s -> body s = (s', r) -> I s') ->
  (forall s s' r, I s -> handler s = (s', r) -> I s') ->
  forall s s' r, I s -> try_except body handler s = (s', r) -> I s'.
Proof.
  intros Hb Hh s s' r Hs. unfold try_except.
  destruct (body s) as [s1 [a|e]] eqn:Hbs.
  - intros [= <- <-]. exact (Hb _ _ _ Hs Hbs).
  - intros Hhs. exact (Hh _ _ _ (Hb _ _ _ Hs Hbs) Hhs).
Qed.

Lemma try_finally_preserves {A} (body : M S A) (fin : M S unit) :
  (forall s s' r, I s -> body s = (s', r) -> I s') ->
  (forall s s' r, I s -> fin s = (s', r) -> I s') ->
  forall s s' r, I s -> try_finally body fin s = (s', r) -> I s'.
Proof.
  intros Hb Hf s s' r Hs. unfold try_finally.
  destruct (body s) as [s1 r1] eqn:Hbs.
  destruct (fin s1) as [s2 [u|e]] eqn:Hfs; intros [= <- <-];
    exact (Hf _ _ _ (Hb _ _ _ Hs Hbs) Hfs).
Qed.

End Invariants.

(* ===================================================================== *)
(** * The analysis never changes an existing object                     *)
(* ===================================================================== *)

Section ReadOnly.
Context {F C Conf : Type} {Ar : Arith F} {Cx : Cplx F C} {Np : Reductions F C}.

Import Analysis.

Variable loc : nat.
Variable x : Wavefunction (C:=C).

Local Abbreviation kept := (fun st : State (F:=F) (C:=C) => heap st !! loc = Some x).

Lemma MultiplyOverlap_keeps psi st st' r :
  kept st -> MultiplyOverlap psi st = (st', r) -> kept st'.
Proof.
  intros Hx. unfold MultiplyOverlap, mbind, M_bind, Copy.
  destruct (heap st !! psi) as [w|] eqn:Hpsi; [|intros [= <- <-]; exact Hx].
  unfold GetRepresentation_MultiplyOverlap. cbn [heap set_heap].
  rewrite lookup_insert_eq. intros [= <- <-]. cbn [heap set_heap].
  assert (Hne : fresh (dom (heap st)) <> loc).
  { intros Heq. pose proof (is_fresh (dom (heap st))) as Hfresh.
    rewrite Heq in Hfresh. apply Hfresh, elem_of_dom. exists x. exact Hx. }
  now rewrite !lookup_insert_ne by exact Hne.
Qed.

Lemma call_Logger_keeps (self : EigenstateAnalysis (F:=F) (C:=C) (Conf:=Conf)) msg st st' r :
  kept st -> call_Logger self msg st = (st', r) -> kept st'.
Proof.
  intros Hx. unfold call_Logger. destruct (Logger self); intros [= <- <-]; exact Hx.
Qed.

Lemma get_Eigenstate_keeps (self : EigenstateAnalysis (F:=F) (C:=C) (Conf:=Conf)) st st' r :
  kept st -> get_Eigenstate self st = (st', r) -> kept st'.
Proof.
  intros Hx. unfold get_Eigenstate. destruct (Eigenstate self); intros [= <- <-]; exact Hx.
Qed.

Lemma read_data_keeps psi st st' r : kept st -> read_data psi st = (st', r) -> kept st'.
Proof.
  intros Hx. unfold read_data. destruct (heap st !! psi); intros [= <- <-]; exact Hx.
Qed.

Lemma print_keeps (v : F) st st' r : kept st -> print v st = (st', r) -> kept st'.
Proof. intros Hx [= <- <-]. exact Hx. Qed.

Lemma energy_locals_keeps (self : EigenstateAnalysis (F:=F) (C:=C) (Conf:=Conf))
    psi minE maxE dE st st' r :
  kept st -> CalculateEnergyDistribution_locals self psi minE maxE dE st = (st', r) ->
  kept st'.
Proof.
  unfold CalculateEnergyDistribution_locals.
  apply (bind_preserves kept); [apply call_Logger_keeps | intros _].
  apply (bind_preserves kept); [apply MultiplyOverlap_keeps | intros overlapPsi].
  apply (bind_preserves kept); [apply lift_preserves | intros E].
  apply (bind_preserves kept); [apply get_Eigenstate_keeps | intros eig].
  apply (bind_preserves kept); [apply read_data_keeps | intros data].
  apply (bind_preserves kept); [apply lift_preserves | intros [energyDistr totalIon]].
  apply (bind_preserves kept); [apply print_keeps | intros _].
  apply (bind_preserves kept); [apply print_keeps | intros _].
  apply mret_preserves.
Qed.

Lemma bound_distribution_keeps (self : EigenstateAnalysis (F:=F) (C:=C) (Conf:=Conf))
    psi st st' r :
  kept st -> CalculateBoundDistribution self psi st = (st', r) -> kept st'.
Proof.
  unfold CalculateBoundDistribution.
  apply (bind_preserves kept); [apply MultiplyOverlap_keeps | intros overlapPsi].
  apply (bind_preserves kept); [apply get_Eigenstate_keeps | intros eig].
  apply (bind_preserves kept); [apply read_data_keeps | intros data].
  apply (bind_preserves kept);
    [apply lift_preserves | intros [[[boundDistr boundE] boundV] boundTotal]].
  apply mret_preserves.
Qed.

End ReadOnly.

Section ReadOnlyClaim.
Context {F C Conf : Type} {Ar : Arith F} {Cx : Cplx F C} {Np : Reductions F C}.

Import Analysis.

(** X1.  [CalculateEnergyDistribution], [CalculateBoundDistribution] and
    [CalculateBoundProbability] work on a copy of the wavefunction:
    whatever they return or raise, every object that existed before the
    call, the wavefunction [psi] included, is unchanged after it. *)
Theorem analysis_keeps_existing_objects
    (self : EigenstateAnalysis (F:=F) (C:=C) (Conf:=Conf)) psi minE maxE dE
    (st : State) loc (x : Wavefunction) :
  heap st !! loc = Some x ->
  heap (fst (CalculateEnergyDistribution self psi minE maxE dE st)) !! loc = Some x /\
  heap (fst (CalculateBoundDistribution self psi st)) !! loc = Some x /\
  heap (fst (CalculateBoundProbability self psi st)) !! loc = Some x.
Proof.
  intros Hx. split; [|split].
  - destruct (CalculateEnergyDistribution self psi minE maxE dE st) as [st' r] eqn:Hrun.
    revert Hrun. unfold CalculateEnergyDistribution.
    apply (bind_preserves (fun s => heap s !! loc = Some x));
      [apply energy_locals_keeps | intros locals; apply mret_preserves | exact Hx].
  - destruct (CalculateBoundDistribution self psi st) as [st' r] eqn:Hrun.
    exact (bound_distribution_keeps loc x self psi st st' r Hx Hrun).
  - destruct (CalculateBoundProbability self psi st) as [st' r] eqn:Hrun.
    revert Hrun. unfold CalculateBoundProbability.
    apply (bind_preserves (fun s => heap s !! loc = Some x));
      [apply bound_distribution_keeps | | exact Hx].
    intros [[[boundE boundV] boundDistr] boundTotal]. apply mret_preserves.
Qed.

End ReadOnlyClaim.

Lemma analysis_keeps_existing_objects_witness :
  Analysis.heap
    (fst (Analysis.CalculateEnergyDistribution Examples.self 0 10%float 12%float 1%float
            Examples.state)) !! 1
  = Some Examples.psiB.
Proof.
  apply (analysis_keeps_existing_objects Examples.self 0 10%float 12%float 1%float
           Examples.state 1 Examples.psiB).
  reflexivity.
Defined.

(* ===================================================================== *)
(** * The bound-state distribution                                      *)
(* ===================================================================== *)

Section BoundFacts.
Context {F C Conf : Type} {Ar : Arith F} {Cx : Cplx F C} {Np : Reductions F C}.

Import Analysis.

Local Abbreviation bound_shape data :=
  (fun blk : Block (F:=F) (C:=C) =>
     match data !! angIdx blk with
     | Some psiSlice => forallb (fun v => Nat.eqb (length v) (length psiSlice)) (curV blk)
     | None => false
     end).

Local Abbreviation bound_total :=
  (fold_left (fun (t : F) (proj : list C) => fadd t (np_sum (abs_squared proj)))).

Lemma bound_loop_ok (data : list (list C)) blocks :
  forall boundDistr boundE boundV (boundTotal : F),
    forallb (bound_shape data) blocks = true ->
    exists projs,
      foldR (bound_loop_body data) (boundDistr, boundE, boundV, boundTotal) blocks
      = Ok (boundDistr ++ projs, boundE ++ map curE blocks, boundV ++ map curV blocks,
            bound_total projs boundTotal) /\
      Forall2 (fun blk proj =>
                 length proj = length (curV blk) /\
                 exists psiSlice, data !! angIdx blk = Some psiSlice /\
                                  dot_conj (curV blk) psiSlice = Ok proj)
              blocks projs.
Proof.
  induction blocks as [|blk rest IH]; intros bd be bv t Hall.
  - exists []. rewrite !app_nil_r. split; [reflexivity | constructor].
  - cbn [forallb] in Hall. apply andb_prop in Hall as [Hblk Hrest].
    destruct (data !! angIdx blk) as [psiSlice|] eqn:Hrow; [|discriminate].
    destruct (dot_conj_ok _ _ Hblk) as (proj & Hproj & Hlen).
    destruct (IH (bd ++ [proj]) (be ++ [curE blk]) (bv ++ [curV blk])
                 (fadd t (np_sum (abs_squared proj))) Hrest) as (projs & Hloop & Hall2).
    exists (proj :: projs). split.
    + assert (Hbody : bound_loop_body data (bd, be, bv, t) blk
                      = Ok (bd ++ [proj], be ++ [curE blk], bv ++ [curV blk],
                            fadd t (np_sum (abs_squared proj)))).
      { unfold bound_loop_body. rewrite py_index_nat, Hrow. cbn [mbind result_bind].
        now rewrite Hproj. }
      cbn [foldR]. rewrite Hbody. cbn [mbind result_bind]. rewrite Hloop.
      cbn [map fold_left]. now rewrite <- !app_assoc.
    + constructor; [|exact Hall2]. split; [exact Hlen|]. now exists psiSlice.
Qed.

(** X2.  On an analysis object that holds eigenstates, for a wavefunction
    whose overlap data has, for every bound block, a row of the length of
    the block's eigenvectors: [CalculateBoundDistribution] returns, in
    the order of [IterateBoundStates], the energies of the blocks, their
    eigenvectors and their projections
    [dot(conj(curV.transpose()), psiSlice)], and as total the sums
    [sum(abs(proj)**2)] accumulated block after block from [0];
    [CalculateBoundProbability] returns that total, with the same final
    state; nothing is printed or logged. *)
Theorem bound_distribution_result
    (self : EigenstateAnalysis (F:=F) (C:=C) (Conf:=Conf)) psi w cat (st : State) :
  Eigenstate self = Some cat ->
  heap st !! psi = Some w ->
  let data := Representation_MultiplyOverlap w (GetData w) in
  let blocks := IterateBoundStates cat (BoundThreshold self) in
  forallb (fun blk =>
             match data !! angIdx blk with
             | Some psiSlice =>
                 forallb (fun v => Nat.eqb (length v) (length psiSlice)) (curV blk)
             | None => false
             end) blocks = true ->
  exists st' projs,
    CalculateBoundDistribution self psi st
    = (st', Ok (map curE blocks, map curV blocks, projs,
                fold_left (fun t proj => fadd t (np_sum (abs_squared proj)))
                          projs (of_int 0))) /\
    CalculateBoundProbability self psi st
    = (st', Ok (fold_left (fun t proj => fadd t (np_sum (abs_squared proj)))
                          projs (of_int 0))) /\
    Forall2 (fun blk proj =>
               length proj = length (curV blk) /\
               exists psiSlice, data !! angIdx blk = Some psiSlice /\
                                dot_conj (curV blk) psiSlice = Ok proj)
            blocks projs /\
    stdout st' = stdout st /\
    logged st' = logged st.
Proof.
  intros Heig Hpsi data blocks Hshape.
  destruct (bound_loop_ok data blocks [] [] [] (of_int 0) Hshape)
    as (projs & Hloop & Hall).
  pose proof (MultiplyOverlap_run psi w st Hpsi) as H1. cbn zeta in H1.
  set (out := fresh (dom (heap st))) in *.
  match type of H1 with _ = (?s, _) => set (s1 := s) in * end.
  assert (H2 : get_Eigenstate self s1 = (s1, Ok cat))
    by (unfold get_Eigenstate; now rewrite Heig).
  assert (H3 : read_data out s1 = (s1, Ok data)).
  { unfold read_data, s1. cbn [heap set_heap]. now rewrite lookup_insert_eq. }
  assert (H4 : lift (foldR (bound_loop_body data) ([], [], [], of_int 0) blocks) s1
               = (s1, Ok (projs, map curE blocks, map curV blocks,
                          fold_left (fun t proj => fadd t (np_sum (abs_squared proj)))
                                    projs (of_int 0))))
    by (unfold lift; now rewrite Hloop).
  assert (Hrun : CalculateBoundDistribution self psi st
                 = (s1, Ok (map curE blocks, map curV blocks, projs,
                            fold_left (fun t proj => fadd t (np_sum (abs_squared proj)))
                                      projs (of_int 0)))).
  { unfold CalculateBoundDistribution.
    rewrite (bind_run _ _ _ _ _ H1), (bind_run _ _ _ _ _ H2), (bind_run _ _ _ _ _ H3).
    fold blocks. now rewrite (bind_run _ _ _ _ _ H4). }
  exists s1, projs. split; [exact Hrun|]. split.
  - unfold CalculateBoundProbability. now rewrite (bind_run _ _ _ _ _ Hrun).
  - split; [exact Hall|]. split; reflexivity.
Qed.

End BoundFacts.


Lemma bound_distribution_result_witness :
  exists st' projs,
    Analysis.CalculateBoundProbability Examples.selfBound 0 Examples.state
    = (st', Ok (fold_left (fun t proj => fadd t (np_sum (Analysis.abs_squared proj)))
                          projs (of_int 0))) /\
    length projs = 1.
Proof.
  destruct (bound_distribution_result Examples.selfBound 0 Examples.psiA
              Examples.catalogBound Examples.state)
    as (st' & projs & _ & Hrun & Hall & _);
    try reflexivity.
  exists st', projs. split; [exact Hrun|].
  apply Forall2_length in Hall. symmetry. exact Hall.
Defined.

(* ===================================================================== *)
(** * Removing the projection on the bound states                       *)
(* ===================================================================== *)

Section RemoveProjection.
Context {F C Conf : Type} {Ar : Arith F} {Cx : Cplx F C} {Np : Reductions F C} {Cs : CSub C}.

Import Analysis.

Variable st : State (F:=F) (C:=C).
Variable psi : nat.
Variable w : Wavefunction (C:=C).
Variable blocks : list (Block (F:=F) (C:=C)).

(** What the in-place removal keeps: the object [psi] keeps its
    representation, its number of rows and the length of every row, and
    the rows that are no block's [angIdx]; the other objects that existed
    in [st], the standard output and the log are as in [st]. *)
Local Abbreviation framed := (fun s : State (F:=F) (C:=C) =>
  (exists w',
     heap s !! psi = Some w' /\
     Representation_MultiplyOverlap w' = Representation_MultiplyOverlap w /\
     length (GetData w') = length (GetData w) /\
     (forall r, (forall blk, blk ∈ blocks -> angIdx blk <> r) ->
                GetData w' !! r = GetData w !! r) /\
     (forall r row, GetData w !! r = Some row ->
                    exists row', GetData w' !! r = Some row' /\ length row' = length row)) /\
  (forall loc x, loc <> psi -> heap st !! loc = Some x -> heap s !! loc = Some x) /\
  stdout s = stdout st /\
  logged s = logged st).

Lemma subtract_from_row_framed blk p v s s' r :
  blk ∈ blocks -> framed s ->
  subtract_from_row psi (angIdx blk) p v s = (s', r) -> framed s'.
Proof.
  intros Hblk Hs.
  pose proof Hs as ((w' & Hpsi & Hrep & Hlen & Hrows & Hshape) & Hothers & Hout & Hlog).
  unfold subtract_from_row. rewrite Hpsi.
  destruct (GetData w' !! angIdx blk) as [row|] eqn:Hrow;
    [|intros [= <- <-]; exact Hs].
  assert (Hstore : forall row', length row' = length row ->
            framed (set_heap <[psi := {| GetData := <[angIdx blk := row']> (GetData w');
                                        Representation_MultiplyOverlap :=
                                          Representation_MultiplyOverlap w' |}]> s)).
  { intros row' Hrow'. cbn [heap set_heap stdout logged]. split; [|split; [|split]].
    - eexists. split; [apply lookup_insert_eq|]. cbn [GetData Representation_MultiplyOverlap].
      split; [exact Hrep|]. split; [now rewrite length_insert|]. split.
      + intros r0 Hr0. rewrite list_lookup_insert_ne by (apply Hr0, Hblk). now apply Hrows.
      + intros r0 row0 Hrow0. destruct (Hshape r0 row0 Hrow0) as (row1 & Hrow1 & Hlen1).
        destruct (decide (angIdx blk = r0)) as [<-|Hne].
        * exists row'. split; [|congruence].
          apply list_lookup_insert_eq. now apply lookup_lt_Some in Hrow.
        * exists row1. now rewrite list_lookup_insert_ne by exact Hne.
    - intros loc x Hloc Hx. rewrite lookup_insert_ne by congruence. now apply Hothers.
    - exact Hout.
    - exact Hlog. }
  destruct (decide (length (map (cmul p) v) = length row)) as [Heq|Hne].
  - intros [= <- <-]. apply Hstore. rewrite length_zip_with. lia.
  - destruct (map (cmul p) v) as [|y [|? ?]];
      try (intros [= <- <-]; exact Hs).
    intros [= <- <-]. apply Hstore. apply length_map.
Qed.

Lemma remove_loop_body_framed overlapPsi blk s s' r :
  blk ∈ blocks -> framed s ->
  remove_loop_body psi overlapPsi blk s = (s', r) -> framed s'.
Proof.
  intros Hblk. unfold remove_loop_body.
  apply (bind_preserves framed).
  { intros s0 s1 r0 Hs0. unfold read_data.
    destruct (heap s0 !! overlapPsi); intros [= <- <-]; exact Hs0. }
  intros data. apply (bind_preserves framed); [apply lift_preserves | intros psiSlice].
  apply (bind_preserves framed); [apply lift_preserves | intros proj].
  apply (for_each_preserves framed). intros pv _ s0 s1 r0.
  now apply subtract_from_row_framed.
Qed.

End RemoveProjection.

Section RemoveProjectionClaim.
Context {F C Conf : Type} {Ar : Arith F} {Cx : Cplx F C} {Np : Reductions F C} {Cs : CSub C}.

Import Analysis.

(** X3.  Whatever [RemoveProjectionOnBoundStates] returns or raises, on
    an object that holds eigenstates and for an existing wavefunction
    [psi]: [psi] keeps its representation, its number of rows and the
    length of every row; its rows that are no bound block's [angIdx] are
    unchanged; every other object that existed before the call is
    unchanged; nothing is printed or logged. *)
Theorem remove_projection_frame
    (self : EigenstateAnalysis (F:=F) (C:=C) (Conf:=Conf)) psi w cat (st : State) :
  heap st !! psi = Some w ->
  Eigenstate self = Some cat ->
  let blocks := IterateBoundStates cat (BoundThreshold self) in
  let st' := fst (RemoveProjectionOnBoundStates self psi st) in
  (exists w',
     heap st' !! psi = Some w' /\
     Representation_MultiplyOverlap w' = Representation_MultiplyOverlap w /\
     length (GetData w') = length (GetData w) /\
     (forall r, (forall blk, blk ∈ blocks -> angIdx blk <> r) ->
                GetData w' !! r = GetData w !! r) /\
     (forall r row, GetData w !! r = Some row ->
                    exists row', GetData w' !! r = Some row' /\ length row' = length row)) /\
  (forall loc x, loc <> psi -> heap st !! loc = Some x -> heap st' !! loc = Some x) /\
  stdout st' = stdout st /\
  logged st' = logged st.
Proof.
  intros Hpsi Heig blocks st'.
  pose proof (MultiplyOverlap_run psi w st Hpsi) as Hmul. cbn zeta in Hmul.
  set (out := fresh (dom (heap st))) in *.
  assert (Hfresh : heap st !! out = None) by (apply not_elem_of_dom, is_fresh).
  assert (Hne : out <> psi) by congruence.
  match type of Hmul with _ = (?s, _) => set (s2 := s) in * end.
  set (Inv := fun s : State (F:=F) (C:=C) =>
    (exists w',
     heap s !! psi = Some w' /\
     Representation_MultiplyOverlap w' = Representation_MultiplyOverlap w /\
     length (GetData w') = length (GetData w) /\
     (forall r, (forall blk, blk ∈ blocks -> angIdx blk <> r) ->
                GetData w' !! r = GetData w !! r) /\
     (forall r row, GetData w !! r = Some row ->
                    exists row', GetData w' !! r = Some row' /\ length row' = length row)) /\
    (forall loc x, loc <> psi -> heap st !! loc = Some x -> heap s !! loc = Some x) /\
    stdout s = stdout st /\ logged s = logged st).
  assert (Hs2 : Inv s2).
  { unfold Inv, s2. cbn [heap set_heap stdout logged]. split; [|split; [|split; reflexivity]].
    - exists w. rewrite !lookup_insert_ne by exact Hne.
      repeat split; try assumption; try reflexivity. intros r row Hrow. now exists row.
    - intros loc x Hloc Hx. rewrite !lookup_insert_ne by congruence. exact Hx. }
  subst st'. unfold RemoveProjectionOnBoundStates.
  rewrite (bind_run _ _ _ _ _ Hmul).
  assert (Hget : get_Eigenstate self s2 = (s2, Ok cat))
    by (unfold get_Eigenstate; now rewrite Heig).
  rewrite (bind_run _ _ _ _ _ Hget).
  destruct (for_each (remove_loop_body psi out) (IterateBoundStates cat (BoundThreshold self)) s2)
    as [s3 r] eqn:Hloop.
  cbn [fst]. change (Inv s3). revert Hloop.
  apply (for_each_preserves Inv (remove_loop_body psi out)); [|exact Hs2].
  intros blk Hblk s s' r0. unfold Inv.
  now apply (remove_loop_body_framed st psi w blocks).
Qed.

End RemoveProjectionClaim.

Lemma remove_projection_frame_witness :
  Analysis.heap
    (fst (Analysis.RemoveProjectionOnBoundStates Examples.selfBound 0 Examples.state)) !! 1
  = Some Examples.psiB.
Proof.
  destruct (remove_projection_frame Examples.selfBound 0 Examples.psiA
              Examples.catalogBound Examples.state)
    as (_ & Hothers & _);
    [reflexivity | reflexivity |].
  apply Hothers; [discriminate | reflexivity].
Defined.

Section RemoveResult.
Context {F C Conf : Type} {Ar : Arith F} {Cx : Cplx F C} {Np : Reductions F C} {Cs : CSub C}.

Import Analysis.

Local Abbreviation subtract :=
  (fun (row : list C) (pv : C * list C) => zip_with csub row (map (cmul (fst pv)) (snd pv))).

Local Abbreviation updated s s' psi wcur idx row' :=
  (exists w',
     heap s' !! psi = Some w' /\
     GetData w' = <[idx := row']> (GetData wcur) /\
     Representation_MultiplyOverlap w' = Representation_MultiplyOverlap wcur /\
     (forall loc, loc <> psi -> heap s' !! loc = heap s !! loc) /\
     stdout s' = stdout s /\ logged s' = logged s).

Lemma subtract_rows_run psi idx (pvs : list (C * list C)) :
  forall (s : State (F:=F) (C:=C)) wcur row,
    heap s !! psi = Some wcur ->
    GetData wcur !! idx = Some row ->
    Forall (fun pv => length (snd pv) = length row) pvs ->
    exists s',
      for_each (fun pv : C * list C => subtract_from_row psi idx (fst pv) (snd pv)) pvs s
      = (s', Ok tt) /\
      updated s s' psi wcur idx (fold_left subtract pvs row).
Proof.
  induction pvs as [|[p v] pvs IH]; intros s wcur row Hpsi Hrow Hlens.
  - exists s. split; [reflexivity|]. exists wcur. cbn [fold_left].
    rewrite list_insert_id by exact Hrow. now repeat split.
  - apply Forall_cons in Hlens as [Hlen Hlens]. cbn [fst snd] in Hlen.
    set (row1 := zip_with csub row (map (cmul p) v)).
    assert (Hrow1 : length row1 = length row)
      by (unfold row1; rewrite length_zip_with, length_map; lia).
    set (w1 := {| GetData := <[idx := row1]> (GetData wcur);
                  Representation_MultiplyOverlap := Representation_MultiplyOverlap wcur |}).
    set (s1 := set_heap <[psi := w1]> s).
    assert (Hstep : subtract_from_row psi idx p v s = (s1, Ok tt)).
    { unfold subtract_from_row. rewrite Hpsi, Hrow.
      rewrite decide_True by (rewrite length_map; exact Hlen). reflexivity. }
    destruct (IH s1 w1 row1) as (s' & Hrun & w' & Hw' & Hdata & Hrep & Hothers & Hout & Hlog).
    + unfold s1. cbn [heap set_heap]. apply lookup_insert_eq.
    + unfold w1. cbn [GetData]. apply list_lookup_insert_eq. now apply lookup_lt_Some in Hrow.
    + eapply Forall_impl; [exact Hlens|]. intros pv Hpv. cbn beta in *. congruence.
    + exists s'. split.
      * cbn [for_each fst snd]. now rewrite (bind_run _ _ _ _ _ Hstep).
      * exists w'. split; [exact Hw'|]. split.
        { rewrite Hdata. unfold w1. cbn [GetData fold_left fst snd].
          now rewrite list_insert_insert_eq. }
        split; [exact Hrep|]. split; [|split; [exact Hout | exact Hlog]].
        intros loc Hloc. rewrite Hothers by exact Hloc.
        unfold s1. cbn [heap set_heap]. now rewrite lookup_insert_ne by congruence.
Qed.

Variable psi out : nat.
Hypothesis Hdistinct : out <> psi.
Variable data : list (list C).

Local Abbreviation shaped rows :=
  (fun blk : Block (F:=F) (C:=C) =>
     match data !! angIdx blk, rows !! angIdx blk with
     | Some psiSlice, Some row =>
         forallb (fun v => Nat.eqb (length v) (length psiSlice)
                           && Nat.eqb (length v) (length row)) (curV blk)
     | _, _ => false
     end).

Local Abbreviation removed rows rows' :=
  (fun blk : Block (F:=F) (C:=C) =>
     exists psiSlice proj (row : list C),
       data !! angIdx blk = Some psiSlice /\
       dot_conj (curV blk) psiSlice = Ok proj /\
       rows !! angIdx blk = Some row /\
       rows' !! angIdx blk = Some (fold_left subtract (zip proj (curV blk)) row)).

Lemma remove_loop_run (blocks : list (Block (F:=F) (C:=C))) :
  NoDup (map angIdx blocks) ->
  forall (s : State (F:=F) (C:=C)) wcur wout,
    heap s !! psi = Some wcur ->
    heap s !! out = Some wout ->
    GetData wout = data ->
    forallb (shaped (GetData wcur)) blocks = true ->
    exists s' w',
      for_each (remove_loop_body psi out) blocks s = (s', Ok tt) /\
      heap s' !! psi = Some w' /\
      heap s' !! out = Some wout /\
      Representation_MultiplyOverlap w' = Representation_MultiplyOverlap wcur /\
      (forall blk, blk ∈ blocks -> removed (GetData wcur) (GetData w') blk) /\
      (forall r, r ∉ map angIdx blocks -> GetData w' !! r = GetData wcur !! r) /\
      (forall loc, loc <> psi -> heap s' !! loc = heap s !! loc) /\
      stdout s' = stdout s /\ logged s' = logged s.
Proof.
  induction blocks as [|blk rest IH]; intros Hnodup s wcur wout Hpsi Hout Hdata Hshape.
  - exists s, wcur. split; [reflexivity|]. repeat split; try assumption.
    intros blk Hblk. now apply elem_of_nil in Hblk.
  - cbn [map] in Hnodup. apply NoDup_cons in Hnodup as [Hfresh Hnodup].
    cbn [forallb] in Hshape. apply andb_prop in Hshape as [Hblk Hrest].
    destruct (data !! angIdx blk) as [psiSlice|] eqn:Hslice; [|discriminate].
    destruct (GetData wcur !! angIdx blk) as [row|] eqn:Hrow; [|discriminate].
    assert (Hdot : forallb (fun v => Nat.eqb (length v) (length psiSlice)) (curV blk) = true).
    { apply forallb_forall. intros v Hv. rewrite forallb_forall in Hblk.
      specialize (Hblk v Hv). now apply andb_prop in Hblk as [? _]. }
    destruct (dot_conj_ok _ _ Hdot) as (proj & Hproj & _).
    assert (Hlens : Forall (fun pv : C * list C => length (snd pv) = length row)
                           (zip proj (curV blk))).
    { apply Forall_forall. intros [p v] Hpv. cbn [snd].
      apply elem_of_zip_r, list_elem_of_In in Hpv. rewrite forallb_forall in Hblk.
      specialize (Hblk v Hpv). apply andb_prop in Hblk as [_ Hv]. now apply Nat.eqb_eq in Hv. }
    destruct (subtract_rows_run psi (angIdx blk) (zip proj (curV blk)) s wcur row
                Hpsi Hrow Hlens)
      as (s1 & Hinner & w1 & Hw1 & Hdata1 & Hrep1 & Hothers1 & Hout1 & Hlog1).
    assert (Hbody : remove_loop_body psi out blk s = (s1, Ok tt)).
    { unfold remove_loop_body.
      assert (R1 : read_data out s = (s, Ok data))
        by (unfold read_data; rewrite Hout; now rewrite Hdata).
      assert (R2 : lift (py_index data (Z.of_nat (angIdx blk))) s = (s, Ok psiSlice))
        by (unfold lift; now rewrite py_index_nat, Hslice).
      assert (R3 : lift (dot_conj (curV blk) psiSlice) s = (s, Ok proj))
        by (unfold lift; now rewrite Hproj).
      rewrite (bind_run _ _ _ _ _ R1), (bind_run _ _ _ _ _ R2), (bind_run _ _ _ _ _ R3).
      exact Hinner. }
    assert (Hkeep : forall r, r <> angIdx blk -> GetData w1 !! r = GetData wcur !! r).
    { intros r Hr. rewrite Hdata1. now rewrite list_lookup_insert_ne by congruence. }
    assert (Hmine : GetData w1 !! angIdx blk
                    = Some (fold_left subtract (zip proj (curV blk)) row)).
    { rewrite Hdata1. apply list_lookup_insert_eq. now apply lookup_lt_Some in Hrow. }
    assert (Hrest1 : forallb (shaped (GetData w1)) rest = true).
    { apply forallb_forall. intros b Hb. rewrite forallb_forall in Hrest.
      specialize (Hrest b Hb). rewrite Hkeep; [exact Hrest|].
      intros Heq. apply Hfresh. rewrite <- Heq.
      apply list_elem_of_fmap_2. now apply list_elem_of_In. }
    destruct (IH Hnodup s1 w1 wout Hw1) as
      (s' & w' & Hrun & Hw' & Hout' & Hrep' & Hdone & Hrows & Hothers & Hstd & Hlog);
      [rewrite Hothers1 by exact Hdistinct; exact Hout | exact Hdata | exact Hrest1 |].
    exists s', w'. split.
    { cbn [for_each]. now rewrite (bind_run _ _ _ _ _ Hbody). }
    split; [exact Hw'|]. split; [exact Hout'|]. split; [congruence|].
    split; [|split; [|split; [|split; congruence]]].
    + intros b Hb. apply elem_of_cons in Hb as [->|Hb].
      * exists psiSlice, proj, row. repeat split; try assumption.
        rewrite Hrows by exact Hfresh. exact Hmine.
      * destruct (Hdone b Hb) as (ps & pr & rw & Hps & Hpr & Hrw & Hfin).
        exists ps, pr, rw. repeat split; try assumption.
        rewrite <- Hkeep; [exact Hrw|].
        intros Heq. apply Hfresh. rewrite <- Heq. now apply list_elem_of_fmap_2.
    + intros r Hr. cbn [map] in Hr. apply not_elem_of_cons in Hr as [Hr1 Hr2].
      rewrite Hrows by exact Hr2. now apply Hkeep.
    + intros loc Hloc. rewrite Hothers by exact Hloc. now apply Hothers1.
Qed.

End RemoveResult.

Section RemoveResultClaim.
Context {F C Conf : Type} {Ar : Arith F} {Cx : Cplx F C} {Np : Reductions F C} {Cs : CSub C}.

Import Analysis.

(** X4.  When the bound blocks have pairwise different [angIdx] and, for
    each block, the eigenvectors have the length of the block's overlap
    row and of the block's row of [psi], [RemoveProjectionOnBoundStates]
    returns normally, and the row [angIdx] of [psi] becomes the old row
    minus [p * v] for each projection [p] and eigenvector [v] of the
    block, subtracted in order; the projections are those of the overlap
    data of the wavefunction as it was before the call. *)
Theorem remove_projection_result
    (self : EigenstateAnalysis (F:=F) (C:=C) (Conf:=Conf)) psi w cat (st : State) :
  heap st !! psi = Some w ->
  Eigenstate self = Some cat ->
  let data := Representation_MultiplyOverlap w (GetData w) in
  let blocks := IterateBoundStates cat (BoundThreshold self) in
  NoDup (map angIdx blocks) ->
  forallb (fun blk =>
             match data !! angIdx blk, GetData w !! angIdx blk with
             | Some psiSlice, Some row =>
                 forallb (fun v => Nat.eqb (length v) (length psiSlice)
                                   && Nat.eqb (length v) (length row)) (curV blk)
             | _, _ => false
             end) blocks = true ->
  exists st' w',
    RemoveProjectionOnBoundStates self psi st = (st', Ok tt) /\
    heap st' !! psi = Some w' /\
    forall blk, blk ∈ blocks ->
      exists psiSlice proj row,
        data !! angIdx blk = Some psiSlice /\
        dot_conj (curV blk) psiSlice = Ok proj /\
        GetData w !! angIdx blk = Some row /\
        GetData w' !! angIdx blk
        = Some (fold_left (fun r pv => zip_with csub r (map (cmul (fst pv)) (snd pv)))
                          (zip proj (curV blk)) row).
Proof.
  intros Hpsi Heig data blocks Hnodup Hshape.
  pose proof (MultiplyOverlap_run psi w st Hpsi) as Hmul. cbn zeta in Hmul.
  set (out := fresh (dom (heap st))) in *.
  assert (Hfresh : heap st !! out = None) by (apply not_elem_of_dom, is_fresh).
  assert (Hne : out <> psi) by congruence.
  match type of Hmul with _ = (?s, _) => set (s2 := s) in * end.
  assert (Hget : get_Eigenstate self s2 = (s2, Ok cat))
    by (unfold get_Eigenstate; now rewrite Heig).
  destruct (remove_loop_run psi out Hne data blocks Hnodup s2 w
              {| GetData := data;
                 Representation_MultiplyOverlap := Representation_MultiplyOverlap w |})
    as (st' & w' & Hrun & Hw' & _ & _ & Hdone & _).
  - unfold s2. cbn [heap set_heap]. now rewrite !lookup_insert_ne by exact Hne.
  - unfold s2. cbn [heap set_heap]. apply lookup_insert_eq.
  - reflexivity.
  - exact Hshape.
  - exists st', w'. split; [|split; [exact Hw' | exact Hdone]].
    unfold RemoveProjectionOnBoundStates.
    now rewrite (bind_run _ _ _ _ _ Hmul), (bind_run _ _ _ _ _ Hget).
Qed.

End RemoveResultClaim.

Lemma remove_projection_result_witness :
  exists st' w',
    Analysis.RemoveProjectionOnBoundStates Examples.selfBound 0 Examples.state
    = (st', Ok tt) /\
    Analysis.heap st' !! 0 = Some w'.
Proof.
  destruct (remove_projection_result Examples.selfBound 0 Examples.psiA
              Examples.catalogBound Examples.state)
    as (st' & w' & Hrun & Hw' & _);
    try reflexivity.
  - apply NoDup_singleton.
  - exists st', w'. split; [exact Hrun | exact Hw'].
Defined.

(* ===================================================================== *)
(** * The logger of the analysis objects                                *)
(* ===================================================================== *)

Section LoggerFacts.
Context {F C Conf : Type} {Ar : Arith F} {Cx : Cplx F C} {Np : Reductions F C}.

Import Analysis.

Variable Eigenstates : Conf -> result (Catalog (F:=F) (C:=C)).
Variable FromMultipleFiles : list string -> result (Catalog (F:=F) (C:=C)).

(** X5.  Neither the constructors nor [Setup] assign [self.Logger]: on an
    object built by [EigenstateAnalysis.__init__] or by
    [CoulombwaveAnalysis.__init__] and passed through its [Setup],
    whether [Setup] returned or raised, [CalculateEnergyDistribution]
    raises [AttributeError] at its first statement and changes
    nothing. *)
Theorem energy_distribution_needs_logger
    (conf : Conf) Z fileList psi (minE maxE dE : F) (st : State (F:=F) (C:=C)) :
  CalculateEnergyDistribution
    (fst (EigenstateAnalysis_Setup Eigenstates (EigenstateAnalysis_init conf)))
    psi minE maxE dE st
  = (st, Raise AttributeError) /\
  CalculateEnergyDistribution
    (base (fst (Setup FromMultipleFiles (CoulombwaveAnalysis_init conf Z fileList))))
    psi minE maxE dE st
  = (st, Raise AttributeError).
Proof.
  assert (Hcall : forall (self : EigenstateAnalysis (F:=F) (C:=C) (Conf:=Conf)),
            Logger self = false ->
            CalculateEnergyDistribution self psi minE maxE dE st
            = (st, Raise AttributeError)).
  { intros self HLogger.
    unfold CalculateEnergyDistribution, CalculateEnergyDistribution_locals, call_Logger.
    rewrite HLogger. reflexivity. }
  split; apply Hcall.
  - unfold EigenstateAnalysis_Setup, mbind, M_bind, gets, lift, modify.
    cbn [Config EigenstateAnalysis_init].
    destruct (Eigenstates conf) as [cat|e]; reflexivity.
  - unfold Setup, mbind, M_bind, gets, lift, modify, py_assert.
    cbn [FileList CoulombwaveAnalysis_init].
    destruct (FromMultipleFiles fileList) as [cat|e]; [|reflexivity].
    cbn [self_Z set_Eigenstate]. destruct (Z.eqb _ _); reflexivity.
Qed.

End LoggerFacts.

(* ===================================================================== *)
(** * The loop over the blocks                                          *)
(* ===================================================================== *)

Lemma bind_raise {S A B} (c : M S A) (k : A -> M S B) s s' e :
  c s = (s', Raise e) -> (c ≫= k) s = (s', Raise e).
Proof. intros Hc. unfold mbind, M_bind. now rewrite Hc. Qed.

Section EnergyLoopFacts.
Context {F C Conf : Type} {Ar : Arith F} {Cx : Cplx F C} {Np : Reductions F C}.

Import Analysis.

Lemma energy_loop_app (data : list (list C)) (E : list F) l1 l2 : forall acc,
  energy_loop data E acc (l1 ++ l2)
  = (acc' ← energy_loop data E acc l1; energy_loop data E acc' l2).
Proof.
  induction l1 as [|blk l1 IH]; intros acc; [reflexivity|].
  cbn [app energy_loop]. destruct (energy_loop_body data E acc blk) as [acc1|e];
    cbn [mbind result_bind]; [apply IH | reflexivity].
Qed.

Lemma energy_loop_short_block (data : list (list C)) (E : list F) good bad rest distr t :
  forallb (block_ok data) good = true ->
  length distr = length E ->
  match data !! angIdx bad with
  | Some psiSlice => forallb (fun v => Nat.eqb (length v) (length psiSlice)) (curV bad)
  | None => false
  end = true ->
  length (curE bad) < 2 ->
  energy_loop data E (distr, t) (good ++ bad :: rest) = Raise IndexError.
Proof.
  intros Hgood Hlen Hbad Hshort.
  destruct (energy_loop_ok data E good distr t Hgood Hlen) as (distr' & t' & Hloop & _).
  rewrite energy_loop_app, Hloop. cbn [mbind result_bind energy_loop].
  destruct (data !! angIdx bad) as [psiSlice|] eqn:Hrow; [|discriminate].
  destruct (dot_conj_ok _ _ Hbad) as (d & Hd & _).
  unfold energy_loop_body. rewrite py_index_nat, Hrow. cbn [mbind result_bind].
  rewrite Hd. cbn [mbind result_bind].
  unfold energy_block. now rewrite density_energy_short.
Qed.

(** X6.  If the blocks before some block are well-shaped, and that block
    has eigenvectors of the length of its overlap row but fewer than two
    energies, [CalculateEnergyDistribution] raises [IndexError] (from
    [curE[1]] or [curE[-2]]), prints nothing and leaves [psi]
    unchanged. *)
Theorem energy_distribution_short_block
    (self : EigenstateAnalysis (F:=F) (C:=C) (Conf:=Conf))
    psi w cat (minE maxE dE : F) E (st : State) good bad rest :
  Logger self = true ->
  Eigenstate self = Some cat ->
  heap st !! psi = Some w ->
  r_ minE maxE dE = Ok E ->
  let data := Representation_MultiplyOverlap w (GetData w) in
  IterateStates cat (BoundThreshold self) = good ++ bad :: rest ->
  forallb (block_ok data) good = true ->
  match data !! angIdx bad with
  | Some psiSlice => forallb (fun v => Nat.eqb (length v) (length psiSlice)) (curV bad)
  | None => false
  end = true ->
  length (curE bad) < 2 ->
  exists st',
    CalculateEnergyDistribution self psi minE maxE dE st = (st', Raise IndexError) /\
    stdout st' = stdout st /\
    heap st' !! psi = Some w.
Proof.
  intros HLogger Heig Hpsi Hgrid data Hblocks Hgood Hbad Hshort.
  set (s1 := {| heap := heap st; stdout := stdout st;
                logged := logged st ++ ["Now calculating dP/dE..."] |}).
  assert (H1 : call_Logger self "Now calculating dP/dE..." st = (s1, Ok tt))
    by (unfold call_Logger; now rewrite HLogger).
  pose proof (MultiplyOverlap_run psi w s1 Hpsi) as H2. cbn zeta in H2.
  set (out := fresh (dom (heap s1))) in *.
  match type of H2 with _ = (?s, _) => set (s2 := s) in * end.
  assert (H3 : lift (r_ minE maxE dE) s2 = (s2, Ok E))
    by (unfold lift; now rewrite Hgrid).
  assert (H4 : get_Eigenstate self s2 = (s2, Ok cat))
    by (unfold get_Eigenstate; now rewrite Heig).
  assert (H5 : read_data out s2 = (s2, Ok data)).
  { unfold read_data, s2. cbn [heap set_heap]. now rewrite lookup_insert_eq. }
  assert (H6 : lift (energy_loop data E (zeros (length E), of_int 0)
                       (IterateStates cat (BoundThreshold self))) s2
               = (s2, Raise IndexError)).
  { unfold lift. rewrite Hblocks.
    now rewrite (energy_loop_short_block data E good bad rest _ _ Hgood (length_zeros _)
                   Hbad Hshort). }
  exists s2. split; [|split].
  - unfold CalculateEnergyDistribution. apply bind_raise.
    unfold CalculateEnergyDistribution_locals.
    rewrite (bind_run _ _ _ _ _ H1), (bind_run _ _ _ _ _ H2), (bind_run _ _ _ _ _ H3),
      (bind_run _ _ _ _ _ H4), (bind_run _ _ _ _ _ H5).
    now apply bind_raise.
  - reflexivity.
  - unfold s2, s1. cbn [heap set_heap].
    assert (Hne : out <> psi).
    { intros Heq. pose proof (is_fresh (dom (heap st))) as Hfresh.
      unfold out, s1 in Heq. cbn [heap] in Heq.
      rewrite Heq in Hfresh. apply Hfresh, elem_of_dom. exists w. exact Hpsi. }
    now rewrite !lookup_insert_ne by exact Hne.
Qed.

(** X7.  On a configured object and well-shaped blocks, the returned
    distribution is the element-wise sum, accumulated block after block
    from [zeros(len(E))], of the interpolated contributions of the
    blocks, and the two printed totals are the sums [sum(proj)]
    accumulated block after block from [0], and
    [sum(energyDistr) * dE]. *)
Theorem energy_distribution_sums_blocks
    (self : EigenstateAnalysis (F:=F) (C:=C) (Conf:=Conf))
    psi w cat (minE maxE dE : F) E (st : State) :
  Logger self = true ->
  Eigenstate self = Some cat ->
  heap st !! psi = Some w ->
  r_ minE maxE dE = Ok E ->
  let data := Representation_MultiplyOverlap w (GetData w) in
  let blocks := IterateStates cat (BoundThreshold self) in
  forallb (block_ok data) blocks = true ->
  exists st' (pcs : list (list F * list F)),
    let energyDistr :=
      fold_left (fun acc pc => zip_with fadd acc (snd pc)) pcs (zeros (length E)) in
    let totalIon := fold_left (fun acc pc => fadd acc (np_sum (fst pc))) pcs (of_int 0) in
    CalculateEnergyDistribution self psi minE maxE dE st = (st', Ok (E, energyDistr)) /\
    stdout st' = stdout st ++ [totalIon; fmul (np_sum energyDistr) dE] /\
    Forall2 (fun blk pc =>
               exists psiSlice d,
                 data !! angIdx blk = Some psiSlice /\
                 dot_conj (curV blk) psiSlice = Ok d /\
                 fst pc = abs_squared d /\
                 energy_block E (curE blk) (fst pc) = Ok (snd pc) /\
                 length (snd pc) = length E)
            blocks pcs.
Proof.
  intros HLogger Heig Hpsi Hgrid data blocks Hblocks.
  destruct (energy_loop_sum data E blocks (zeros (length E)) (of_int 0) Hblocks)
    as (pcs & Hsum & Hall).
  destruct (energy_distribution_run self psi w cat minE maxE dE E st
              HLogger Heig Hpsi Hgrid Hblocks)
    as (st' & energyDistr & totalIon & Hloop & _ & Hrun & Hout & _).
  fold data blocks in Hloop. rewrite Hsum in Hloop. injection Hloop as <- <-.
  exists st', pcs. cbn zeta. split; [|split; [exact Hout | exact Hall]].
  unfold CalculateEnergyDistribution. now rewrite (bind_run _ _ _ _ _ Hrun).
Qed.

End EnergyLoopFacts.

Lemma energy_distribution_short_block_witness :
  exists st',
    Analysis.CalculateEnergyDistribution Examples.selfOne 0 10%float 12%float 1%float
      Examples.state
    = (st', Raise IndexError) /\
    Analysis.stdout st' = [].
Proof.
  destruct (energy_distribution_short_block Examples.selfOne 0 Examples.psiA
              Examples.catalogOne 10%float 12%float 1%float [10; 11]%float
              Examples.state [Examples.blk] Examples.blkOne [])
    as (st' & Hrun & Hout & _);
    try reflexivity.
  - simpl. lia.
  - exists st'. split; [exact Hrun | exact Hout].
Defined.

Lemma energy_distribution_sums_blocks_witness :
  exists st' (pcs : list (list float * list float)),
    Analysis.CalculateEnergyDistribution Examples.self 0 10%float 12%float 1%float
      Examples.state
    = (st', Ok ([10; 11]%float,
                fold_left (fun acc pc => zip_with fadd acc (snd pc)) pcs (zeros 2))) /\
    length pcs = 1.
Proof.
  destruct (energy_distribution_sums_blocks Examples.self 0 Examples.psiA
              (Examples.catalog 1) 10%float 12%float 1%float [10; 11]%float
              Examples.state)
    as (st' & pcs & Hrun & _ & Hall);
    try reflexivity.
  exists st', pcs. split; [exact Hrun|].
  apply Forall2_length in Hall. symmetry. exact Hall.
Defined.

(* ===================================================================== *)
(** * An empty energy grid                                              *)
(* ===================================================================== *)

Section EmptyGrid.
Context {F C Conf : Type} {Ar : Arith F} {Cx : Cplx F C} {Np : Reductions F C}.

Import Analysis.

(** X10.  When the length [ceil((maxE - minE) / dE)] computed in the
    arithmetic of the code is not positive, the energy grid is empty: on
    a configured object and well-shaped blocks,
    [CalculateEnergyDistribution] returns two empty arrays without
    raising; it logs its message and prints the tally of [sum(proj)]
    over the blocks, and then [sum([]) * dE]. *)
Theorem energy_distribution_empty_grid
    (self : EigenstateAnalysis (F:=F) (C:=C) (Conf:=Conf))
    psi w cat (minE maxE dE : F) (n : Z) (st : State) :
  ceil_intp (fdiv (fsub maxE minE) dE) = Some n ->
  (n <= 0)%Z ->
  Logger self = true ->
  Eigenstate self = Some cat ->
  heap st !! psi = Some w ->
  let data := Representation_MultiplyOverlap w (GetData w) in
  let blocks := IterateStates cat (BoundThreshold self) in
  forallb (block_ok data) blocks = true ->
  exists st' (projs : list (list F)),
    CalculateEnergyDistribution self psi minE maxE dE st = (st', Ok ([], [])) /\
    Forall2 (fun blk proj =>
               exists psiSlice d,
                 data !! angIdx blk = Some psiSlice /\
                 dot_conj (curV blk) psiSlice = Ok d /\
                 proj = abs_squared d)
            blocks projs /\
    stdout st'
    = stdout st ++ [fold_left (fun t proj => fadd t (np_sum proj)) projs (of_int 0);
                    fmul (np_sum []) dE] /\
    logged st' = logged st ++ ["Now calculating dP/dE..."].
Proof.
  intros Hcount Hn HLogger Heig Hpsi data blocks Hblocks.
  assert (Hgrid : r_ minE maxE dE = Ok []).
  { unfold r_. rewrite Hcount. now replace (Z.to_nat n) with 0 by lia. }
  destruct (energy_loop_sum data [] blocks (zeros 0) (of_int 0) Hblocks)
    as (pcs & Hsum & Hall).
  destruct (energy_distribution_run self psi w cat minE maxE dE [] st
              HLogger Heig Hpsi Hgrid Hblocks)
    as (st' & energyDistr & totalIon & Hloop & Hlen & Hrun & Hout & Hlog & _).
  fold data blocks in Hloop. cbn [length] in Hloop. rewrite Hsum in Hloop.
  injection Hloop as _ HT.
  destruct energyDistr as [|x rest]; [|discriminate].
  exists st', (map fst pcs). split; [|split; [|split; [|exact Hlog]]].
  - unfold CalculateEnergyDistribution. now rewrite (bind_run _ _ _ _ _ Hrun).
  - apply Forall2_fmap_r. eapply Forall2_impl; [exact Hall|].
    intros blk pc (psiSlice & d & Hrow & Hd & Hproj & _). now exists psiSlice, d.
  - rewrite Hout. do 2 f_equal. rewrite <- HT. clear. generalize (of_int 0 : F).
    induction pcs as [|pc pcs IH]; intros t; [reflexivity|]. cbn [map fold_left]. apply IH.
Qed.

End EmptyGrid.

Lemma energy_distribution_empty_grid_witness :
  exists st',
    Analysis.CalculateEnergyDistribution Examples.self 0 12%float 10%float 1%float
      Examples.state
    = (st', Ok ([], [])).
Proof.
  destruct (energy_distribution_empty_grid Examples.self 0 Examples.psiA
              (Examples.catalog 1) 12%float 10%float 1%float (-2) Examples.state)
    as (st' & projs & Hrun & _);
    [reflexivity | lia | reflexivity | reflexivity | reflexivity | reflexivity |].
  exists st'. exact Hrun.
Defined.

(* ===================================================================== *)
(** * Names of the datasets, and an error of the search                 *)
(* ===================================================================== *)

(** X11.  [GetEigenvectorDatasetPath] gives different paths for different
    indices; every such path lies in the group
    [GetEigenvectorGroupName()], and differs from the path of the group
    and from the paths of the four arrays that
    [SaveEigenpairsSolverShiftInvert] stores in the group. *)
Theorem eigenvector_datasets_distinct :
  (forall i j, GetEigenvectorDatasetPath i = GetEigenvectorDatasetPath j -> i = j) /\
  (forall i,
     GetEigenvectorDatasetPath i <> GetEigenvectorGroupName /\
     (GetEigenvectorDatasetPath i
      ∉ ["/Eig/Eigenvalues"; "/Eig/ErrorEstimateListGMRES";
         "/Eig/ErrorEstimateListPIRAM"; "/Eig/ConvergenceEstimateEig"]) /\
     dirname (GetEigenvectorDatasetPath i) = GetEigenvectorGroupName).
Proof.
  split; [exact dataset_path_inj|]. intros i. split; [|split].
  - goal_path_simpl. discriminate.
  - intros Hin. repeat (apply elem_of_cons in Hin as [Heq|Hin]);
      try (revert Heq; goal_path_simpl; discriminate).
    now apply elem_of_nil in Hin.
  - apply dirname_dataset_path.
Qed.

Section FindErrors.
Context {F C : Type} {Ar : Arith F}.

Lemma elem_of_where_negative_from (est : list F) : forall k j e,
  est !! j = Some e -> fltb e (of_int 0) = true -> (k + j) ∈ where_negative_from k est.
Proof.
  induction est as [|x est IH]; intros k j e Hj He; [discriminate|].
  cbn [where_negative_from]. destruct j as [|j].
  - injection Hj as ->. rewrite He, Nat.add_0_r. apply list_elem_of_here.
  - replace (k + S j) with (S k + j) by lia.
    destruct (fltb x (of_int 0)); [apply list_elem_of_further|]; now apply (IH _ _ e).
Qed.

Lemma take_indices_out_of_range (a : list F) idx i :
  i ∈ idx -> length a <= i -> take_indices a idx = Raise IndexError.
Proof.
  intros Hin Hi. unfold take_indices.
  induction idx as [|x idx IH]; [now apply elem_of_nil in Hin|].
  cbn [mapR]. rewrite py_index_nat.
  destruct (a !! x) as [y|] eqn:Hx; [|reflexivity].
  cbn [mbind result_bind]. rewrite IH; [reflexivity|].
  apply elem_of_cons in Hin as [->|Hin]; [|exact Hin].
  apply lookup_lt_Some in Hx. lia.
Qed.

Variable Solve :
  Config (F:=F) -> PiramSolver (F:=F) (C:=C) * GMRESShiftInvertSolver (F:=F).

(** X12.  If a convergence estimate is negative at an index at which the
    solver holds no eigenvalue, [FindEigenvaluesInverseIterationsPiram]
    raises [IndexError] (from [ev[idx]]). *)
Theorem find_raises_on_short_eigenvalues conf solver shiftInvertSolver i e :
  Solve conf = (solver, shiftInvertSolver) ->
  GetConvergenceEstimates solver !! i = Some e ->
  fltb e (of_int 0) = true ->
  length (GetEigenvalues solver) <= i ->
  FindEigenvaluesInverseIterationsPiram Solve conf = Raise IndexError.
Proof.
  intros HS Hi He Hlen. unfold FindEigenvaluesInverseIterationsPiram. rewrite HS.
  rewrite (take_indices_out_of_range _ _ i); [reflexivity | | exact Hlen].
  exact (elem_of_where_negative_from _ 0 i e Hi He).
Qed.

End FindErrors.

Lemma find_raises_on_short_eigenvalues_witness :
  FindEigenvaluesInverseIterationsPiram Examples.SolveShort Examples.conf = Raise IndexError.
Proof.
  apply (find_raises_on_short_eigenvalues Examples.SolveShort Examples.conf
           Examples.solverShort Examples.gmres 1 (-1)%float);
    [reflexivity | reflexivity | reflexivity | simpl; lia].
Defined.

(* ===================================================================== *)
(** * What saving and loading leave alone                               *)
(* ===================================================================== *)

Section StoreFrame.
Context {F C : Type} {Ar : Arith F}.
Implicit Types w : World (F:=F) (C:=C).

(** ** Operations on one file leave the others alone *)

Variable g : string.
Variable content : option (H5File (F:=F) (C:=C)).

Local Abbreviation other := (fun w : World (F:=F) (C:=C) => fs w !! g = content).

Lemma logger_other lv msg w w' r : other w -> logger lv msg w = (w', r) -> other w'.
Proof. intros Hw [= <- <-]. exact Hw. Qed.

Lemma os_remove_other fn :
  fn <> g -> forall w w' r, other w -> os_remove fn w = (w', r) -> other w'.
Proof.
  intros Hne w w' r Hw. unfold os_remove. destruct (fs w !! fn); intros [= <- <-]; [|exact Hw].
  cbn [fs set_fs]. now rewrite lookup_delete_ne.
Qed.

Lemma SetEigenvector_other solver i w w' r :
  other w -> SetEigenvector solver i w = (w', r) -> other w'.
Proof.
  intros Hw. unfold SetEigenvector.
  destruct (GetEigenvector solver !! i); intros [= <- <-]; exact Hw.
Qed.

Lemma SaveWavefunctionHDF_other fn path :
  fn <> g -> forall w w' r, other w -> SaveWavefunctionHDF fn path w = (w', r) -> other w'.
Proof.
  intros Hne w w' r Hw [= <- <-]. cbn [fs set_fs]. now rewrite lookup_insert_ne.
Qed.

Lemma RemoveExistingDataset_other fn path :
  fn <> g -> forall w w' r, other w -> RemoveExistingDataset fn path w = (w', r) -> other w'.
Proof.
  intros Hne w w' r Hw [= <- <-]. cbn [fs set_fs].
  destruct (fs w !! fn); [now rewrite lookup_insert_ne | exact Hw].
Qed.

Lemma openFile_other fn w w' r : other w -> openFile fn w = (w', r) -> other w'.
Proof.
  intros Hw. unfold openFile. destruct (fs w !! fn); intros [= <- <-]; exact Hw.
Qed.

Lemma openFile_handle fn w w' a : openFile fn w = (w', Ok a) -> a = fn.
Proof. unfold openFile. destruct (fs w !! fn); intros [= <- <-]; reflexivity. Qed.

Lemma getNode_other fn path w w' r : other w -> getNode fn path w = (w', r) -> other w'.
Proof.
  intros Hw. unfold getNode. destruct (fs w !! fn) as [f|]; [|intros [= <- <-]; exact Hw].
  destruct (nodes f !! path); intros [= <- <-]; exact Hw.
Qed.

Lemma createArray_other fn group name a :
  fn <> g -> forall w w' r, other w -> createArray fn group name a w = (w', r) -> other w'.
Proof.
  intros Hne w w' r Hw. unfold createArray.
  destruct (fs w !! fn) as [f|]; [|intros [= <- <-]; exact Hw].
  destruct (nodes f !! _); intros [= <- <-]; [exact Hw|].
  cbn [fs set_fs]. now rewrite lookup_insert_ne.
Qed.

Lemma setAttr_other fn name a :
  fn <> g -> forall w w' r, other w -> setAttr fn name a w = (w', r) -> other w'.
Proof.
  intros Hne w w' r Hw. unfold setAttr.
  destruct (fs w !! fn) as [f|]; intros [= <- <-]; [|exact Hw].
  cbn [fs set_fs]. now rewrite lookup_insert_ne.
Qed.

Variable GetRadialPostfix : Config (F:=F) -> list string.
Variable py_str : PyVal -> string.
Variable normpath : string -> string.

Lemma save_other ProcId (solver : PiramSolver (F:=F) (C:=C)) gmres w w' r :
  NameGeneratorBoundstates GetRadialPostfix py_str normpath (BaseProblem_Config solver)
    (PyIntArray (sort_unique (map lm_l (AngularRange solver))))
    (PyIntArray (sort_unique (map lm_m (AngularRange solver)))) <> g ->
  other w ->
  SaveEigenpairsSolverShiftInvert GetRadialPostfix py_str normpath ProcId solver gmres w
  = (w', r) ->
  other w'.
Proof.
  intros Hne. unfold SaveEigenpairsSolverShiftInvert.
  set (filename := NameGeneratorBoundstates _ _ _ _ _ _) in *.
  apply (bind_preserves other).
  { apply (try_except_preserves other); [|apply logger_other].
    apply (bind_preserves other); [apply gets_preserves | intros ex].
    destruct ex; [|apply mret_preserves].
    destruct (decide (ProcId = 0)); [now apply os_remove_other | apply mret_preserves]. }
  intros _. apply (bind_preserves other); [apply logger_other | intros _].
  apply (bind_preserves other).
  { apply (for_each_preserves other). intros i _.
    apply (bind_preserves other);
      [apply SetEigenvector_other | intros _; now apply SaveWavefunctionHDF_other]. }
  intros _. destruct (decide (ProcId = 0)); [|apply mret_preserves].
  do 4 (apply (bind_preserves other); [now apply RemoveExistingDataset_other | intros _]).
  apply (bind_preserves_on other (fun a => a = filename));
    [apply openFile_other | apply openFile_handle | intros h5file ->].
  apply (bind_preserves other); [|intros _; apply mret_preserves].
  apply (try_finally_preserves other); [|apply mret_preserves].
  apply (try_except_preserves other); [|apply logger_other].
  apply (bind_preserves other); [apply getNode_other | intros _].
  do 4 (apply (bind_preserves other); [now apply createArray_other | intros _]).
  do 3 (apply (bind_preserves other); [now apply setAttr_other | intros _]).
  now apply setAttr_other.
Qed.

End StoreFrame.

Section LoadReadOnly.
Context {F C : Type} {Ar : Arith F}.
Implicit Types w : World (F:=F) (C:=C).

Variable files : gmap string (H5File (F:=F) (C:=C)).

Local Abbreviation same := (fun w : World (F:=F) (C:=C) => fs w = files).

Variable GetRadialPostfix : Config (F:=F) -> list string.
Variable py_str : PyVal -> string.
Variable normpath : string -> string.

Lemma load_same conf l m w w' r :
  same w -> LoadEigenpairs GetRadialPostfix py_str normpath conf l m w = (w', r) ->
  same w'.
Proof.
  assert (Hlog : forall lv msg w w' r, same w -> logger lv msg w = (w', r) -> same w')
    by (intros lv msg w0 w1 r0 Hw [= <- <-]; exact Hw).
  assert (Hopen : forall fn w w' r, same w -> openFile fn w = (w', r) -> same w').
  { intros fn w0 w1 r0 Hw. unfold openFile.
    destruct (fs w0 !! fn); intros [= <- <-]; exact Hw. }
  assert (Hnode : forall fn p w w' r, same w -> getNode fn p w = (w', r) -> same w').
  { intros fn p w0 w1 r0 Hw. unfold getNode.
    destruct (fs w0 !! fn) as [f|]; [|intros [= <- <-]; exact Hw].
    destruct (nodes f !! p); intros [= <- <-]; exact Hw. }
  unfold LoadEigenpairs.
  apply (bind_preserves same); [apply gets_preserves | intros ex].
  destruct (negb ex).
  { apply (bind_preserves same); [apply Hlog | intros _; apply mret_preserves]. }
  apply (bind_preserves same); [apply Hlog | intros _].
  apply (bind_preserves same).
  { unfold GetArrayFromHDF5.
    apply (bind_preserves same); [apply Hopen | intros h5file].
    apply (bind_preserves same); [apply Hnode | intros n].
    destruct n; first [apply mret_preserves | apply lift_preserves]. }
  intros E. apply (bind_preserves same); [apply Hlog | intros _].
  apply (bind_preserves same); [apply Hopen | intros h5file].
  apply (bind_preserves same); [|intros V; apply mret_preserves].
  apply (foldM_preserves same). intros V i _.
  apply (bind_preserves same); [apply Hnode | intros myGroup].
  apply (bind_preserves same); [|intros row; apply mret_preserves].
  destruct myGroup; apply lift_preserves.
Qed.

End LoadReadOnly.

Section StoreClaims.
Context {F C : Type} {Ar : Arith F}.
Implicit Types w : World (F:=F) (C:=C).

Variable GetRadialPostfix : Config (F:=F) -> list string.
Variable py_str : PyVal -> string.
Variable normpath : string -> string.

Local Abbreviation file_of solver :=
  (NameGeneratorBoundstates GetRadialPostfix py_str normpath (BaseProblem_Config solver)
     (PyIntArray (sort_unique (map lm_l (AngularRange solver))))
     (PyIntArray (sort_unique (map lm_m (AngularRange solver))))).

(** X13.  Whatever it returns or raises, and on any process,
    [SaveEigenpairsSolverShiftInvert] leaves every file other than the
    one named by [NameGeneratorBoundstates] as it was: it neither
    creates, changes nor removes it. *)
Theorem save_leaves_other_files ProcId (solver : PiramSolver (F:=F) (C:=C)) gmres w g :
  file_of solver <> g ->
  fs (fst (SaveEigenpairsSolverShiftInvert GetRadialPostfix py_str normpath ProcId
             solver gmres w)) !! g
  = fs w !! g.
Proof.
  intros Hne.
  destruct (SaveEigenpairsSolverShiftInvert GetRadialPostfix py_str normpath ProcId
              solver gmres w) as [w' r] eqn:Hrun.
  cbn [fst].
  exact (save_other g (fs w !! g) GetRadialPostfix py_str normpath ProcId solver gmres
           w w' r Hne eq_refl Hrun).
Qed.

(** X14.  [LoadEigenpairs] never changes the file system, whatever it
    returns or raises. *)
Theorem load_never_writes conf l m w :
  fs (fst (LoadEigenpairs GetRadialPostfix py_str normpath conf l m w)) = fs w.
Proof.
  destruct (LoadEigenpairs GetRadialPostfix py_str normpath conf l m w) as [w' r] eqn:Hrun.
  cbn [fst].
  exact (load_same (fs w) GetRadialPostfix py_str normpath conf l m w w' r eq_refl Hrun).
Qed.

(** X15.  On a process other than the coordinator ([ProcId <> 0]), for a
    solver with an eigenvector for every eigenvalue,
    [SaveEigenpairsSolverShiftInvert] returns normally; in the file it
    names, the eigenvectors are stored, the attributes and every node
    other than the eigenvector datasets and their group are as before,
    and a file that existed is not removed. *)
Theorem save_non_coordinator ProcId (solver : PiramSolver (F:=F) (C:=C)) gmres w :
  ProcId <> 0 ->
  length (GetEigenvalues solver) <= length (GetEigenvector solver) ->
  exists w',
    SaveEigenpairsSolverShiftInvert GetRadialPostfix py_str normpath ProcId solver gmres w
    = (w', Ok tt) /\
    let before := default empty_file (fs w !! file_of solver) in
    let after := default empty_file (fs w' !! file_of solver) in
    attrs after = attrs before /\
    (forall p, (forall i, p <> GetEigenvectorDatasetPath i) ->
               p <> GetEigenvectorGroupName ->
               nodes after !! p = nodes before !! p) /\
    (forall i v, i < length (GetEigenvalues solver) ->
                 GetEigenvector solver !! i = Some v ->
                 nodes after !! GetEigenvectorDatasetPath i = Some (WavefunctionNode v)) /\
    (is_Some (fs w !! file_of solver) -> is_Some (fs w' !! file_of solver)).
Proof.
  intros Hproc Hlen.
  set (filename := file_of solver).
  set (w2 := add_log Info "Now storing eigenvectors..." w).
  destruct (store_eigenvectors_run solver filename (length (GetEigenvalues solver)) 0 w2)
    as (w3 & Hloop & _ & Hgrp & Hvec & Hother & Hattr); [simpl; lia|].
  exists w3. split.
  - unfold SaveEigenpairsSolverShiftInvert. fold filename.
    assert (Hrm : try_except
                    (ex ← os_path_exists filename;
                     if (ex : bool) return M World unit then
                       if decide (ProcId = 0) then os_remove filename else mret tt
                     else mret tt)
                    (logger Error ("Could not remove " +:+ filename)) w = (w, Ok tt)).
    { apply try_except_run. unfold mbind, M_bind, os_path_exists, gets.
      rewrite decide_False by exact Hproc. now destruct (bool_decide _). }
    rewrite (bind_run _ _ _ _ _ Hrm).
    assert (Hlog : logger Info "Now storing eigenvectors..." w = (w2, Ok tt)) by reflexivity.
    rewrite (bind_run _ _ _ _ _ Hlog).
    rewrite length_map, (bind_run _ _ _ _ _ Hloop).
    now rewrite decide_False by exact Hproc.
  - cbn zeta. change (fs w2) with (fs w) in *.
    split; [exact Hattr|]. split; [|split].
    + intros p Hp Hg. apply Hother; [|exact Hg]. intros i _. apply Hp.
    + intros i v Hi Hv. apply Hvec; [lia | exact Hv].
    + intros Hsome. destruct (length (GetEigenvalues solver)) as [|n] eqn:Hn.
      * injection Hloop as <-. exact Hsome.
      * apply Hgrp. lia.
Qed.

End StoreClaims.

Lemma save_leaves_other_files_witness :
  fs (fst (SaveEigenpairsSolverShiftInvert Examples.GetRadialPostfix Examples.py_str
             Examples.normpath 0 Examples.solver Examples.gmres Examples.world))
    !! "other.h5"
  = fs Examples.world !! "other.h5".
Proof.
  apply (save_leaves_other_files Examples.GetRadialPostfix Examples.py_str
           Examples.normpath 0 Examples.solver Examples.gmres Examples.world "other.h5").
  intros Heq. vm_compute in Heq. discriminate Heq.
Defined.

Lemma save_non_coordinator_witness :
  exists w',
    SaveEigenpairsSolverShiftInvert Examples.GetRadialPostfix Examples.py_str
      Examples.normpath 1 Examples.solver Examples.gmres Examples.world
    = (w', Ok tt).
Proof.
  destruct (save_non_coordinator Examples.GetRadialPostfix Examples.py_str
              Examples.normpath 1 Examples.solver Examples.gmres Examples.world)
    as (w' & Hrun & _); [discriminate | simpl; lia |].
  exists w'. exact Hrun.
Defined.

(* ===================================================================== *)
(** * Saving, then loading                                              *)
(* ===================================================================== *)

Section RoundTrip.
Context {F C : Type} {Ar : Arith F}.
Implicit Types w : World (F:=F) (C:=C).

Local Abbreviation load_body h5file :=
  (fun (V : list (list C)) (i : nat) =>
     myGroup ← getNode h5file (GetEigenvectorDatasetPath i);
     row ← match myGroup with
           | WavefunctionNode d => lift (py_index d 0)
           | _ => lift (Raise IndexError)
           end;
     mret (V ++ [row])).

Lemma load_vectors_run fn (f : H5File (F:=F) (C:=C)) w rows :
  fs w !! fn = Some f ->
  forall k V0,
    (forall j row, rows !! j = Some row ->
       exists v, nodes f !! GetEigenvectorDatasetPath (k + j) = Some (WavefunctionNode v)
                 /\ v !! 0 = Some row) ->
    foldM (load_body fn) V0 (seq k (length rows)) w = (w, Ok (V0 ++ rows)).
Proof.
  intros Hf. induction rows as [|row rows IH]; intros k V0 Hrows.
  - cbn. now rewrite app_nil_r.
  - cbn [length seq foldM].
    destruct (Hrows 0 row eq_refl) as (v & Hnode & Hrow). rewrite Nat.add_0_r in Hnode.
    assert (Hstep : load_body fn V0 k w = (w, Ok (V0 ++ [row]))).
    { rewrite (bind_run _ _ _ _ _ (getNode_run fn _ w f _ Hf Hnode)).
      assert (Hidx : lift (py_index v 0) w = (w, Ok row)).
      { unfold lift. change 0%Z with (Z.of_nat 0). now rewrite py_index_nat, Hrow. }
      now rewrite (bind_run _ _ _ _ _ Hidx). }
    rewrite (bind_run _ _ _ _ _ Hstep), IH; [now rewrite <- app_assoc|].
    intros j row' Hj. destruct (Hrows (S j) row' Hj) as (v' & Hnode' & Hrow').
    exists v'. split; [|exact Hrow'].
    now replace (S k + j) with (k + S j) by lia.
Qed.

Variable GetRadialPostfix : Config (F:=F) -> list string.
Variable py_str : PyVal -> string.
Variable normpath : string -> string.

(** X16.  After [SaveEigenpairsSolverShiftInvert] on the coordinator, for
    a solver with at least one eigenvalue, an eigenvector for each and a
    first row in each of these, [LoadEigenpairs] with the configuration
    of the solver and the sorted unique [l] and [m] of its angular range
    returns [1/x + shift] of every eigenvalue and, for each, row 0 of
    its eigenvector; it logs two messages and leaves the file system as
    it is. *)
Theorem save_then_load (solver : PiramSolver (F:=F) (C:=C)) gmres w :
  GetEigenvalues solver <> [] ->
  length (GetEigenvalues solver) <= length (GetEigenvector solver) ->
  forallb (fun v : list (list C) => match v with [] => false | _ => true end)
          (take (length (GetEigenvalues solver)) (GetEigenvector solver)) = true ->
  let conf := BaseProblem_Config solver in
  let l := PyIntArray (sort_unique (map lm_l (AngularRange solver))) in
  let m := PyIntArray (sort_unique (map lm_m (AngularRange solver))) in
  exists w' w'' V,
    SaveEigenpairsSolverShiftInvert GetRadialPostfix py_str normpath 0 solver gmres w
    = (w', Ok tt) /\
    LoadEigenpairs GetRadialPostfix py_str normpath conf l m w'
    = (w'', Ok (map (fun x => fadd (fdiv (of_int 1) x) (shift conf)) (GetEigenvalues solver),
                V)) /\
    length V = length (GetEigenvalues solver) /\
    (forall i v, i < length (GetEigenvalues solver) ->
                 GetEigenvector solver !! i = Some v -> V !! i = v !! 0) /\
    fs w'' = fs w' /\
    log w'' = log w' ++ [(Info, "Now loading eigenvalues...");
                         (Info, "Now loading eigenvectors...")].
Proof.
  intros Hne Hlen Hrows conf l m.
  destruct (save_persists_all GetRadialPostfix py_str normpath solver gmres w Hne Hlen)
    as (w' & f & Hsave & Hf & Hev & _ & Hvec).
  fold conf l m in Hf.
  set (filename := NameGeneratorBoundstates GetRadialPostfix py_str normpath conf l m) in *.
  set (n := length (GetEigenvalues solver)) in *.
  set (E := map (fun x => fadd (fdiv (of_int 1) x) (shift conf)) (GetEigenvalues solver)) in *.
  set (V := map (fun v : list (list C) => default [] (v !! 0))
                (take n (GetEigenvector solver))).
  assert (HVlen : length V = n).
  { unfold V. rewrite length_map, length_take. lia. }
  assert (HV : forall i v, i < n -> GetEigenvector solver !! i = Some v ->
                           V !! i = v !! 0 /\ exists row, v !! 0 = Some row).
  { intros i v Hi Hv. unfold V.
    rewrite list_lookup_fmap, lookup_take_lt, Hv by exact Hi. cbn [fmap option_fmap option_map].
    rewrite forallb_forall in Hrows.
    assert (Hin : In v (take n (GetEigenvector solver))).
    { apply list_elem_of_In, (list_elem_of_lookup_2 _ i). now rewrite lookup_take_lt. }
    specialize (Hrows v Hin). destruct v as [|row v]; [discriminate|].
    split; [reflexivity | now exists row]. }
  set (wa := add_log Info "Now loading eigenvalues..." w').
  set (wb := add_log Info "Now loading eigenvectors..." wa).
  assert (Hfb : fs wb !! filename = Some f) by exact Hf.
  assert (L1 : os_path_exists filename w' = (w', Ok true)).
  { unfold os_path_exists, gets. rewrite bool_decide_true; [reflexivity|].
    rewrite Hf. now eexists. }
  assert (L2 : logger Info "Now loading eigenvalues..." w' = (wa, Ok tt)) by reflexivity.
  assert (L3 : GetArrayFromHDF5 filename GetEigenvectorGroupName "Eigenvalues" wa
               = (wa, Ok E)).
  { unfold GetArrayFromHDF5.
    rewrite (bind_run _ _ _ _ _ (openFile_run filename wa f Hf)).
    now rewrite (bind_run _ _ _ _ _ (getNode_run filename _ wa f _ Hf Hev)). }
  assert (L4 : logger Info "Now loading eigenvectors..." wa = (wb, Ok tt)) by reflexivity.
  assert (L5 : openFile filename wb = (wb, Ok filename)) by exact (openFile_run _ _ f Hfb).
  assert (L6 : foldM (load_body filename) [] (seq 0 (length E)) wb = (wb, Ok V)).
  { replace (length E) with (length V) by (unfold E; rewrite length_map; exact HVlen).
    apply (load_vectors_run filename f wb V Hfb 0 []).
    intros j row Hj. pose proof (lookup_lt_Some _ _ _ Hj) as Hjn. rewrite HVlen in Hjn.
    destruct (lookup_lt_is_Some_2 (GetEigenvector solver) j) as [v Hv]; [lia|].
    exists v. split; [now apply Hvec|].
    destruct (HV j v Hjn Hv) as [HVj _]. now rewrite <- HVj. }
  exists w', wb, V. split; [exact Hsave|]. split; [|split; [exact HVlen|split; [|split]]].
  - unfold LoadEigenpairs. fold filename.
    rewrite (bind_run _ _ _ _ _ L1). cbn [negb].
    rewrite (bind_run _ _ _ _ _ L2), (bind_run _ _ _ _ _ L3), (bind_run _ _ _ _ _ L4),
      (bind_run _ _ _ _ _ L5), (bind_run _ _ _ _ _ L6).
    reflexivity.
  - intros i v Hi Hv. now destruct (HV i v Hi Hv).
  - reflexivity.
  - unfold wb, wa. cbn [log add_log]. now rewrite <- app_assoc.
Qed.

End RoundTrip.

Lemma save_then_load_witness :
  exists w' w'' V,
    SaveEigenpairsSolverShiftInvert Examples.GetRadialPostfix Examples.py_str
      Examples.normpath 0 Examples.solver Examples.gmres Examples.world
    = (w', Ok tt) /\
    LoadEigenpairs Examples.GetRadialPostfix Examples.py_str Examples.normpath
      Examples.conf (PyIntArray [0%Z]) (PyIntArray [0%Z]) w'
    = (w'', Ok ([0; -0.25]%float, V)) /\
    length V = 2.
Proof.
  destruct (save_then_load Examples.GetRadialPostfix Examples.py_str Examples.normpath
              Examples.solver Examples.gmres Examples.world)
    as (w' & w'' & V & Hsave & Hload & Hlen & _);
    [discriminate | simpl; lia | reflexivity |].
  exists w', w'', V. split; [exact Hsave|]. split; [exact Hload | exact Hlen].
Defined.
